(** * cpuinfo: x86 Linux topology construction (src/x86/linux/init.c)

    A shallow embedding of the identifier arithmetic, the counting pass
    [cpuinfo_x86_count_objects], the build loop and the commit/clean-up
    control flow of [cpuinfo_x86_linux_init], followed by the properties
    of the natural-language specification that are stated about them.

    Conventions.
    - A [uint32_t] is a [Z] in [0, 2^32); every operation that can leave
      that range in C is wrapped with [wrap32].
    - A C array is a [list] whose length is the number of elements that
      [calloc] was asked for; a NULL array has no elements.
    - A pointer into one of the arrays is the index of the element; NULL
      is [None].
    - A store outside the bounds of its array is undefined in C.  Here
      it leaves the array unchanged and is recorded as a [fault], so
      that memory safety is the statement that no fault is recorded.
      What the arrays hold after the build loop is stated only for runs
      that record no fault.
    - A shift by 32 or more is undefined in C.  Here it shifts every
      bit out; what rests on the value of a shift is stated for counts
      in 0..31. *)

From Stdlib Require Import ZArith Bool String.
From stdpp Require Import base list functions gmap sorting.

Local Open Scope Z_scope.

(** ** 32-bit unsigned arithmetic *)

Definition UINT32_MAX : Z := 4294967295.

Definition wrap32 (z : Z) : Z := z mod 2 ^ 32.

(** [x << n] on [uint32_t].  C leaves the shift undefined for [n >= 32];
    the embedding is total there (all bits shifted out), which need not
    be what the compiled program does.  A statement whose truth rests
    on the value of a shift bounds the count by 31. *)
Definition shl32 (x n : Z) : Z := wrap32 (Z.shiftl x n).

(** [~x] on [uint32_t]. *)
Definition not32 (x : Z) : Z := wrap32 (Z.lnot x).

Definition is_uint32 (z : Z) : Prop := 0 <= z < 2 ^ 32.

(** init.c:17-19 *)
Definition bit_mask (bits : Z) : Z := wrap32 (shl32 1 bits - 1).

(** The expression [id & ~(bit_mask(length) << offset)] of init.c:51-52,
    58-59, 273-274 and 279-280: the identifier with one bit field
    cleared. *)
Definition derive_group_id (identifier field_offset field_length : Z) : Z :=
  Z.land identifier (not32 (shl32 (bit_mask field_length) field_offset)).

(** The expression [apic_id & ~bit_mask(apic_bits)] of init.c:65, 72, 79,
    86, 93 and of the build loop: the cache-sharing id. *)
Definition derive_cache_id (identifier apic_bits : Z) : Z :=
  Z.land identifier (not32 (bit_mask apic_bits)).

(** ** Raw descriptors *)

(** Modelled from the spec: [struct cpuinfo_x86_cache] is declared in
    x86/api.h, which is not part of the sources at hand; the fields are
    the ones init.c reads. *)
Record cpuinfo_x86_cache := {
  xc_size : Z;
  xc_associativity : Z;
  xc_sets : Z;
  xc_partitions : Z;
  xc_line_size : Z;
  xc_flags : Z;
  xc_apic_bits : Z
}.

(** Modelled from the spec: [struct cpuinfo_x86_caches] of x86/api.h,
    one raw cache description per level. *)
Record cpuinfo_x86_caches := {
  xl1i : cpuinfo_x86_cache;
  xl1d : cpuinfo_x86_cache;
  xl2 : cpuinfo_x86_cache;
  xl3 : cpuinfo_x86_cache;
  xl4 : cpuinfo_x86_cache
}.

(** Modelled from the spec: [struct cpuinfo_x86_topology] of x86/api.h. *)
Record cpuinfo_x86_topology := {
  apic_id : Z;
  thread_bits_offset : Z;
  thread_bits_length : Z;
  core_bits_offset : Z;
  core_bits_length : Z
}.

(** Modelled from the spec: [struct cpuinfo_x86_processor] of x86/api.h,
    restricted to the fields init.c reads or writes. *)
Record cpuinfo_x86_processor := {
  x_cpuid : Z;
  x_vendor : Z;
  x_uarch : Z;
  x_topology : cpuinfo_x86_topology;
  x_cache : cpuinfo_x86_caches;
  x_linux_id : Z;
  x_brand_string : string
}.

(** init.c:51-52 and 273-274 *)
Definition core_id_of (x : cpuinfo_x86_processor) : Z :=
  derive_group_id (apic_id (x_topology x))
    (thread_bits_offset (x_topology x)) (thread_bits_length (x_topology x)).

(** init.c:58-59 and 279-280 *)
Definition package_id_of (x : cpuinfo_x86_processor) : Z :=
  derive_group_id (core_id_of x)
    (core_bits_offset (x_topology x)) (core_bits_length (x_topology x)).

(** ** Canonical ordering *)

(** init.c:21-30 *)
Definition cmp_x86_processor_by_apic_id (a b : cpuinfo_x86_processor) : Z :=
  let id_a := apic_id (x_topology a) in
  let id_b := apic_id (x_topology b) in
  if id_a <? id_b then -1 else (if id_a >? id_b then 1 else 0).

(** A descriptor array in the order [qsort] leaves it in: the comparator
    places no element after a later one (ascending hierarchical
    identifier, equal identifiers in any order). *)
Definition apic_le (a b : cpuinfo_x86_processor) : Prop :=
  cmp_x86_processor_by_apic_id a b <= 0.

Definition sorted_by_apic_id (xs : list cpuinfo_x86_processor) : Prop :=
  StronglySorted apic_le xs.

(** ** The counting pass *)

(** One "last id" sentinel and the count of transitions seen so far. *)
Record tracker := {
  last_id : Z;
  count : Z
}.

Definition tracker_init : tracker := {| last_id := UINT32_MAX; count := 0 |}.

(** [if (id != last) { last = id; count++; }], init.c:53-56, 60-63. *)
Definition count_key (id : Z) (t : tracker) : tracker :=
  if id =? last_id t then t
  else {| last_id := id; count := wrap32 (count t + 1) |}.

(** One cache level of the counting pass, init.c:64-70 (and the four
    copies below it).  There is no [else] branch: a descriptor whose size
    is zero leaves the tracker untouched. *)
Definition count_cache (apic : Z) (c : cpuinfo_x86_cache) (t : tracker) : tracker :=
  if xc_size c =? 0 then t
  else count_key (derive_cache_id apic (xc_apic_bits c)) t.

Record count_state := {
  cs_core : tracker;
  cs_package : tracker;
  cs_l1i : tracker;
  cs_l1d : tracker;
  cs_l2 : tracker;
  cs_l3 : tracker;
  cs_l4 : tracker
}.

Definition count_state_init : count_state :=
  {| cs_core := tracker_init; cs_package := tracker_init;
     cs_l1i := tracker_init; cs_l1d := tracker_init;
     cs_l2 := tracker_init; cs_l3 := tracker_init; cs_l4 := tracker_init |}.

(** Body of the loop of init.c:48-99. *)
Definition count_step (s : count_state) (x : cpuinfo_x86_processor) : count_state :=
  let apic := apic_id (x_topology x) in
  {| cs_core := count_key (core_id_of x) (cs_core s);
     cs_package := count_key (package_id_of x) (cs_package s);
     cs_l1i := count_cache apic (xl1i (x_cache x)) (cs_l1i s);
     cs_l1d := count_cache apic (xl1d (x_cache x)) (cs_l1d s);
     cs_l2 := count_cache apic (xl2 (x_cache x)) (cs_l2 s);
     cs_l3 := count_cache apic (xl3 (x_cache x)) (cs_l3 s);
     cs_l4 := count_cache apic (xl4 (x_cache x)) (cs_l4 s) |}.

(** The seven outputs of [cpuinfo_x86_count_objects]. *)
Record object_counts := {
  cores_count : Z;
  packages_count : Z;
  l1i_count : Z;
  l1d_count : Z;
  l2_count : Z;
  l3_count : Z;
  l4_count : Z
}.

(** init.c:32-107 *)
Definition cpuinfo_x86_count_objects (processors : list cpuinfo_x86_processor)
  : object_counts :=
  let s := fold_left count_step processors count_state_init in
  {| cores_count := count (cs_core s);
     packages_count := count (cs_package s);
     l1i_count := count (cs_l1i s);
     l1d_count := count (cs_l1d s);
     l2_count := count (cs_l2 s);
     l3_count := count (cs_l3 s);
     l4_count := count (cs_l4 s) |}.

(** ** Published records *)

(** Modelled from the spec: [enum cpuinfo_cache_level] of api.h, the
    index type of [cpuinfo_cache] and [cpuinfo_cache_count]. *)
Inductive cpuinfo_cache_level :=
| cpuinfo_cache_level_1i
| cpuinfo_cache_level_1d
| cpuinfo_cache_level_2
| cpuinfo_cache_level_3
| cpuinfo_cache_level_4.

Module Cache.
(** Modelled from the spec: [struct cpuinfo_cache] of cpuinfo.h,
    restricted to the fields init.c writes. *)
Record t := {
  size : Z;
  associativity : Z;
  sets : Z;
  partitions : Z;
  line_size : Z;
  flags : Z;
  processor_start : Z;
  processor_count : Z
}.

(** An element as [calloc] leaves it. *)
Definition zero : t :=
  {| size := 0; associativity := 0; sets := 0; partitions := 0;
     line_size := 0; flags := 0; processor_start := 0; processor_count := 0 |}.

(** [.processor_count += 1] *)
Definition add_processor (c : t) : t :=
  {| size := size c; associativity := associativity c; sets := sets c;
     partitions := partitions c; line_size := line_size c; flags := flags c;
     processor_start := processor_start c;
     processor_count := wrap32 (processor_count c + 1) |}.
End Cache.

Module Core.
(** Modelled from the spec: [struct cpuinfo_core] of cpuinfo.h. *)
Record t := {
  processor_start : Z;
  processor_count : Z;
  core_id : Z;
  package : option Z;
  vendor : Z;
  uarch : Z;
  cpuid : Z
}.

Definition zero : t :=
  {| processor_start := 0; processor_count := 0; core_id := 0;
     package := None; vendor := 0; uarch := 0; cpuid := 0 |}.

(** [.processor_count++] *)
Definition add_processor (c : t) : t :=
  {| processor_start := processor_start c;
     processor_count := wrap32 (processor_count c + 1);
     core_id := core_id c; package := package c; vendor := vendor c;
     uarch := uarch c; cpuid := cpuid c |}.
End Core.

Module Package.
(** Modelled from the spec: [struct cpuinfo_package] of cpuinfo.h,
    without the Android-only [gpu_name]. *)
Record t := {
  name : string;
  processor_start : Z;
  processor_count : Z;
  core_start : Z;
  core_count : Z
}.

Definition zero : t :=
  {| name := EmptyString; processor_start := 0; processor_count := 0;
     core_start := 0; core_count := 0 |}.

(** [.core_count += 1] *)
Definition add_core (p : t) : t :=
  {| name := name p; processor_start := processor_start p;
     processor_count := processor_count p; core_start := core_start p;
     core_count := wrap32 (core_count p + 1) |}.

(** [.processor_count++] *)
Definition add_processor (p : t) : t :=
  {| name := name p; processor_start := processor_start p;
     processor_count := wrap32 (processor_count p + 1);
     core_start := core_start p; core_count := core_count p |}.

(** The four field assignments of init.c:313-316; [core_count] keeps
    its value. *)
Definition start (i first_core : Z) (display_name : string) (p : t) : t :=
  {| name := display_name; processor_start := i; processor_count := 1;
     core_start := first_core; core_count := core_count p |}.
End Package.

Module Processor.
(** Modelled from the spec: [struct cpuinfo_processor] of cpuinfo.h; the
    five members of its [cache] sub-structure are flattened into
    [l1i] .. [l4]. *)
Record t := {
  smt_id : Z;
  core : option Z;
  package : option Z;
  linux_id : Z;
  apic_id : Z;
  l1i : option Z;
  l1d : option Z;
  l2 : option Z;
  l3 : option Z;
  l4 : option Z
}.

Definition zero : t :=
  {| smt_id := 0; core := None; package := None; linux_id := 0;
     apic_id := 0; l1i := None; l1d := None; l2 := None; l3 := None;
     l4 := None |}.

(** The five assignments of init.c:287-291. *)
Definition set_topology (smt core_index package_index linux apic : Z) (p : t) : t :=
  {| smt_id := smt; core := Some core_index; package := Some package_index;
     linux_id := linux; apic_id := apic;
     l1i := l1i p; l1d := l1d p; l2 := l2 p; l3 := l3 p; l4 := l4 p |}.

(** [processors[i].cache.<level> = &<level>[index]] *)
Definition set_cache (level : cpuinfo_cache_level) (index : Z) (p : t) : t :=
  {| smt_id := smt_id p; core := core p; package := package p;
     linux_id := linux_id p; apic_id := apic_id p;
     l1i := match level with cpuinfo_cache_level_1i => Some index | _ => l1i p end;
     l1d := match level with cpuinfo_cache_level_1d => Some index | _ => l1d p end;
     l2 := match level with cpuinfo_cache_level_2 => Some index | _ => l2 p end;
     l3 := match level with cpuinfo_cache_level_3 => Some index | _ => l3 p end;
     l4 := match level with cpuinfo_cache_level_4 => Some index | _ => l4 p end |}.

(** [processors[i].cache.<level>] *)
Definition cache (level : cpuinfo_cache_level) (p : t) : option Z :=
  match level with
  | cpuinfo_cache_level_1i => l1i p
  | cpuinfo_cache_level_1d => l1d p
  | cpuinfo_cache_level_2 => l2 p
  | cpuinfo_cache_level_3 => l3 p
  | cpuinfo_cache_level_4 => l4 p
  end.
End Processor.

(** The raw cache description of one level. *)
Definition x_cache_level (level : cpuinfo_cache_level) (x : cpuinfo_x86_processor)
  : cpuinfo_x86_cache :=
  match level with
  | cpuinfo_cache_level_1i => xl1i (x_cache x)
  | cpuinfo_cache_level_1d => xl1d (x_cache x)
  | cpuinfo_cache_level_2 => xl2 (x_cache x)
  | cpuinfo_cache_level_3 => xl3 (x_cache x)
  | cpuinfo_cache_level_4 => xl4 (x_cache x)
  end.

(** ** Arrays and out-of-bounds stores *)

(** The arrays [cpuinfo_x86_linux_init] allocates. *)
Inductive array_id :=
| arr_x86_processors
| arr_processors
| arr_cores
| arr_packages
| arr_cache (level : cpuinfo_cache_level)
| arr_linux_cpu_to_processor_map
| arr_linux_cpu_to_core_map.

(** A store to element [fault_index] of [fault_array], which has fewer
    elements than that. *)
Record fault := {
  fault_array : array_id;
  fault_index : Z
}.

Definition in_bounds {A} (l : list A) (i : Z) : bool :=
  (0 <=? i) && (i <? Z.of_nat (length l)).

(** [a[i] = f(a[i])]: performed when [i] is inside the allocation,
    recorded as a fault otherwise.  The source makes the store without
    a check, and C leaves a store outside the allocation undefined: from
    the first recorded fault on, the arrays of the embedding need not be
    what the program's memory holds.  What is stated about the contents
    of the arrays is therefore stated for runs that record no fault. *)
Definition store {A} (a : array_id) (f : A -> A) (i : Z) (l : list A)
  : list A * list fault :=
  if in_bounds l i then (alter f (Z.to_nat i) l, [])
  else (l, [{| fault_array := a; fault_index := i |}]).

(** [calloc(n, sizeof ...)] that succeeded: [n] zeroed elements. *)
Definition calloc_elems {A} (n : Z) (zero : A) : list A :=
  replicate (Z.to_nat n) zero.

(** ** The build loop *)

(** Cores, packages and the loop variables that track them
    (init.c:264, 266). *)
Record topology_state := {
  ts_cores : list Core.t;
  ts_packages : list Package.t;
  core_index : Z;
  package_index : Z;
  last_core_id : Z;
  last_package_id : Z
}.

(** The compound literal of init.c:295-303. *)
Definition new_core (i package_index : Z) (x : cpuinfo_x86_processor) : Core.t :=
  {| Core.processor_start := i;
     Core.processor_count := 1;
     Core.core_id := core_id_of x;
     Core.package := Some package_index;
     Core.vendor := x_vendor x;
     Core.uarch := x_uarch x;
     Core.cpuid := x_cpuid x |}.

(** init.c:270-283 and 293-321: the core and package part of one
    iteration.  [normalize] stands for the brand-string collaborator
    [cpuinfo_x86_normalize_brand_string]. *)
Definition topology_step (normalize : string -> string) (i : Z)
    (x : cpuinfo_x86_processor) (s : topology_state)
  : topology_state * list fault :=
  let core_id := core_id_of x in
  let core_index' :=
    if core_id =? last_core_id s then core_index s
    else wrap32 (core_index s + 1) in
  let package_id := package_id_of x in
  let package_index' :=
    if package_id =? last_package_id s then package_index s
    else wrap32 (package_index s + 1) in
  (* init.c:293-309 *)
  let cores1 :=
    if core_id =? last_core_id s
    then store arr_cores Core.add_processor core_index' (ts_cores s)
    else store arr_cores (fun _ => new_core i package_index' x) core_index'
           (ts_cores s) in
  let packages1 :=
    if core_id =? last_core_id s then (ts_packages s, [])
    else store arr_packages Package.add_core package_index' (ts_packages s) in
  (* init.c:311-321 *)
  let packages2 :=
    if package_id =? last_package_id s
    then store arr_packages Package.add_processor package_index' (packages1.1)
    else store arr_packages
           (Package.start i core_index' (normalize (x_brand_string x)))
           package_index' (packages1.1) in
  ({| ts_cores := cores1.1;
      ts_packages := packages2.1;
      core_index := core_index';
      package_index := package_index';
      last_core_id := core_id;
      last_package_id := package_id |},
   cores1.2 ++ packages1.2 ++ packages2.2).

(** init.c:286-291: the processor record of iteration [i], written with
    the indices the iteration has just advanced. *)
Definition processor_topology (x : cpuinfo_x86_processor) (s' : topology_state)
  : Processor.t -> Processor.t :=
  let thread_mask := bit_mask (thread_bits_length (x_topology x)) in
  Processor.set_topology
    (Z.land (Z.shiftr (apic_id (x_topology x))
               (thread_bits_offset (x_topology x))) thread_mask)
    (core_index s') (package_index s')
    (x_linux_id x) (apic_id (x_topology x)).

(** One cache array with its loop variables (init.c:265, 267-268). *)
Record cache_state := {
  cache_array : list Cache.t;
  cache_index : Z;
  cache_last_id : Z
}.

(** The compound literal of init.c:332-341. *)
Definition new_cache (i : Z) (c : cpuinfo_x86_cache) : Cache.t :=
  {| Cache.size := xc_size c;
     Cache.associativity := xc_associativity c;
     Cache.sets := xc_sets c;
     Cache.partitions := xc_partitions c;
     Cache.line_size := xc_line_size c;
     Cache.flags := xc_flags c;
     Cache.processor_start := i;
     Cache.processor_count := 1 |}.

(** One of the cache blocks of the build loop (init.c:326-349 and its
    copies).  The reference stored into [processors[i]] is taken from
    the index as it is on entry, before the [++] of the "new cache"
    branch. *)
Definition cache_step (level : cpuinfo_cache_level) (i apic : Z)
    (c : cpuinfo_x86_cache)
    (ps : list Processor.t * cache_state * list fault)
  : list Processor.t * cache_state * list fault :=
  let processors := ps.1.1 in
  let s := ps.1.2 in
  let faults := ps.2 in
  if xc_size c =? 0 then
    (* reset cache id *)
    (processors,
     {| cache_array := cache_array s; cache_index := cache_index s;
        cache_last_id := UINT32_MAX |},
     faults)
  else
    let id := derive_cache_id apic (xc_apic_bits c) in
    let processors' :=
      store arr_processors (Processor.set_cache level (cache_index s)) i
        processors in
    if id =? cache_last_id s then
      (* another processor sharing the same cache *)
      let arr := store (arr_cache level) Cache.add_processor (cache_index s)
                   (cache_array s) in
      (processors'.1,
       {| cache_array := arr.1; cache_index := cache_index s;
          cache_last_id := cache_last_id s |},
       faults ++ processors'.2 ++ arr.2)
    else
      (* new cache *)
      let index' := wrap32 (cache_index s + 1) in
      let arr := store (arr_cache level) (fun _ => new_cache i c) index'
                   (cache_array s) in
      (processors'.1,
       {| cache_array := arr.1; cache_index := index'; cache_last_id := id |},
       faults ++ processors'.2 ++ arr.2).

Record build_state := {
  b_processors : list Processor.t;
  b_topology : topology_state;
  b_linux_cpu_to_processor_map : list (option Z);
  b_linux_cpu_to_core_map : list (option Z);
  b_l1i : cache_state;
  b_l1d : cache_state;
  b_l2 : cache_state;
  b_l3 : cache_state;
  b_l4 : cache_state;
  b_faults : list fault
}.

(** Body of the loop of init.c:269-470.  The L1I block is in the source
    twice (init.c:326-349 and 350-373), and so it is here. *)
Definition build_step (normalize : string -> string) (i : Z)
    (x : cpuinfo_x86_processor) (s : build_state) : build_state :=
  let apic := apic_id (x_topology x) in
  (* init.c:270-321 *)
  let topo := topology_step normalize i x (b_topology s) in
  let procs := store arr_processors (processor_topology x topo.1) i
                 (b_processors s) in
  (* init.c:323-324 *)
  let pmap := store arr_linux_cpu_to_processor_map (fun _ => Some i)
                (x_linux_id x) (b_linux_cpu_to_processor_map s) in
  let cmap := store arr_linux_cpu_to_core_map
                (fun _ => Some (core_index topo.1))
                (x_linux_id x) (b_linux_cpu_to_core_map s) in
  let faults := b_faults s ++ topo.2 ++ procs.2 ++ pmap.2 ++ cmap.2 in
  (* init.c:326-349, 350-373 *)
  let c1i := cache_step cpuinfo_cache_level_1i i apic (xl1i (x_cache x))
               (cache_step cpuinfo_cache_level_1i i apic (xl1i (x_cache x))
                  (procs.1, b_l1i s, faults)) in
  (* init.c:374-397 *)
  let c1d := cache_step cpuinfo_cache_level_1d i apic (xl1d (x_cache x))
               (c1i.1.1, b_l1d s, c1i.2) in
  (* init.c:398-421 *)
  let c2 := cache_step cpuinfo_cache_level_2 i apic (xl2 (x_cache x))
              (c1d.1.1, b_l2 s, c1d.2) in
  (* init.c:422-445 *)
  let c3 := cache_step cpuinfo_cache_level_3 i apic (xl3 (x_cache x))
              (c2.1.1, b_l3 s, c2.2) in
  (* init.c:446-469 *)
  let c4 := cache_step cpuinfo_cache_level_4 i apic (xl4 (x_cache x))
              (c3.1.1, b_l4 s, c3.2) in
  {| b_processors := c4.1.1;
     b_topology := topo.1;
     b_linux_cpu_to_processor_map := pmap.1;
     b_linux_cpu_to_core_map := cmap.1;
     b_l1i := c1i.1.2;
     b_l1d := c1d.1.2;
     b_l2 := c2.1.2;
     b_l3 := c3.1.2;
     b_l4 := c4.1.2;
     b_faults := c4.2 |}.

(** The loop of init.c:269-470 from iteration [i] on. *)
Fixpoint build_loop (normalize : string -> string) (i : Z)
    (xs : list cpuinfo_x86_processor) (s : build_state) : build_state :=
  match xs with
  | [] => s
  | x :: xs' => build_loop normalize (i + 1) xs' (build_step normalize i x s)
  end.

Definition cache_state_init (n : Z) : cache_state :=
  {| cache_array := calloc_elems n Cache.zero;
     cache_index := UINT32_MAX;
     cache_last_id := UINT32_MAX |}.

(** The arrays of init.c:177-262, every allocation having succeeded, and
    the loop variables of init.c:264-268.  A cache level whose count is
    zero is not allocated: its array has no elements. *)
Definition build_init (processors_count : Z) (n : object_counts) : build_state :=
  {| b_processors := calloc_elems processors_count Processor.zero;
     b_topology :=
       {| ts_cores := calloc_elems (cores_count n) Core.zero;
          ts_packages := calloc_elems (packages_count n) Package.zero;
          core_index := UINT32_MAX;
          package_index := UINT32_MAX;
          last_core_id := UINT32_MAX;
          last_package_id := UINT32_MAX |};
     b_linux_cpu_to_processor_map := calloc_elems processors_count None;
     b_linux_cpu_to_core_map := calloc_elems (cores_count n) None;
     b_l1i := cache_state_init (l1i_count n);
     b_l1d := cache_state_init (l1d_count n);
     b_l2 := cache_state_init (l2_count n);
     b_l3 := cache_state_init (l3_count n);
     b_l4 := cache_state_init (l4_count n);
     b_faults := [] |}.

(** Counting pass, allocations and build loop over the sorted
    descriptors (init.c:177-470 on the path where no allocation fails). *)
Definition build (normalize : string -> string)
    (xs : list cpuinfo_x86_processor) : build_state :=
  build_loop normalize 0 xs
    (build_init (Z.of_nat (length xs)) (cpuinfo_x86_count_objects xs)).

(** The cache bookkeeping of one level. *)
Definition b_cache (level : cpuinfo_cache_level) (s : build_state) : cache_state :=
  match level with
  | cpuinfo_cache_level_1i => b_l1i s
  | cpuinfo_cache_level_1d => b_l1d s
  | cpuinfo_cache_level_2 => b_l2 s
  | cpuinfo_cache_level_3 => b_l3 s
  | cpuinfo_cache_level_4 => b_l4 s
  end.

(** ** Platform, process state and the transaction *)

#[global] Instance cpuinfo_cache_level_eq_dec : EqDecision cpuinfo_cache_level.
Proof. solve_decision. Defined.

#[global] Instance array_id_eq_dec : EqDecision array_id.
Proof. solve_decision. Defined.

(** [cpu_set_t] of sched.h: one bit per logical processor, bits
    [0 .. CPU_SETSIZE-1]. *)
Definition CPU_SETSIZE : Z := 1024.
Definition cpu_set_t : Type := Z -> bool.
Definition CPU_ZERO : cpu_set_t := fun _ => false.
Definition CPU_SET (cpu : Z) (s : cpu_set_t) : cpu_set_t :=
  fun b => ((b =? cpu) && (0 <=? cpu) && (cpu <? CPU_SETSIZE)) || s b.
Definition CPU_AND (a b : cpu_set_t) : cpu_set_t := fun c => a c && b c.
Definition CPU_ISSET (cpu : Z) (s : cpu_set_t) : bool := s cpu.

(** The bits of a set in ascending order: what the scan of
    init.c:156-160 visits. *)
Definition cpu_bits (s : cpu_set_t) : list Z :=
  List.filter (fun b => CPU_ISSET b s) (seqZ 0 CPU_SETSIZE).
Definition CPU_COUNT (s : cpu_set_t) : Z := Z.of_nat (length (cpu_bits s)).

(** init.c:109-115 *)
Definition cpuinfo_x86_linux_cpulist_callback (cpulist_start cpulist_end : Z)
    (cpuset : cpu_set_t) : cpu_set_t :=
  fold_left (fun s cpu => CPU_SET cpu s)
    (seqZ cpulist_start (cpulist_end - cpulist_start)) cpuset.

(** [cpuinfo_linux_parse_cpulist] with the callback above: one call per
    range of the list. *)
Definition parse_cpulist (ranges : list (Z * Z)) (cpuset : cpu_set_t) : cpu_set_t :=
  fold_left (fun s r => cpuinfo_x86_linux_cpulist_callback r.1 r.2 s) ranges cpuset.

Inductive log_message :=
| err_getaffinity
| err_calloc (a : array_id)
| err_setaffinity (i bit : Z)
| warn_restore_affinity.

(** What the construction does to its environment, in order.  Debug
    messages are left out. *)
Inductive event :=
| ev_sched_getaffinity (ok : bool)
| ev_sched_setaffinity (mask : cpu_set_t) (ok : bool)
| ev_log (m : log_message).

(** Everything the construction obtains from outside: the results of
    the system calls and of each [calloc], the two cpulist files, and
    the collaborators [cpuinfo_x86_init_processor] and
    [cpuinfo_x86_normalize_brand_string]. *)
Record platform := {
  getaffinity_ok : bool;
  present : list (Z * Z);
  possible : list (Z * Z);
  pin_ok : Z -> bool;
  restore_ok : bool;
  calloc_ok : array_id -> bool;
  cpuinfo_x86_init_processor : Z -> cpuinfo_x86_processor;
  cpuinfo_x86_normalize_brand_string : string -> string
}.

(** An array behind a pointer: the heap block ([None] for NULL) and the
    elements. *)
Record array (A : Type) := {
  base : option nat;
  elems : list A
}.
Arguments base {A} _.
Arguments elems {A} _.

(** The process-wide state the commit step assigns (init.c:477-496). *)
Record published := {
  cpuinfo_linux_cpu_to_processor_map : array (option Z);
  cpuinfo_linux_cpu_to_core_map : array (option Z);
  cpuinfo_processors : array Processor.t;
  cpuinfo_cores : array Core.t;
  cpuinfo_packages : array Package.t;
  cpuinfo_cache : cpuinfo_cache_level -> array Cache.t;
  cpuinfo_processors_count : Z;
  cpuinfo_cores_count : Z;
  cpuinfo_packages_count : Z;
  cpuinfo_cache_count : cpuinfo_cache_level -> Z
}.

Record world := {
  affinity : cpu_set_t;
  live : gset nat;
  snapshot : published;
  trace : list event;
  faults : list fault
}.

(** The eleven local pointers of init.c:118-128, keyed by the array
    they point to, and the process state. *)
Record frame := {
  ptrs : array_id -> option nat;
  fr_world : world
}.

Definition add_events (evs : list event) (w : world) : world :=
  {| affinity := affinity w; live := live w; snapshot := snapshot w;
     trace := trace w ++ evs; faults := faults w |}.

Definition set_affinity (mask : cpu_set_t) (w : world) : world :=
  {| affinity := mask; live := live w; snapshot := snapshot w;
     trace := trace w; faults := faults w |}.

Definition set_live (l : gset nat) (w : world) : world :=
  {| affinity := affinity w; live := l; snapshot := snapshot w;
     trace := trace w; faults := faults w |}.

Definition set_snapshot (s : published) (w : world) : world :=
  {| affinity := affinity w; live := live w; snapshot := s;
     trace := trace w; faults := faults w |}.

Definition add_faults (fs : list fault) (w : world) : world :=
  {| affinity := affinity w; live := live w; snapshot := snapshot w;
     trace := trace w; faults := faults w ++ fs |}.

(** [free(p)]; [free(NULL)] does nothing. *)
Definition free (p : option nat) (w : world) : world :=
  match p with
  | Some b => set_live (live w ∖ {[b]}) w
  | None => w
  end.

(** Straight-line code that may jump to [cleanup]: [None] is the jump,
    taken with the frame as it is at that point. *)
Definition M (A : Type) : Type := frame -> option A * frame.

Definition ret {A} (a : A) : M A := fun fr => (Some a, fr).

Definition bind {A B} (m : M A) (k : A -> M B) : M B :=
  fun fr =>
    match m fr with
    | (Some a, fr') => k a fr'
    | (None, fr') => (None, fr')
    end.

Notation "'let*' x ':=' m 'in' k" := (bind m (fun x => k))
  (at level 10, x binder, m at level 100, k at level 200).

Definition on_world (f : world -> world) : M unit :=
  fun fr => (Some tt, {| ptrs := ptrs fr; fr_world := f (fr_world fr) |}).

(** [p = calloc(...); if (p == NULL) { cpuinfo_log_error(...); goto
    cleanup; }] for the local pointer of array [a]. *)
Definition calloc_or_cleanup (e : platform) (a : array_id) : M unit :=
  fun fr =>
    if calloc_ok e a then
      let b := fresh (live (fr_world fr)) in
      (Some tt,
       {| ptrs := <[a := Some b]> (ptrs fr);
          fr_world := set_live ({[b]} ∪ live (fr_world fr)) (fr_world fr) |})
    else
      (None,
       {| ptrs := ptrs fr;
          fr_world := add_events [ev_log (err_calloc a)] (fr_world fr) |}).

(** [if (count != 0) { p = calloc(count, ...); ... }] of init.c:223-262. *)
Definition calloc_cache (e : platform) (level : cpuinfo_cache_level) (n : Z)
  : M unit :=
  if n =? 0 then ret tt else calloc_or_cleanup e (arr_cache level).

(** init.c:161-168: pin the calling thread to one processor. *)
Definition pin (e : platform) (i processor_bit : Z) : M unit :=
  fun fr =>
    let processor_set := CPU_SET processor_bit CPU_ZERO in
    if pin_ok e processor_bit then
      (Some tt,
       {| ptrs := ptrs fr;
          fr_world :=
            set_affinity processor_set
              (add_events [ev_sched_setaffinity processor_set true]
                 (fr_world fr)) |})
    else
      (None,
       {| ptrs := ptrs fr;
          fr_world :=
            add_events [ev_sched_setaffinity processor_set false;
                        ev_log (err_setaffinity i processor_bit)]
              (fr_world fr) |}).

(** init.c:170-171 *)
Definition describe (e : platform) (processor_bit : Z) : cpuinfo_x86_processor :=
  let x := cpuinfo_x86_init_processor e processor_bit in
  {| x_cpuid := x_cpuid x; x_vendor := x_vendor x; x_uarch := x_uarch x;
     x_topology := x_topology x; x_cache := x_cache x;
     x_linux_id := processor_bit; x_brand_string := x_brand_string x |}.

(** The loop of init.c:156-172 over the bits still to visit. *)
Fixpoint collect (e : platform) (i : Z) (bits : list Z)
  : M (list cpuinfo_x86_processor) :=
  match bits with
  | [] => ret []
  | processor_bit :: bits' =>
      let* _ := pin e i processor_bit in
      let* xs := collect e (i + 1) bits' in
      ret (describe e processor_bit :: xs)
  end.

#[global] Instance apic_le_dec (a b : cpuinfo_x86_processor) : Decision (apic_le a b).
Proof. unfold apic_le. apply Z_le_dec. Defined.

(** [qsort] of init.c:174-175.  The C library leaves the order of equal
    keys open; a merge sort with the comparator is one admissible
    result. *)
Definition qsort (xs : list cpuinfo_x86_processor) : list cpuinfo_x86_processor :=
  merge_sort apic_le xs.

(** The set of logical processors to describe (init.c:136-146). *)
Definition processors_set (e : platform) : cpu_set_t :=
  CPU_AND (parse_cpulist (present e) CPU_ZERO)
          (parse_cpulist (possible e) CPU_ZERO).

(** The candidate snapshot: the local pointers with the contents the
    build loop gave their arrays, and the counts. *)
Definition candidate (p : array_id -> option nat) (processors_count : Z)
    (n : object_counts) (b : build_state) : published :=
  {| cpuinfo_linux_cpu_to_processor_map :=
       {| base := p arr_linux_cpu_to_processor_map;
          elems := b_linux_cpu_to_processor_map b |};
     cpuinfo_linux_cpu_to_core_map :=
       {| base := p arr_linux_cpu_to_core_map;
          elems := b_linux_cpu_to_core_map b |};
     cpuinfo_processors :=
       {| base := p arr_processors; elems := b_processors b |};
     cpuinfo_cores :=
       {| base := p arr_cores; elems := ts_cores (b_topology b) |};
     cpuinfo_packages :=
       {| base := p arr_packages; elems := ts_packages (b_topology b) |};
     cpuinfo_cache := fun level =>
       {| base := p (arr_cache level);
          elems := cache_array (b_cache level b) |};
     cpuinfo_processors_count := processors_count;
     cpuinfo_cores_count := cores_count n;
     cpuinfo_packages_count := packages_count n;
     cpuinfo_cache_count := fun level =>
       match level with
       | cpuinfo_cache_level_1i => l1i_count n
       | cpuinfo_cache_level_1d => l1d_count n
       | cpuinfo_cache_level_2 => l2_count n
       | cpuinfo_cache_level_3 => l3_count n
       | cpuinfo_cache_level_4 => l4_count n
       end |}.

(** init.c:476-503: assign the process-wide state, then clear every
    local pointer that was handed over ([x86_processors] is not). *)
Definition commit (processors_count : Z) (n : object_counts) (b : build_state)
  : M unit :=
  fun fr =>
    (Some tt,
     {| ptrs := fun a =>
          match a with
          | arr_x86_processors => ptrs fr arr_x86_processors
          | _ => None
          end;
        fr_world :=
          set_snapshot (candidate (ptrs fr) processors_count n b) (fr_world fr) |}).

(** init.c:136-503, entered with the original affinity already read. *)
Definition init_body (e : platform) : M unit :=
  let bits := cpu_bits (processors_set e) in
  let processors_count := CPU_COUNT (processors_set e) in
  let* _ := calloc_or_cleanup e arr_x86_processors in
  let* collected := collect e 0 bits in
  let x86_processors := qsort collected in
  let* _ := calloc_or_cleanup e arr_processors in
  let n := cpuinfo_x86_count_objects x86_processors in
  let* _ := calloc_or_cleanup e arr_linux_cpu_to_processor_map in
  let* _ := calloc_or_cleanup e arr_linux_cpu_to_core_map in
  let* _ := calloc_or_cleanup e arr_cores in
  let* _ := calloc_or_cleanup e arr_packages in
  let* _ := calloc_cache e cpuinfo_cache_level_1i (l1i_count n) in
  let* _ := calloc_cache e cpuinfo_cache_level_1d (l1d_count n) in
  let* _ := calloc_cache e cpuinfo_cache_level_2 (l2_count n) in
  let* _ := calloc_cache e cpuinfo_cache_level_3 (l3_count n) in
  let* _ := calloc_cache e cpuinfo_cache_level_4 (l4_count n) in
  let b := build (cpuinfo_x86_normalize_brand_string e) x86_processors in
  let* _ := on_world (add_faults (b_faults b)) in
  commit processors_count n b.

(** The local pointers in the order init.c:511-521 frees them. *)
Definition freed_in_order : list array_id :=
  [arr_linux_cpu_to_processor_map; arr_linux_cpu_to_core_map;
   arr_x86_processors; arr_processors; arr_cores; arr_packages;
   arr_cache cpuinfo_cache_level_1i; arr_cache cpuinfo_cache_level_1d;
   arr_cache cpuinfo_cache_level_2; arr_cache cpuinfo_cache_level_3;
   arr_cache cpuinfo_cache_level_4].

(** init.c:505-509 *)
Definition restore_affinity (e : platform) (old_affinity : cpu_set_t)
    (w : world) : world :=
  if restore_ok e then
    set_affinity old_affinity
      (add_events [ev_sched_setaffinity old_affinity true] w)
  else
    add_events [ev_sched_setaffinity old_affinity false;
                ev_log warn_restore_affinity] w.

(** init.c:505-521 *)
Definition cleanup (e : platform) (old_affinity : cpu_set_t) (fr : frame)
  : world :=
  fold_left (fun w a => free (ptrs fr a) w) freed_in_order
    (restore_affinity e old_affinity (fr_world fr)).

(** init.c:117-522.  The function returns nothing; its effect is the
    process state it leaves. *)
Definition cpuinfo_x86_linux_init (e : platform) (w : world) : world :=
  if getaffinity_ok e then
    let old_affinity := affinity w in
    let w0 := add_events [ev_sched_getaffinity true] w in
    cleanup e old_affinity
      (init_body e {| ptrs := fun _ => None; fr_world := w0 |}).2
  else
    add_events [ev_sched_getaffinity false; ev_log err_getaffinity] w.

(** The descriptors as the build loop receives them. *)
Definition sorted_descriptors (e : platform) : list cpuinfo_x86_processor :=
  qsort (map (describe e) (cpu_bits (processors_set e))).

(** Every fallible step of one run succeeds: the affinity is read,
    every processor is pinned, and every [calloc] that is reached
    returns memory. *)
Definition all_steps_succeed (e : platform) : bool :=
  let n := cpuinfo_x86_count_objects (sorted_descriptors e) in
  getaffinity_ok e
  && calloc_ok e arr_x86_processors
  && forallb (pin_ok e) (cpu_bits (processors_set e))
  && calloc_ok e arr_processors
  && calloc_ok e arr_linux_cpu_to_processor_map
  && calloc_ok e arr_linux_cpu_to_core_map
  && calloc_ok e arr_cores
  && calloc_ok e arr_packages
  && ((l1i_count n =? 0) || calloc_ok e (arr_cache cpuinfo_cache_level_1i))
  && ((l1d_count n =? 0) || calloc_ok e (arr_cache cpuinfo_cache_level_1d))
  && ((l2_count n =? 0) || calloc_ok e (arr_cache cpuinfo_cache_level_2))
  && ((l3_count n =? 0) || calloc_ok e (arr_cache cpuinfo_cache_level_3))
  && ((l4_count n =? 0) || calloc_ok e (arr_cache cpuinfo_cache_level_4)).

(** ** Vocabulary of the properties *)

(** The core-grouping ids of a descriptor array, in array order. *)
Definition core_ids (xs : list cpuinfo_x86_processor) : list Z :=
  map core_id_of xs.

(** Equal ids occupy one contiguous run: between two positions that
    hold the same id, every position holds it. *)
Definition contiguous_runs (ids : list Z) : Prop :=
  forall (i j k : nat) (a : Z),
    (i <= j <= k)%nat -> ids !! i = Some a -> ids !! k = Some a ->
    ids !! j = Some a.

(** The number of distinct ids in a list. *)
Definition distinct_count (ids : list Z) : Z :=
  Z.of_nat (length (remove_dups ids)).

(** A descriptor of the identifier format of the data model: a 32-bit
    identifier with the thread field in its low [len] bits. *)
Definition low_thread_field (len : Z) (x : cpuinfo_x86_processor) : Prop :=
  is_uint32 (apic_id (x_topology x))
  /\ thread_bits_offset (x_topology x) = 0
  /\ thread_bits_length (x_topology x) = len.

(** The first descriptor, if there is one, does not have the sentinel
    the counting pass starts from as its core-grouping id. *)
Definition first_core_id_regular (xs : list cpuinfo_x86_processor) : Prop :=
  forall x, head xs = Some x -> core_id_of x <> UINT32_MAX.

(** The transitions a tracker counts over a list of ids. *)
Definition count_keys (ids : list Z) (t : tracker) : tracker :=
  fold_left (fun t id => count_key id t) ids t.

(** ** Sample descriptors *)

(** A raw cache of [size] bytes shared by the processors that agree on
    all but the low [bits] identifier bits; [size = 0] is an absent
    level. *)
Definition raw_cache (size bits : Z) : cpuinfo_x86_cache :=
  {| xc_size := size; xc_associativity := 8; xc_sets := 64;
     xc_partitions := 1; xc_line_size := 64; xc_flags := 0;
     xc_apic_bits := bits |}.

Definition no_caches : cpuinfo_x86_caches :=
  {| xl1i := raw_cache 0 0; xl1d := raw_cache 0 0; xl2 := raw_cache 0 0;
     xl3 := raw_cache 0 0; xl4 := raw_cache 0 0 |}.

(** The same raw cache at every level. *)
Definition caches_all (c : cpuinfo_x86_cache) : cpuinfo_x86_caches :=
  {| xl1i := c; xl1d := c; xl2 := c; xl3 := c; xl4 := c |}.

(** Identifier layout [package | core | thread]. *)
Definition layout (apic thread_offset thread_length core_offset core_length : Z)
  : cpuinfo_x86_topology :=
  {| apic_id := apic;
     thread_bits_offset := thread_offset; thread_bits_length := thread_length;
     core_bits_offset := core_offset; core_bits_length := core_length |}.

Definition descriptor (linux : Z) (t : cpuinfo_x86_topology)
    (c : cpuinfo_x86_caches) : cpuinfo_x86_processor :=
  {| x_cpuid := 0; x_vendor := 0; x_uarch := 0; x_topology := t;
     x_cache := c; x_linux_id := linux; x_brand_string := EmptyString |}.

(** Identifiers 0..3, one thread bit at bit 0, one core bit at bit 1. *)
Definition two_cores_two_threads : list cpuinfo_x86_topology :=
  [layout 0 0 1 1 1; layout 1 0 1 1 1; layout 2 0 1 1 1; layout 3 0 1 1 1].

(** Identifiers 0, 1, 2, each with its thread field in the low bits,
    of lengths 1, 0 and 2. *)
Definition mixed_thread_lengths : list cpuinfo_x86_processor :=
  [descriptor 0 (layout 0 0 1 1 1) no_caches;
   descriptor 1 (layout 1 0 0 0 1) no_caches;
   descriptor 2 (layout 2 0 2 2 1) no_caches].

(** One processor whose identifier is 0xFFFFFFFF, with an empty thread
    field. *)
Definition all_ones_identifier : list cpuinfo_x86_processor :=
  [descriptor 0 (layout UINT32_MAX 0 0 0 0) no_caches].

(** Identifiers 0xFFFFFFFE and 0xFFFFFFFF, the two threads of one core. *)
Definition top_identifiers : list cpuinfo_x86_processor :=
  [descriptor 0 (layout (UINT32_MAX - 1) 0 1 1 1) no_caches;
   descriptor 1 (layout UINT32_MAX 0 1 1 1) no_caches].

(** Identifiers 4, 5, 6 of one package; the first and the third report
    a cache with sharing id 4 at every level, the second reports none. *)
Definition cache_gap : list cpuinfo_x86_processor :=
  [descriptor 0 (layout 4 0 1 1 2) (caches_all (raw_cache 32768 2));
   descriptor 1 (layout 5 0 1 1 2) no_caches;
   descriptor 2 (layout 6 0 1 1 2) (caches_all (raw_cache 32768 2))].

(** One logical processor with a 32 KiB cache of its own at every
    level. *)
Definition single_processor : list cpuinfo_x86_processor :=
  [descriptor 0 (layout 0 0 0 0 0) (caches_all (raw_cache 32768 0))].

(** Two hardware threads of one core, OS ids 0 and 1, no caches
    reported. *)
Definition one_core_two_threads : list cpuinfo_x86_processor :=
  [descriptor 0 (layout 0 0 1 1 1) no_caches;
   descriptor 1 (layout 1 0 1 1 1) no_caches].

(** Two single-threaded cores whose OS ids are 0 and 2 (processor 1 is
    not present). *)
Definition sparse_linux_ids : list cpuinfo_x86_processor :=
  [descriptor 0 (layout 0 0 0 0 1) no_caches;
   descriptor 2 (layout 1 0 0 0 1) no_caches].

(** The processor range of a cache record. *)
Definition cache_range (c : Cache.t) : Z * Z :=
  (Cache.processor_start c, Cache.processor_count c).

Definition cache_levels : list cpuinfo_cache_level :=
  [cpuinfo_cache_level_1i; cpuinfo_cache_level_1d; cpuinfo_cache_level_2;
   cpuinfo_cache_level_3; cpuinfo_cache_level_4].

(** The count of one cache level. *)
Definition cache_count (level : cpuinfo_cache_level) (n : object_counts) : Z :=
  match level with
  | cpuinfo_cache_level_1i => l1i_count n
  | cpuinfo_cache_level_1d => l1d_count n
  | cpuinfo_cache_level_2 => l2_count n
  | cpuinfo_cache_level_3 => l3_count n
  | cpuinfo_cache_level_4 => l4_count n
  end.

(** ** Vocabulary of the transaction *)

(** The heap blocks the local pointers hold. *)
Definition owned (p : array_id -> option nat) : gset nat :=
  list_to_set (omap p freed_in_order).

(** The heap blocks behind a snapshot's ten arrays. *)
Definition published_blocks (s : published) : gset nat :=
  list_to_set
    (omap id
       ([base (cpuinfo_linux_cpu_to_processor_map s);
         base (cpuinfo_linux_cpu_to_core_map s);
         base (cpuinfo_processors s);
         base (cpuinfo_cores s);
         base (cpuinfo_packages s)]
        ++ map (fun level => base (cpuinfo_cache s level)) cache_levels)).

(** The cache array of a level is allocated when its count is not 0. *)
Definition cache_allocated (level : cpuinfo_cache_level) (n : Z) : list array_id :=
  if n =? 0 then [] else [arr_cache level].

(** The arrays a run in which every step succeeds has allocated when it
    reaches the commit step. *)
Definition allocated (n : object_counts) : list array_id :=
  cache_allocated cpuinfo_cache_level_4 (l4_count n)
  ++ cache_allocated cpuinfo_cache_level_3 (l3_count n)
  ++ cache_allocated cpuinfo_cache_level_2 (l2_count n)
  ++ cache_allocated cpuinfo_cache_level_1d (l1d_count n)
  ++ cache_allocated cpuinfo_cache_level_1i (l1i_count n)
  ++ [arr_packages; arr_cores; arr_linux_cpu_to_core_map;
      arr_linux_cpu_to_processor_map; arr_processors; arr_x86_processors].

(** The state of an attempt that has not committed: the snapshot is the
    one of [w0]; the live blocks are those of [w0] and, apart from
    them, exactly the blocks the local pointers hold; the pointers that
    are set are those of [done], and no two of them hold the same
    block. *)
Definition uncommitted (w0 : world) (done : list array_id) (fr : frame) : Prop :=
  snapshot (fr_world fr) = snapshot w0
  /\ live (fr_world fr) = live w0 ∪ owned (ptrs fr)
  /\ owned (ptrs fr) ## live w0
  /\ (forall a, is_Some (ptrs fr a) <-> a ∈ done)
  /\ (forall a a' b, ptrs fr a = Some b -> ptrs fr a' = Some b -> a = a').

(** The result of a step as a predicate on its outcome. *)
Definition wp {A} (m : M A) (fr : frame) (Q : option A * frame -> Prop) : Prop :=
  Q (m fr).

(** The same platform with another result for the restoring
    [sched_setaffinity] of init.c:506. *)
Definition with_restore (ok : bool) (e : platform) : platform :=
  {| getaffinity_ok := getaffinity_ok e;
     present := present e;
     possible := possible e;
     pin_ok := pin_ok e;
     restore_ok := ok;
     calloc_ok := calloc_ok e;
     cpuinfo_x86_init_processor := cpuinfo_x86_init_processor e;
     cpuinfo_x86_normalize_brand_string := cpuinfo_x86_normalize_brand_string e |}.

(** The events of the restoring call: the call itself and, when it
    fails, the warning. *)
Definition restore_events (old_affinity : cpu_set_t) (ok : bool) : list event :=
  ev_sched_setaffinity old_affinity ok
  :: (if ok then [] else [ev_log warn_restore_affinity]).

(** ** Sample platforms *)

Definition null_array {A} : array A := {| base := None; elems := [] |}.

(** The process state before the first call: nothing published, one
    unrelated block on the heap. *)
Definition world_uninitialized : world :=
  {| affinity := fun _ => true;
     live := {[ 7%nat ]};
     snapshot :=
       {| cpuinfo_linux_cpu_to_processor_map := null_array;
          cpuinfo_linux_cpu_to_core_map := null_array;
          cpuinfo_processors := null_array;
          cpuinfo_cores := null_array;
          cpuinfo_packages := null_array;
          cpuinfo_cache := fun _ => null_array;
          cpuinfo_processors_count := 0;
          cpuinfo_cores_count := 0;
          cpuinfo_packages_count := 0;
          cpuinfo_cache_count := fun _ => 0 |};
     trace := [];
     faults := [] |}.

(** Processors 0 and 1, each a core of its own with an L1 data cache;
    every call succeeds except the [calloc] calls that [ok] refuses. *)
Definition platform_two_cores (ok : array_id -> bool) (restore : bool) : platform :=
  {| getaffinity_ok := true;
     present := [(0, 2)];
     possible := [(0, 4)];
     pin_ok := fun _ => true;
     restore_ok := restore;
     calloc_ok := ok;
     cpuinfo_x86_init_processor := fun bit =>
       descriptor bit (layout bit 0 0 0 1)
         {| xl1i := raw_cache 0 0; xl1d := raw_cache 32768 0;
            xl2 := raw_cache 0 0; xl3 := raw_cache 0 0;
            xl4 := raw_cache 0 0 |};
     cpuinfo_x86_normalize_brand_string := fun s => s |}.

(** ** Vocabulary of the further properties *)

(** The SMT index of init.c:286-287:
    [(apic_id >> thread_bits_offset) & bit_mask(thread_bits_length)].
    C leaves the shift undefined for an offset of 32 or more, where the
    embedding gives 0; what is stated about the SMT index is stated for
    offsets in 0..31. *)
Definition smt_id_of (x : cpuinfo_x86_processor) : Z :=
  Z.land (Z.shiftr (apic_id (x_topology x)) (thread_bits_offset (x_topology x)))
    (bit_mask (thread_bits_length (x_topology x))).

(** Bit [k] lies in the field of [len] bits that starts at bit [off]. *)
Definition in_field (off len k : Z) : bool := (off <=? k) && (k <? off + len).

(** A processor lies in the range [cpulist_start, cpulist_end). *)
Definition in_range (cpulist_start cpulist_end cpu : Z) : bool :=
  (cpulist_start <=? cpu) && (cpu <? cpulist_end).

(** Ranges [(start, count)] that follow one another without gap or
    overlap from [from] up to [to], none of them empty. *)
Fixpoint partitions (ranges : list (Z * Z)) (from to : Z) : Prop :=
  match ranges with
  | [] => from = to
  | (start, n) :: ranges' =>
      start = from /\ 0 < n /\ partitions ranges' (from + n) to
  end.

Definition core_range (c : Core.t) : Z * Z :=
  (Core.processor_start c, Core.processor_count c).

Definition package_range (p : Package.t) : Z * Z :=
  (Package.processor_start p, Package.processor_count p).

Definition package_cores (p : Package.t) : Z * Z :=
  (Package.core_start p, Package.core_count p).

(** The first descriptor, if there is one, has neither a core-grouping
    id nor a package-grouping id equal to the sentinel the loops start
    from. *)
Definition first_ids_regular (xs : list cpuinfo_x86_processor) : Prop :=
  forall x, head xs = Some x ->
    core_id_of x <> UINT32_MAX /\ package_id_of x <> UINT32_MAX.

(** The arrays the core and package part of the loop and the processor
    stores write to. *)
Definition topology_array (a : array_id) : bool :=
  match a with
  | arr_processors | arr_cores | arr_packages => true
  | _ => false
  end.

(** The counting state after a prefix of the descriptors. *)
Definition counted (pre : list cpuinfo_x86_processor) : count_state :=
  fold_left count_step pre count_state_init.

(** An array of records grouped by adjacency, after [i] processors: the
    records up to the one at [index] are in use, their ranges follow one
    another from 0 to [i], and [index] and [last] are in step with the
    tracker [t] of the counting pass. *)
Definition group_inv {A} (range : A -> Z * Z) (arr : list A)
    (index last : Z) (t : tracker) (i : Z) : Prop :=
  exists done cur rest,
    arr = done ++ cur :: rest
    /\ index = Z.of_nat (length done)
    /\ count t = index + 1
    /\ last = last_id t
    /\ partitions (map range (done ++ [cur])) 0 i.

(** The state of the core and package part of the build loop after the
    prefix [pre] of the descriptors [xs]. *)
Definition topology_inv (xs pre : list cpuinfo_x86_processor)
    (t : topology_state) : Prop :=
  let n := cpuinfo_x86_count_objects xs in
  length (ts_cores t) = Z.to_nat (cores_count n)
  /\ length (ts_packages t) = Z.to_nat (packages_count n)
  /\ match pre with
     | [] => t = b_topology (build_init (Z.of_nat (length xs)) n)
     | _ :: _ =>
         group_inv core_range (ts_cores t) (core_index t) (last_core_id t)
           (cs_core (counted pre)) (Z.of_nat (length pre))
         /\ group_inv package_range (ts_packages t) (package_index t)
              (last_package_id t) (cs_package (counted pre))
              (Z.of_nat (length pre))
     end.

(** The fields of a processor record that init.c:287-291 assigns. *)
Definition processor_ids (p : Processor.t)
  : Z * option Z * option Z * Z * Z :=
  (Processor.smt_id p, Processor.core p, Processor.package p,
   Processor.linux_id p, Processor.apic_id p).

(** Processor [j] lies in the range [(start, count)]. *)
Definition in_processor_range (r : Z * Z) (j : Z) : Prop :=
  r.1 <= j < r.1 + r.2.

(** The reference [ref] taken for processor [j] points to a record of
    [arr] that is in use (not beyond [index]) and whose range holds
    [j]. *)
Definition ref_ok {A} (range : A -> Z * Z) (arr : list A) (index : Z)
    (ref : option Z) (j : Z) : Prop :=
  exists k c,
    ref = Some (Z.of_nat k)
    /\ Z.of_nat k <= index
    /\ arr !! k = Some c
    /\ in_processor_range (range c) j.

(** The tracker of one cache level in the counting state. *)
Definition cs_cache (level : cpuinfo_cache_level) (s : count_state) : tracker :=
  match level with
  | cpuinfo_cache_level_1i => cs_l1i s
  | cpuinfo_cache_level_1d => cs_l1d s
  | cpuinfo_cache_level_2 => cs_l2 s
  | cpuinfo_cache_level_3 => cs_l3 s
  | cpuinfo_cache_level_4 => cs_l4 s
  end.

(** The cache-sharing id of a descriptor at one level. *)
Definition cache_id_of (level : cpuinfo_cache_level)
    (x : cpuinfo_x86_processor) : Z :=
  derive_cache_id (apic_id (x_topology x))
    (xc_apic_bits (x_cache_level level x)).

(** Every descriptor reports the cache level, and the first one does
    not have the sentinel as its sharing id. *)
Definition level_present (level : cpuinfo_cache_level)
    (xs : list cpuinfo_x86_processor) : Prop :=
  Forall (fun x => xc_size (x_cache_level level x) <> 0) xs
  /\ forall x, head xs = Some x -> cache_id_of level x <> UINT32_MAX.

(** The state of one cache level of the build loop after the prefix
    [pre] of the descriptors [xs]. *)
Definition cache_inv (level : cpuinfo_cache_level)
    (xs pre : list cpuinfo_x86_processor) (cs : cache_state) : Prop :=
  let n := cache_count level (cpuinfo_x86_count_objects xs) in
  length (cache_array cs) = Z.to_nat n
  /\ match pre with
     | [] => cs = cache_state_init n
     | _ :: _ =>
         group_inv cache_range (cache_array cs) (cache_index cs)
           (cache_last_id cs) (cs_cache level (counted pre))
           (Z.of_nat (length pre))
     end.

(** The reference [ref] points to a record of [arr] that is in use and
    satisfies [Q]. *)
Definition ref_holds {A} (Q : A -> Prop) (arr : list A) (index : Z)
    (ref : option Z) : Prop :=
  exists k c,
    ref = Some (Z.of_nat k) /\ Z.of_nat k <= index
    /\ arr !! k = Some c /\ Q c.

(** The number of records in use when the last one is at [index]: the
    index starts at [UINT32_MAX], so that the first increment gives 0. *)
Definition in_use (index : Z) : Z := wrap32 (index + 1).

(** Core record [k] describes the first processor of its range: it has
    the core-grouping id, vendor, microarchitecture and CPUID of that
    processor's descriptor and the package reference of that processor,
    whose core reference is [k]. *)
Definition core_described (xs : list cpuinfo_x86_processor)
    (procs : list Processor.t) (k : nat) (c : Core.t) : Prop :=
  exists x p,
    xs !! Z.to_nat (Core.processor_start c) = Some x
    /\ procs !! Z.to_nat (Core.processor_start c) = Some p
    /\ Core.core_id c = core_id_of x
    /\ Core.vendor c = x_vendor x
    /\ Core.uarch c = x_uarch x
    /\ Core.cpuid c = x_cpuid x
    /\ Core.package c = Processor.package p
    /\ Processor.core p = Some (Z.of_nat k).

(** Package record [k] describes the first processor of its range: its
    name is the normalized brand string of that processor's descriptor,
    its first core is the core of that processor, and the package
    reference of that processor is [k]. *)
Definition package_described (normalize : string -> string)
    (xs : list cpuinfo_x86_processor) (procs : list Processor.t)
    (k : nat) (pk : Package.t) : Prop :=
  exists x p,
    xs !! Z.to_nat (Package.processor_start pk) = Some x
    /\ procs !! Z.to_nat (Package.processor_start pk) = Some p
    /\ Package.name pk = normalize (x_brand_string x)
    /\ Processor.core p = Some (Package.core_start pk)
    /\ Processor.package p = Some (Z.of_nat k).

(** Consecutive descriptors with the same core-grouping id have the
    same package-grouping id, as when all descriptors report one layout
    of the identifier. *)
Fixpoint cores_nest_in_packages (xs : list cpuinfo_x86_processor) : Prop :=
  match xs with
  | [] => True
  | y :: xs' =>
      (forall x, head xs' = Some x ->
         core_id_of x = core_id_of y -> package_id_of x = package_id_of y)
      /\ cores_nest_in_packages xs'
  end.

(** The grouping ids the loop compares against are those of the
    descriptor processed last, or the sentinel before the first. *)
Definition last_ids (pre : list cpuinfo_x86_processor) (t : topology_state)
  : Prop :=
  match last pre with
  | None => last_core_id t = UINT32_MAX /\ last_package_id t = UINT32_MAX
  | Some y =>
      last_core_id t = core_id_of y /\ last_package_id t = package_id_of y
  end.

(** The package records in use have core ranges that follow one another
    from core 0 to the last core in use; the records not yet in use
    still have the core count [calloc] gave them. *)
Definition core_ranges_inv (t : topology_state) : Prop :=
  exists used rest,
    ts_packages t = used ++ rest
    /\ Z.of_nat (length used) = in_use (package_index t)
    /\ partitions (map package_cores used) 0 (in_use (core_index t))
    /\ Forall (fun pk => Package.core_count pk = 0) rest.

(** The parameters of a cache record, and of a raw cache description. *)
Definition cache_parameters (c : Cache.t) : Z * Z * Z * Z * Z * Z :=
  (Cache.size c, Cache.associativity c, Cache.sets c, Cache.partitions c,
   Cache.line_size c, Cache.flags c).

Definition raw_parameters (c : cpuinfo_x86_cache) : Z * Z * Z * Z * Z * Z :=
  (xc_size c, xc_associativity c, xc_sets c, xc_partitions c,
   xc_line_size c, xc_flags c).

(** A cache record has the parameters that the descriptor of the first
    processor of its range reports for the level. *)
Definition cache_described (level : cpuinfo_cache_level)
    (xs : list cpuinfo_x86_processor) (c : Cache.t) : Prop :=
  exists x,
    xs !! Z.to_nat (Cache.processor_start c) = Some x
    /\ cache_parameters c = raw_parameters (x_cache_level level x).

(** A processor lies in one of the ranges of a cpulist. *)
Definition in_cpulist (ranges : list (Z * Z)) (cpu : Z) : bool :=
  existsb (fun r => in_range r.1 r.2 cpu) ranges.

(** The event of a successful pinning call for one processor. *)
Definition pinned (processor_bit : Z) : event :=
  ev_sched_setaffinity (CPU_SET processor_bit CPU_ZERO) true.

(** The same platform with other results for the pinning calls of
    init.c:164. *)
Definition with_pin (ok : Z -> bool) (e : platform) : platform :=
  {| getaffinity_ok := getaffinity_ok e;
     present := present e;
     possible := possible e;
     pin_ok := ok;
     restore_ok := restore_ok e;
     calloc_ok := calloc_ok e;
     cpuinfo_x86_init_processor := cpuinfo_x86_init_processor e;
     cpuinfo_x86_normalize_brand_string := cpuinfo_x86_normalize_brand_string e |}.

(** The published counts are the sizes of the published arrays. *)
Definition counts_match_arrays (s : published) : Prop :=
  Z.of_nat (length (elems (cpuinfo_processors s))) = cpuinfo_processors_count s
  /\ Z.of_nat (length (elems (cpuinfo_cores s))) = cpuinfo_cores_count s
  /\ Z.of_nat (length (elems (cpuinfo_packages s))) = cpuinfo_packages_count s.

(** The published cores, and the published packages, divide the
    published processors among them. *)
Definition topology_partitions (s : published) : Prop :=
  partitions (map core_range (elems (cpuinfo_cores s)))
    0 (cpuinfo_processors_count s)
  /\ partitions (map package_range (elems (cpuinfo_packages s)))
       0 (cpuinfo_processors_count s).

(** An event is a system call, not a log message. *)
Definition is_call (ev : event) : Prop :=
  match ev with
  | ev_log _ => False
  | _ => True
  end.

(** A message is an error, not the warning of init.c:507. *)
Definition is_error (m : log_message) : Prop :=
  match m with
  | warn_restore_affinity => False
  | _ => True
  end.

(** A step that, when it jumps to [cleanup], has made system calls and
    then logged exactly one error, and otherwise has made system calls
    only. *)
Definition reports {A} (m : M A) : Prop :=
  forall fr,
    exists calls, Forall is_call calls
      /\ match (m fr).1 with
         | Some _ =>
             trace (fr_world (m fr).2) = trace (fr_world fr) ++ calls
         | None =>
             exists msg, is_error msg
               /\ trace (fr_world (m fr).2)
                  = trace (fr_world fr) ++ calls ++ [ev_log msg]
         end.

(** A shift count for which C defines the shift of a 32-bit value. *)
Definition shift_count (n : Z) : bool := (0 <=? n) && (n <=? 31).

(** A descriptor for which every shift the two passes perform is
    defined: a 32-bit identifier, field offsets and lengths in 0..31,
    and for every cache level that is present a number of shared bits
    in 0..31. *)
Definition descriptor_in_range (x : cpuinfo_x86_processor) : bool :=
  (0 <=? apic_id (x_topology x)) && (apic_id (x_topology x) <=? UINT32_MAX)
  && shift_count (thread_bits_offset (x_topology x))
  && shift_count (thread_bits_length (x_topology x))
  && shift_count (core_bits_offset (x_topology x))
  && shift_count (core_bits_length (x_topology x))
  && forallb (fun level =>
                (xc_size (x_cache_level level x) =? 0)
                || shift_count (xc_apic_bits (x_cache_level level x)))
       cache_levels.

(** A run of the build loop in which the embedding and the program
    agree: every shift is defined, and no store falls outside the array
    it addresses. *)
Definition run_defined (normalize : string -> string)
    (xs : list cpuinfo_x86_processor) : Prop :=
  forallb descriptor_in_range xs = true
  /\ b_faults (build normalize xs) = [].

(** A single-threaded core with identifier and OS id [a], of a package
    of two cores: L1 caches of its own, an L2 shared by the two cores
    of the package, an L3 shared by four cores, no L4.  Four of them,
    with identifiers 0..3, make two packages. *)
Definition single_threaded_core (a : Z) : cpuinfo_x86_processor :=
  descriptor a (layout a 0 0 0 1)
    {| xl1i := raw_cache 32768 0; xl1d := raw_cache 32768 0;
       xl2 := raw_cache 262144 1; xl3 := raw_cache 8388608 2;
       xl4 := raw_cache 0 0 |}.

Definition four_cores_two_packages : list cpuinfo_x86_processor :=
  map single_threaded_core [0; 1; 2; 3].

(** The platform of these four cores: processors 0..3 present and
    possible, every call succeeding. *)
Definition platform_four_cores : platform :=
  {| getaffinity_ok := true;
     present := [(0, 4)];
     possible := [(0, 8)];
     pin_ok := fun _ => true;
     restore_ok := true;
     calloc_ok := fun _ => true;
     cpuinfo_x86_init_processor := single_threaded_core;
     cpuinfo_x86_normalize_brand_string := fun s => s |}.

(** The fault of a store to a lookup table at an OS id. *)
Definition core_map_fault (x : cpuinfo_x86_processor) : fault :=
  {| fault_array := arr_linux_cpu_to_core_map; fault_index := x_linux_id x |}.

Definition processor_map_fault (x : cpuinfo_x86_processor) : fault :=
  {| fault_array := arr_linux_cpu_to_processor_map;
     fault_index := x_linux_id x |}.

(** * Properties *)

(** ** Identifier decomposition *)

Section Bits.

Lemma wrap32_small (z : Z) : is_uint32 z -> wrap32 z = z.
Proof. intros H. unfold wrap32. apply Z.mod_small. exact H. Qed.

Lemma wrap32_range (z : Z) : is_uint32 (wrap32 z).
Proof. unfold is_uint32, wrap32. apply Z.mod_pos_bound. lia. Qed.

Lemma shl32_1 (n : Z) : 0 <= n <= 31 -> shl32 1 n = 2 ^ n.
Proof.
  intros Hn. unfold shl32. rewrite Z.shiftl_1_l. apply wrap32_small.
  split; [apply Z.pow_nonneg; lia|].
  apply Z.pow_lt_mono_r; lia.
Qed.

Lemma bit_mask_pow2 (n : Z) : 0 <= n <= 31 -> bit_mask n = 2 ^ n - 1.
Proof.
  intros Hn. unfold bit_mask. rewrite shl32_1 by exact Hn.
  apply wrap32_small. unfold is_uint32.
  assert (0 < 2 ^ n) by (apply Z.pow_pos_nonneg; lia).
  assert (2 ^ n < 2 ^ 32) by (apply Z.pow_lt_mono_r; lia).
  lia.
Qed.

Lemma bit_mask_ones (n : Z) : 0 <= n <= 31 -> bit_mask n = Z.ones n.
Proof. intros Hn. rewrite bit_mask_pow2 by exact Hn. rewrite Z.ones_equiv. lia. Qed.

Lemma shl32_0_r (x : Z) : is_uint32 x -> shl32 x 0 = x.
Proof. intros Hx. unfold shl32. rewrite Z.shiftl_0_r. apply wrap32_small, Hx. Qed.

Lemma shl32_0_l (n : Z) : shl32 0 n = 0.
Proof. unfold shl32. rewrite Z.shiftl_0_l. reflexivity. Qed.

(** Masking with the complement of [m] keeps the bits of [a] that are
    not in [m]. *)
Lemma land_not32 (a m : Z) : is_uint32 a -> Z.land a (not32 m) = Z.ldiff a m.
Proof.
  intros Ha. unfold not32, wrap32.
  rewrite <- Z.land_ones by lia.
  rewrite Z.land_assoc, (Z.land_comm a), <- Z.land_assoc.
  rewrite (Z.land_ones a) by lia.
  rewrite (Z.mod_small a) by exact Ha.
  rewrite Z.land_comm. symmetry. apply Z.ldiff_land.
Qed.

Lemma derive_group_id_length_0 (id off : Z) :
  is_uint32 id -> derive_group_id id off 0 = id.
Proof.
  intros Hid. unfold derive_group_id.
  change (bit_mask 0) with 0. rewrite shl32_0_l.
  rewrite land_not32 by exact Hid. apply Z.ldiff_0_r.
Qed.

(** With the field in the low bits, clearing it rounds the identifier
    down to a multiple of [2 ^ len]. *)
Lemma derive_group_id_low (id len : Z) :
  is_uint32 id -> 0 <= len <= 31 ->
  derive_group_id id 0 len = id / 2 ^ len * 2 ^ len.
Proof.
  intros Hid Hlen. unfold derive_group_id.
  rewrite shl32_0_r by apply wrap32_range.
  rewrite land_not32 by exact Hid.
  rewrite bit_mask_ones by exact Hlen.
  rewrite Z.ldiff_ones_r by lia.
  rewrite Z.shiftl_mul_pow2, Z.shiftr_div_pow2 by lia. reflexivity.
Qed.

End Bits.

(** C8. For a field length [n] in 0..31 the mask helper returns
    [2^n - 1]; a field of length 0 gives the mask 0, and clearing a
    zero-length field at any offset leaves a 32-bit identifier as it
    is. *)
Theorem bit_mask_field_length (n id off : Z) :
  0 <= n <= 31 -> is_uint32 id ->
  bit_mask n = 2 ^ n - 1 /\ bit_mask 0 = 0 /\ derive_group_id id off 0 = id.
Proof.
  intros Hn Hid. split; [|split].
  - apply bit_mask_pow2, Hn.
  - reflexivity.
  - apply derive_group_id_length_0, Hid.
Qed.

Lemma bit_mask_field_length_witness :
  bit_mask 5 = 2 ^ 5 - 1 /\ bit_mask 0 = 0 /\ derive_group_id 1234 3 0 = 1234.
Proof.
  apply (bit_mask_field_length 5 1234 3); unfold is_uint32; lia.
Defined.

(** ** The counting pass over sorted descriptors *)

Section CountingPass.

Lemma count_step_core (xs : list cpuinfo_x86_processor) (s : count_state) :
  cs_core (fold_left count_step xs s) = count_keys (core_ids xs) (cs_core s).
Proof.
  revert s. induction xs as [|x xs IH]; intros s; [reflexivity|].
  cbn [fold_left core_ids map]. rewrite IH. reflexivity.
Qed.

Lemma cores_count_keys (xs : list cpuinfo_x86_processor) :
  cores_count (cpuinfo_x86_count_objects xs)
  = count (count_keys (core_ids xs) tracker_init).
Proof.
  unfold cpuinfo_x86_count_objects. cbn [cores_count].
  rewrite count_step_core. reflexivity.
Qed.

Lemma apic_le_le (a b : cpuinfo_x86_processor) :
  apic_le a b <-> apic_id (x_topology a) <= apic_id (x_topology b).
Proof.
  unfold apic_le, cmp_x86_processor_by_apic_id. cbv zeta.
  destruct (Z.ltb_spec (apic_id (x_topology a)) (apic_id (x_topology b)));
    [lia|].
  destruct (apic_id (x_topology a) >? apic_id (x_topology b)) eqn:E.
  - apply Z.gtb_lt in E. lia.
  - rewrite Z.gtb_ltb in E. apply Z.ltb_ge in E. lia.
Qed.

Lemma core_id_low (len : Z) (x : cpuinfo_x86_processor) :
  0 <= len <= 31 -> low_thread_field len x ->
  core_id_of x
  = apic_id (x_topology x) / 2 ^ len * 2 ^ len.
Proof.
  intros Hlen (Hid & Hoff & Hl). unfold core_id_of. rewrite Hoff, Hl.
  apply derive_group_id_low; [exact Hid|exact Hlen].
Qed.

Lemma core_ids_sorted (len : Z) (xs : list cpuinfo_x86_processor) :
  0 <= len <= 31 -> Forall (low_thread_field len) xs ->
  sorted_by_apic_id xs -> StronglySorted Z.le (core_ids xs).
Proof.
  intros Hlen Hall Hs. unfold sorted_by_apic_id in Hs.
  induction Hs as [|x xs Hs IH Hx]; [constructor|].
  apply Forall_cons in Hall as [Hx0 Hall].
  cbn [core_ids map]. constructor; [apply IH, Hall|].
  apply Forall_map. apply Forall_forall. intros y Hy.
  rewrite (core_id_low len x), (core_id_low len y); try assumption.
  - assert (0 < 2 ^ len) by (apply Z.pow_pos_nonneg; lia).
    apply Z.mul_le_mono_nonneg_r; [lia|].
    apply Z.div_le_mono; [lia|].
    apply apic_le_le. rewrite Forall_forall in Hx. apply Hx, Hy.
  - rewrite Forall_forall in Hall. apply Hall, Hy.
Qed.

(** In a sorted list equal elements are adjacent. *)
Lemma sorted_contiguous (ids : list Z) :
  StronglySorted Z.le ids -> contiguous_runs ids.
Proof.
  intros Hs i j k a Hijk Hi Hk.
  destruct (lookup_lt_is_Some_2 ids j) as [b Hb].
  { apply lookup_lt_Some in Hk. lia. }
  rewrite Hb. f_equal.
  assert (Hle : forall (p q : nat) (u v : Z),
             (p <= q)%nat -> ids !! p = Some u -> ids !! q = Some v -> u <= v).
  { clear -Hs. induction Hs as [|x l Hs IH Hx]; intros p q u v Hpq Hp Hq.
    - rewrite lookup_nil in Hp. discriminate.
    - destruct p as [|p], q as [|q]; cbn in Hp, Hq; try lia.
      + injection Hp as <-. injection Hq as <-. lia.
      + injection Hp as <-. rewrite Forall_forall in Hx.
        apply Hx. eapply list_elem_of_lookup_2, Hq.
      + eapply (IH p q); [lia|eassumption..]. }
  pose proof (Hle i j a b ltac:(lia) Hi Hb).
  pose proof (Hle j k b a ltac:(lia) Hb Hk). lia.
Qed.

Lemma remove_dups_cons_sorted (x : Z) (l : list Z) :
  StronglySorted Z.le (x :: l) ->
  length (remove_dups (x :: l))
  = match l with
    | [] => 1%nat
    | y :: _ => if decide (y = x) then length (remove_dups l)
                else S (length (remove_dups l))
    end.
Proof.
  intros Hs. apply StronglySorted_inv in Hs as [Hl Hx].
  destruct l as [|y l]; [reflexivity|].
  apply Forall_cons in Hx as [Hxy Hx].
  change (remove_dups (x :: y :: l))
    with (if decide_rel elem_of x (y :: l) then remove_dups (y :: l)
          else x :: remove_dups (y :: l)).
  destruct (decide_rel elem_of x (y :: l)) as [Hin|Hnin];
    destruct (decide (y = x)) as [->|Hne]; try reflexivity.
  - exfalso. apply StronglySorted_inv in Hl as [_ Hy].
    apply elem_of_cons in Hin as [->|Hin]; [congruence|].
    rewrite Forall_forall in Hy. specialize (Hy _ Hin). lia.
  - exfalso. apply Hnin. left.
Qed.

(** Once the tracker holds an element of the sorted sequence, every
    later transition is a new distinct id. *)
Lemma count_keys_sorted (ids : list Z) (last c : Z) :
  StronglySorted Z.le (last :: ids) ->
  0 <= c -> c + Z.of_nat (length ids) < 2 ^ 32 ->
  count (count_keys ids {| last_id := last; count := c |})
  = c + Z.of_nat (length (remove_dups (last :: ids))) - 1.
Proof.
  revert last c. induction ids as [|y ids IH]; intros last c Hs Hc Hlen.
  - change (remove_dups [last]) with [last]. cbn [length count_keys fold_left count]. lia.
  - rewrite remove_dups_cons_sorted by exact Hs.
    pose proof Hs as Hs'. apply StronglySorted_inv in Hs' as [Hs1 Hlast].
    cbn [count_keys fold_left]. unfold count_key at 2. cbn [last_id count].
    cbn [length] in Hlen.
    destruct (Z.eqb_spec y last) as [->|Hne].
    + rewrite decide_True by reflexivity.
      fold (count_keys ids {| last_id := last; count := c |}).
      rewrite IH; [lia| |lia|lia].
      constructor; [eapply StronglySorted_inv, Hs1|].
      apply Forall_cons in Hlast as [_ ?]. assumption.
    + rewrite decide_False by exact Hne.
      fold (count_keys ids {| last_id := y; count := wrap32 (c + 1) |}).
      rewrite wrap32_small by (unfold is_uint32; lia).
      rewrite IH; [lia|exact Hs1|lia|lia].
Qed.

Lemma count_keys_from_sentinel (ids : list Z) :
  StronglySorted Z.le ids ->
  (forall id, head ids = Some id -> id <> UINT32_MAX) ->
  Z.of_nat (length ids) < 2 ^ 32 ->
  count (count_keys ids tracker_init) = distinct_count ids.
Proof.
  intros Hs Hne Hlen. unfold distinct_count.
  destruct ids as [|y ids]; [reflexivity|].
  pose proof (Hne y eq_refl) as Hy.
  cbn [count_keys fold_left]. unfold count_key at 2, tracker_init.
  cbn [last_id count].
  destruct (Z.eqb_spec y UINT32_MAX) as [?|_]; [contradiction|].
  fold (count_keys ids {| last_id := y; count := wrap32 (0 + 1) |}).
  change (wrap32 (0 + 1)) with 1.
  cbn [length] in Hlen.
  rewrite count_keys_sorted; [lia|exact Hs|lia|lia].
Qed.

End CountingPass.

(** C6 (as amended). For a descriptor array sorted ascending by
    hierarchical identifier whose descriptors all carry the thread field
    in the low [len <= 31] bits of a 32-bit identifier, and whose first
    descriptor does not have the sentinel 0xFFFFFFFF as its
    core-grouping id, descriptors with the same core-grouping id occupy
    one contiguous run, and the cores count of the counting pass is the
    number of distinct core-grouping ids. *)
Theorem sorted_cores_count_distinct (len : Z) (xs : list cpuinfo_x86_processor) :
  0 <= len <= 31 ->
  Z.of_nat (length xs) < 2 ^ 32 ->
  Forall (low_thread_field len) xs ->
  sorted_by_apic_id xs ->
  first_core_id_regular xs ->
  contiguous_runs (core_ids xs)
  /\ cores_count (cpuinfo_x86_count_objects xs) = distinct_count (core_ids xs).
Proof.
  intros Hlen Hn Hall Hs Hfirst.
  pose proof (core_ids_sorted len xs Hlen Hall Hs) as Hsorted.
  split; [apply sorted_contiguous, Hsorted|].
  rewrite cores_count_keys. apply count_keys_from_sentinel.
  - exact Hsorted.
  - intros id Hid. destruct xs as [|x xs']; [discriminate Hid|].
    injection Hid as <-. apply Hfirst. reflexivity.
  - unfold core_ids. rewrite length_map. exact Hn.
Qed.

Lemma sorted_cores_count_distinct_witness :
  (contiguous_runs
     (core_ids (map (fun t => descriptor (apic_id t) t no_caches)
                  two_cores_two_threads))
   /\ cores_count
        (cpuinfo_x86_count_objects
           (map (fun t => descriptor (apic_id t) t no_caches)
              two_cores_two_threads))
      = distinct_count
          (core_ids (map (fun t => descriptor (apic_id t) t no_caches)
                       two_cores_two_threads)))
  /\ (contiguous_runs (core_ids top_identifiers)
      /\ cores_count (cpuinfo_x86_count_objects top_identifiers)
         = distinct_count (core_ids top_identifiers)).
Proof.
  split.
  - apply (sorted_cores_count_distinct 1
             (map (fun t => descriptor (apic_id t) t no_caches)
                two_cores_two_threads)).
    + lia.
    + vm_compute. reflexivity.
    + repeat constructor; vm_compute; congruence.
    + unfold sorted_by_apic_id.
      repeat constructor; unfold apic_le; vm_compute; discriminate.
    + intros x Hx. injection Hx as <-. vm_compute. discriminate.
  - apply (sorted_cores_count_distinct 1 top_identifiers).
    + lia.
    + vm_compute. reflexivity.
    + repeat constructor; vm_compute; congruence.
    + unfold sorted_by_apic_id.
      repeat constructor; unfold apic_le; vm_compute; discriminate.
    + intros x Hx. injection Hx as <-. vm_compute. discriminate.
Defined.

(** C6 as stated fails in two ways, both with the thread field in the
    low bits.  The identifiers 0, 1, 2 are sorted, but with thread
    fields of lengths 1, 0 and 2 their core-grouping ids are 0, 1, 0:
    the two descriptors with id 0 are not adjacent, and the counting
    pass returns 3 cores for 2 distinct ids.  And the single identifier
    0xFFFFFFFF with an empty thread field has the core-grouping id the
    counting pass starts from: the pass returns 0 cores for 1 distinct
    id. *)
Lemma sorted_cores_count_counterexample :
  (sorted_by_apic_id mixed_thread_lengths
   /\ Forall (fun x => is_uint32 (apic_id (x_topology x))
                       /\ thread_bits_offset (x_topology x) = 0
                       /\ 0 <= thread_bits_length (x_topology x) <= 31)
        mixed_thread_lengths
   /\ core_ids mixed_thread_lengths = [0; 1; 0]
   /\ ~ contiguous_runs (core_ids mixed_thread_lengths)
   /\ cores_count (cpuinfo_x86_count_objects mixed_thread_lengths) = 3
   /\ distinct_count (core_ids mixed_thread_lengths) = 2)
  /\ (sorted_by_apic_id all_ones_identifier
      /\ Forall (low_thread_field 0) all_ones_identifier
      /\ core_ids all_ones_identifier = [UINT32_MAX]
      /\ cores_count (cpuinfo_x86_count_objects all_ones_identifier) = 0
      /\ distinct_count (core_ids all_ones_identifier) = 1).
Proof.
  split.
  - split; [|split; [|split; [|split; [|split]]]]; try reflexivity.
    + unfold sorted_by_apic_id.
      repeat constructor; unfold apic_le; vm_compute; discriminate.
    + repeat constructor; vm_compute; congruence.
    + intros H.
      specialize (H 0%nat 1%nat 2%nat 0 ltac:(lia) eq_refl eq_refl).
      discriminate H.
  - split; [|split; [|split; [|split]]]; try reflexivity.
    + unfold sorted_by_apic_id. repeat constructor.
    + repeat constructor; vm_compute; congruence.
Qed.

(** The array [qsort] hands to the two passes is sorted by the
    comparator. *)
Lemma qsort_sorted (xs : list cpuinfo_x86_processor) :
  sorted_by_apic_id (qsort xs).
Proof.
  unfold sorted_by_apic_id, qsort. apply StronglySorted_merge_sort.
  - intros a b c Hab Hbc. apply apic_le_le. apply apic_le_le in Hab, Hbc. lia.
  - intros a b.
    destruct (Z.le_ge_cases (apic_id (x_topology a)) (apic_id (x_topology b)));
      [left|right]; apply apic_le_le; lia.
Qed.

(** ** The build loop *)

(** C2 (violated by the counting pass). On three descriptors whose
    level-L entries are (size > 0, sharing id 4), (size 0),
    (size > 0, sharing id 4), the counting pass keeps the "last id" of
    the level across the size-0 descriptor and returns 1 for every
    cache level, not 2. *)
Theorem count_objects_merges_across_gap :
  Forall (fun level =>
            map (fun x => (xc_size (x_cache_level level x) =? 0,
                           derive_cache_id (apic_id (x_topology x))
                             (xc_apic_bits (x_cache_level level x))))
              cache_gap
            = [(false, 4); (true, 5); (false, 4)]) cache_levels
  /\ count_cache 5 (raw_cache 0 0) {| last_id := 4; count := 1 |}
     = {| last_id := 4; count := 1 |}
  /\ cpuinfo_x86_count_objects cache_gap
     = {| cores_count := 2; packages_count := 1; l1i_count := 1;
          l1d_count := 1; l2_count := 1; l3_count := 1; l4_count := 1 |}.
Proof.
  split; [|split]; [|reflexivity|reflexivity].
  repeat constructor.
Qed.

(** C3 (violated for the cache levels). On the same three descriptors
    the counting pass sizes every cache array for one record, while the
    build loop starts a second record at every level: its index ends at
    1 and the store to element 1 falls outside the array. *)
Theorem build_initializes_more_caches_than_counted :
  Forall (fun level =>
            cache_count level (cpuinfo_x86_count_objects cache_gap) = 1
            /\ length (cache_array (b_cache level (build id cache_gap))) = 1%nat
            /\ cache_index (b_cache level (build id cache_gap)) = 1
            /\ In {| fault_array := arr_cache level; fault_index := 1 |}
                 (b_faults (build id cache_gap))) cache_levels.
Proof.
  unfold cache_levels.
  repeat (apply Forall_cons; split); [..|apply Forall_nil];
    vm_compute; intuition reflexivity.
Qed.

(** C4 (violated for L1I). For a single processor that has an L1
    instruction cache, the one L1I record starts at processor 0 with
    processor_count 2, although only one processor exists; the L1D
    record of the same processor has processor_count 1. *)
Theorem l1i_processor_count_is_doubled :
  length single_processor = 1%nat
  /\ map cache_range (cache_array (b_l1i (build id single_processor)))
     = [(0, 2)]
  /\ map cache_range (cache_array (b_l1d (build id single_processor)))
     = [(0, 1)].
Proof. repeat split. Qed.

(** C5 (violated for L1D, L2, L3 and L4). For a single processor with a
    cache at every level, each level has its record at index 0 covering
    processor 0, but the processor's L1D, L2, L3 and L4 references hold
    the index the loop variable had before the record was started,
    0xFFFFFFFF; only the L1I reference, stored again by the repeated
    block, is 0. *)
Theorem cache_reference_taken_before_increment :
  Forall (fun level =>
            map cache_range
              (cache_array (b_cache level (build id single_processor)))
            = [(0, 1 + (if decide (level = cpuinfo_cache_level_1i)
                        then 1 else 0))]) cache_levels
  /\ map (fun p => map (fun level => Processor.cache level p) cache_levels)
       (b_processors (build id single_processor))
     = [[Some 0; Some UINT32_MAX; Some UINT32_MAX; Some UINT32_MAX;
         Some UINT32_MAX]].
Proof.
  split; [repeat constructor|reflexivity].
Qed.

(** C10 (violated). For two hardware threads of one core with OS ids 0
    and 1, the core lookup table has one entry (cores_count) and the
    store at OS id 1 falls outside it; for two cores with OS ids 0 and
    2, both tables have two entries and both stores at OS id 2 fall
    outside them. *)
Theorem lookup_table_store_out_of_bounds :
  (length (b_linux_cpu_to_core_map (build id one_core_two_threads)) = 1%nat
   /\ map x_linux_id one_core_two_threads = [0; 1]
   /\ b_faults (build id one_core_two_threads)
      = [{| fault_array := arr_linux_cpu_to_core_map; fault_index := 1 |}])
  /\ (length (b_linux_cpu_to_processor_map (build id sparse_linux_ids)) = 2%nat
      /\ length (b_linux_cpu_to_core_map (build id sparse_linux_ids)) = 2%nat
      /\ map x_linux_id sparse_linux_ids = [0; 2]
      /\ b_faults (build id sparse_linux_ids)
         = [{| fault_array := arr_linux_cpu_to_processor_map; fault_index := 2 |};
            {| fault_array := arr_linux_cpu_to_core_map; fault_index := 2 |}]).
Proof. repeat split. Qed.

(** ** The transaction *)

Section Transaction.

Lemma all_arrays_freed (a : array_id) : a ∈ freed_in_order.
Proof.
  unfold freed_in_order. destruct a as [| | | |[]| |];
    rewrite !elem_of_cons; auto 20.
Qed.

Lemma elem_of_owned (p : array_id -> option nat) (b : nat) :
  b ∈ owned p <-> exists a, p a = Some b.
Proof.
  unfold owned. rewrite elem_of_list_to_set, list_elem_of_omap. split.
  - intros (a & _ & Ha). exists a. exact Ha.
  - intros (a & Ha). exists a. split; [apply all_arrays_freed|exact Ha].
Qed.

Lemma owned_none : owned (fun _ => None) = ∅.
Proof. reflexivity. Qed.

Lemma owned_insert (p : array_id -> option nat) (a : array_id) (b : nat) :
  p a = None -> owned (<[a := Some b]> p) = {[b]} ∪ owned p.
Proof.
  intros Ha. apply set_eq. intros x.
  rewrite elem_of_union, elem_of_singleton, !elem_of_owned. split.
  - intros (a' & Ha'). destruct (decide (a = a')) as [<-|Hne].
    + rewrite fn_lookup_insert in Ha'. left. congruence.
    + rewrite fn_lookup_insert_ne in Ha' by exact Hne. right. eauto.
  - intros [->|(a' & Ha')].
    + exists a. apply fn_lookup_insert.
    + exists a'. rewrite fn_lookup_insert_ne; [exact Ha'|congruence].
Qed.

(** *** Clean-up *)

Lemma free_frame (p : option nat) (w : world) :
  snapshot (free p w) = snapshot w /\ affinity (free p w) = affinity w
  /\ trace (free p w) = trace w /\ faults (free p w) = faults w.
Proof. destruct p; repeat split. Qed.

Lemma free_all_frame (p : array_id -> option nat) (l : list array_id) (w : world) :
  let w' := fold_left (fun w a => free (p a) w) l w in
  snapshot w' = snapshot w /\ affinity w' = affinity w
  /\ trace w' = trace w /\ faults w' = faults w.
Proof.
  revert w. induction l as [|a l IH]; intros w; [repeat split|].
  cbn [fold_left]. cbv zeta in IH |- *.
  destruct (IH (free (p a) w)) as (-> & -> & -> & ->). apply free_frame.
Qed.

Lemma free_all_live (p : array_id -> option nat) (l : list array_id) (w : world) :
  live (fold_left (fun w a => free (p a) w) l w)
  = live w ∖ list_to_set (omap p l).
Proof.
  revert w. induction l as [|a l IH]; intros w.
  - cbn. set_solver.
  - cbn [fold_left omap list_omap]. rewrite IH.
    destruct (p a) as [b|]; cbn; set_solver.
Qed.

Lemma restore_affinity_frame (e : platform) (old : cpu_set_t) (w : world) :
  let w' := restore_affinity e old w in
  snapshot w' = snapshot w /\ live w' = live w /\ faults w' = faults w
  /\ trace w' = trace w ++ restore_events old (restore_ok e)
  /\ (restore_ok e = true -> affinity w' = old).
Proof.
  unfold restore_affinity, restore_events.
  destruct (restore_ok e); cbn; repeat split; intros; congruence.
Qed.

Lemma cleanup_spec (e : platform) (old : cpu_set_t) (fr : frame) :
  let w' := cleanup e old fr in
  snapshot w' = snapshot (fr_world fr)
  /\ live w' = live (fr_world fr) ∖ owned (ptrs fr)
  /\ faults w' = faults (fr_world fr)
  /\ trace w' = trace (fr_world fr) ++ restore_events old (restore_ok e)
  /\ (restore_ok e = true -> affinity w' = old).
Proof.
  unfold cleanup. cbv zeta.
  destruct (free_all_frame (ptrs fr) freed_in_order
              (restore_affinity e old (fr_world fr))) as (Hs & Ha & Ht & Hf).
  destruct (restore_affinity_frame e old (fr_world fr))
    as (Hs' & Hl' & Hf' & Ht' & Ha').
  rewrite Hs, Ha, Ht, Hf, free_all_live, Hs', Hl', Hf', Ht'.
  repeat split. exact Ha'.
Qed.

(** *** Steps of the body *)

Lemma wp_bind {A B} (m : M A) (k : A -> M B) (fr : frame)
    (Q : option B * frame -> Prop) :
  wp m fr (fun r => match r.1 with
                    | Some a => wp (k a) r.2 Q
                    | None => Q (None, r.2)
                    end) ->
  wp (bind m k) fr Q.
Proof. unfold wp, bind. destruct (m fr) as [[a|] fr']; auto. Qed.

Lemma uncommitted_unset (w0 : world) (done : list array_id) (fr : frame)
    (a : array_id) :
  uncommitted w0 done fr -> a ∉ done -> ptrs fr a = None.
Proof.
  intros (_ & _ & _ & Hdone & _) Ha.
  destruct (ptrs fr a) eqn:E; [|reflexivity].
  exfalso. apply Ha, Hdone. rewrite E. eauto.
Qed.

Lemma wp_calloc_or_cleanup (e : platform) (a : array_id) (w0 : world)
    (done : list array_id) (fr : frame) (Q : option unit * frame -> Prop) :
  uncommitted w0 done fr -> a ∉ done ->
  (calloc_ok e a = true ->
   forall fr', uncommitted w0 (a :: done) fr' -> Q (Some tt, fr')) ->
  (calloc_ok e a = false ->
   forall fr', uncommitted w0 done fr' -> Q (None, fr')) ->
  wp (calloc_or_cleanup e a) fr Q.
Proof.
  intros Hinv Ha Hok Hfail. unfold wp, calloc_or_cleanup.
  pose proof (uncommitted_unset w0 done fr a Hinv Ha) as Hnone.
  destruct Hinv as (Hsnap & Hlive & Hdisj & Hdone & Hinj).
  destruct (calloc_ok e a).
  - apply Hok; [reflexivity|].
    pose proof (is_fresh (live (fr_world fr))) as Hfresh.
    set (b := fresh (live (fr_world fr))) in *.
    unfold uncommitted. cbn [ptrs fr_world set_live snapshot live].
    rewrite owned_insert by exact Hnone.
    split; [exact Hsnap|]. split.
    { rewrite Hlive. generalize (owned (ptrs fr)) (live w0). clear.
      intros X Y. set_solver. }
    split.
    { rewrite Hlive in Hfresh. revert Hfresh Hdisj.
      generalize (owned (ptrs fr)) (live w0) b. clear.
      intros X Y b. set_solver. }
    split.
    + intros a'. rewrite elem_of_cons. destruct (decide (a = a')) as [<-|Hne].
      * rewrite fn_lookup_insert. split; eauto.
      * rewrite fn_lookup_insert_ne by exact Hne. rewrite Hdone.
        split; [auto|]. intros [?|?]; congruence.
    + intros a1 a2 b' H1 H2.
      assert (Hnot : forall a', ptrs fr a' = Some b -> False).
      { intros a' Ha'. apply Hfresh. rewrite Hlive.
        apply elem_of_union_r, elem_of_owned. eauto. }
      destruct (decide (a = a1)) as [<-|Hne1];
        destruct (decide (a = a2)) as [<-|Hne2]; [reflexivity|..].
      * rewrite fn_lookup_insert in H1.
        rewrite fn_lookup_insert_ne in H2 by exact Hne2.
        injection H1 as <-. destruct (Hnot _ H2).
      * rewrite fn_lookup_insert in H2.
        rewrite fn_lookup_insert_ne in H1 by exact Hne1.
        injection H2 as <-. destruct (Hnot _ H1).
      * rewrite fn_lookup_insert_ne in H1 by exact Hne1.
        rewrite fn_lookup_insert_ne in H2 by exact Hne2. eauto.
  - apply Hfail; [reflexivity|].
    unfold uncommitted. cbn [ptrs fr_world add_events snapshot live].
    auto.
Qed.

Lemma wp_calloc_cache (e : platform) (level : cpuinfo_cache_level) (n : Z)
    (w0 : world) (done : list array_id) (fr : frame)
    (Q : option unit * frame -> Prop) :
  uncommitted w0 done fr -> arr_cache level ∉ done ->
  ((n =? 0) || calloc_ok e (arr_cache level) = true ->
   forall fr', uncommitted w0 (cache_allocated level n ++ done) fr' ->
               Q (Some tt, fr')) ->
  ((n =? 0) || calloc_ok e (arr_cache level) = false ->
   forall fr', uncommitted w0 done fr' -> Q (None, fr')) ->
  wp (calloc_cache e level n) fr Q.
Proof.
  intros Hinv Ha Hok Hfail. unfold calloc_cache, cache_allocated in *.
  destruct (n =? 0).
  - unfold wp, ret. apply Hok; [reflexivity|exact Hinv].
  - eapply wp_calloc_or_cleanup; eauto.
Qed.

(** The pinning loop touches neither the heap, nor the local pointers,
    nor the snapshot. *)
Lemma collect_spec (e : platform) (bits : list Z) (i : Z) (fr fr' : frame)
    (r : option (list cpuinfo_x86_processor)) :
  collect e i bits fr = (r, fr') ->
  ptrs fr' = ptrs fr
  /\ live (fr_world fr') = live (fr_world fr)
  /\ snapshot (fr_world fr') = snapshot (fr_world fr)
  /\ r = (if forallb (pin_ok e) bits then Some (map (describe e) bits)
          else None).
Proof.
  revert i fr fr' r. induction bits as [|bit bits IH]; intros i fr fr' r Hrun.
  - injection Hrun as <- <-. repeat split.
  - cbn [collect forallb map] in Hrun |- *. unfold bind, pin in Hrun.
    destruct (pin_ok e bit).
    2: { injection Hrun as <- <-. repeat split. }
    cbn [andb].
    destruct (collect e (i + 1) bits _) as [[xs|] fr1] eqn:E;
      apply IH in E as (Hp & Hl & Hs & Hr);
      injection Hrun as <- <-;
      destruct (forallb (pin_ok e) bits); try discriminate Hr;
      repeat split; try assumption.
    injection Hr as ->. reflexivity.
Qed.

Lemma wp_collect (e : platform) (bits : list Z) (i : Z) (w0 : world)
    (done : list array_id) (fr : frame)
    (Q : option (list cpuinfo_x86_processor) * frame -> Prop) :
  uncommitted w0 done fr ->
  (forallb (pin_ok e) bits = true ->
   forall fr', uncommitted w0 done fr' ->
               Q (Some (map (describe e) bits), fr')) ->
  (forallb (pin_ok e) bits = false ->
   forall fr', uncommitted w0 done fr' -> Q (None, fr')) ->
  wp (collect e i bits) fr Q.
Proof.
  intros Hinv Hok Hfail. unfold wp.
  destruct (collect e i bits fr) as [r fr'] eqn:Hrun.
  apply collect_spec in Hrun as (Hp & Hl & Hs & Hr).
  assert (uncommitted w0 done fr') as Hinv'.
  { unfold uncommitted in *. rewrite Hp, Hl, Hs. exact Hinv. }
  destruct (forallb (pin_ok e) bits); subst r; auto.
Qed.

End Transaction.

Section Commit.

Lemma uncommitted_start (w : world) (evs : list event) :
  uncommitted w [] {| ptrs := fun _ => None; fr_world := add_events evs w |}.
Proof.
  unfold uncommitted. cbn [ptrs fr_world add_events snapshot live].
  rewrite owned_none. repeat split; try set_solver.
Qed.

Lemma elem_of_published_candidate (p : array_id -> option nat)
    (count : Z) (n : object_counts) (bs : build_state) (b : nat) :
  b ∈ published_blocks (candidate p count n bs)
  <-> exists a, a <> arr_x86_processors /\ p a = Some b.
Proof.
  unfold published_blocks.
  rewrite elem_of_list_to_set, list_elem_of_omap. split.
  - intros (o & Hin & Ho). cbn in Hin, Ho. subst o.
    repeat (apply elem_of_cons in Hin as [Hin|Hin];
            [eexists; split; [|symmetry; exact Hin]; discriminate|]).
    apply elem_of_nil in Hin. destruct Hin.
  - intros (a & Hne & Ha). exists (Some b). split; [|reflexivity].
    rewrite <- Ha. cbn.
    destruct a as [| | | |[]| |]; try congruence;
      repeat first [apply list_elem_of_here | apply list_elem_of_further].
Qed.

Ltac step_fails :=
  cbn [fst snd]; split;
  [ unfold all_steps_succeed, sorted_descriptors; cbv zeta;
    repeat match goal with
           | H : _ = true |- _ => rewrite H
           | H : _ = false |- _ => rewrite H
           end;
    reflexivity
  | eauto ].

Lemma elem_of_cache_allocated (a : array_id) (level : cpuinfo_cache_level)
    (n : Z) :
  a ∈ cache_allocated level n -> a = arr_cache level.
Proof.
  unfold cache_allocated. destruct (n =? 0); intros H.
  - apply elem_of_nil in H. destruct H.
  - apply elem_of_cons in H as [H|H]; [exact H|].
    apply elem_of_nil in H. destruct H.
Qed.

Ltac unset :=
  let H := fresh "H" in
  intros H;
  repeat first
    [ apply elem_of_app in H as [H|H];
      [apply elem_of_cache_allocated in H; discriminate H|]
    | apply elem_of_cons in H as [H|H]; [discriminate H|] ];
  apply elem_of_nil in H; exact H.

(** The body either jumps to [cleanup] from an uncommitted state, or
    reaches the commit step with every array of [allocated] behind its
    local pointer. *)
Lemma init_body_spec (e : platform) (w0 : world) (evs : list event) :
  getaffinity_ok e = true ->
  wp (init_body e) {| ptrs := fun _ => None; fr_world := add_events evs w0 |}
    (fun r =>
       match r.1 with
       | None =>
           all_steps_succeed e = false
           /\ exists done, uncommitted w0 done r.2
       | Some _ =>
           all_steps_succeed e = true
           /\ exists fr,
               uncommitted w0
                 (allocated (cpuinfo_x86_count_objects (sorted_descriptors e)))
                 fr
               /\ r.2 = (commit (CPU_COUNT (processors_set e))
                           (cpuinfo_x86_count_objects (sorted_descriptors e))
                           (build (cpuinfo_x86_normalize_brand_string e)
                              (sorted_descriptors e)) fr).2
       end).
Proof.
  intros Hget. unfold init_body. cbv zeta.
  apply wp_bind.
  eapply wp_calloc_or_cleanup;
    [apply uncommitted_start|unset|intros H1 fr1 I1|intros H1 fr1 I1];
    [|step_fails]; cbn [fst snd].
  apply wp_bind.
  eapply wp_collect; [exact I1|intros H2 fr2 I2|intros H2 fr2 I2];
    [|step_fails]; cbn [fst snd].
  apply wp_bind.
  eapply wp_calloc_or_cleanup;
    [exact I2|unset|intros H3 fr3 I3|intros H3 fr3 I3];
    [|step_fails]; cbn [fst snd].
  apply wp_bind.
  eapply wp_calloc_or_cleanup;
    [exact I3|unset|intros H4 fr4 I4|intros H4 fr4 I4];
    [|step_fails]; cbn [fst snd].
  apply wp_bind.
  eapply wp_calloc_or_cleanup;
    [exact I4|unset|intros H5 fr5 I5|intros H5 fr5 I5];
    [|step_fails]; cbn [fst snd].
  apply wp_bind.
  eapply wp_calloc_or_cleanup;
    [exact I5|unset|intros H6 fr6 I6|intros H6 fr6 I6];
    [|step_fails]; cbn [fst snd].
  apply wp_bind.
  eapply wp_calloc_or_cleanup;
    [exact I6|unset|intros H7 fr7 I7|intros H7 fr7 I7];
    [|step_fails]; cbn [fst snd].
  apply wp_bind.
  eapply wp_calloc_cache;
    [exact I7|unset|intros H8 fr8 I8|intros H8 fr8 I8];
    [|step_fails]; cbn [fst snd].
  apply wp_bind.
  eapply wp_calloc_cache;
    [exact I8|unset|intros H9 fr9 I9|intros H9 fr9 I9];
    [|step_fails]; cbn [fst snd].
  apply wp_bind.
  eapply wp_calloc_cache;
    [exact I9|unset|intros H10 fr10 I10|intros H10 fr10 I10];
    [|step_fails]; cbn [fst snd].
  apply wp_bind.
  eapply wp_calloc_cache;
    [exact I10|unset|intros H11 fr11 I11|intros H11 fr11 I11];
    [|step_fails]; cbn [fst snd].
  apply wp_bind.
  eapply wp_calloc_cache;
    [exact I11|unset|intros H12 fr12 I12|intros H12 fr12 I12];
    [|step_fails]; cbn [fst snd].
  apply wp_bind. unfold wp at 1, on_world at 1. cbn [fst snd].
  unfold wp. cbn [fst]. split.
  - unfold all_steps_succeed, sorted_descriptors; cbv zeta.
    rewrite Hget, H1, H2, H3, H4, H5, H6, H7, H8, H9, H10, H11, H12.
    reflexivity.
  - unfold sorted_descriptors.
    match goal with
    | |- context [(on_world ?f fr12).2] => exists (on_world f fr12).2
    end.
    split; [|reflexivity].
    exact I12.
Qed.

End Commit.

(** C1. A run of [cpuinfo_x86_linux_init] in which some step fails
    leaves the published state as it was and the heap with exactly the
    blocks it had, every array allocated by the attempt having been
    freed.  A run in which every step succeeds publishes the arrays,
    lookup tables and counts built from the sorted descriptors; the
    blocks added to the heap are the published ones, each fresh, the
    array of raw descriptors having been freed. *)
Theorem init_is_transactional (e : platform) (w : world) :
  let w' := cpuinfo_x86_linux_init e w in
  let n := cpuinfo_x86_count_objects (sorted_descriptors e) in
  (all_steps_succeed e = false ->
   snapshot w' = snapshot w /\ live w' = live w)
  /\ (all_steps_succeed e = true ->
      exists p : array_id -> option nat,
        snapshot w'
        = candidate p (CPU_COUNT (processors_set e)) n
            (build (cpuinfo_x86_normalize_brand_string e)
               (sorted_descriptors e))
        /\ (forall a, is_Some (p a) <-> a ∈ allocated n)
        /\ live w' = live w ∪ published_blocks (snapshot w')
        /\ published_blocks (snapshot w') ## live w).
Proof.
  cbv zeta. unfold cpuinfo_x86_linux_init.
  destruct (getaffinity_ok e) eqn:Hget.
  2: { split; [intros _; split; reflexivity|].
       unfold all_steps_succeed. rewrite Hget. discriminate. }
  pose proof (init_body_spec e w [ev_sched_getaffinity true] Hget) as Hbody.
  unfold wp in Hbody.
  destruct (init_body e _) as [r fr'] eqn:Hrun. cbn [fst snd] in Hbody |- *.
  destruct (cleanup_spec e (affinity w) fr') as (Hsnap & Hlive & _).
  rewrite Hsnap, Hlive. clear Hsnap Hlive.
  destruct r as [[]|].
  - destruct Hbody as (Hall & fr & Hinv & ->). rewrite Hall.
    split; [discriminate|]. intros _.
    destruct Hinv as (Hs & Hl & Hdisj & Hdone & Hinj).
    exists (ptrs fr). cbn [commit snd fr_world ptrs set_snapshot snapshot live].
    split; [reflexivity|]. split; [exact Hdone|].
    assert (Hkept : forall b,
               b ∈ owned (fun a => match a with
                                   | arr_x86_processors => ptrs fr arr_x86_processors
                                   | _ => None
                                   end)
               <-> ptrs fr arr_x86_processors = Some b).
    { intros b. rewrite elem_of_owned. split.
      - intros (a & Ha). destruct a; congruence.
      - intros Hb. exists arr_x86_processors. exact Hb. }
    split.
    + apply set_eq. intros b.
      rewrite elem_of_difference, Hl, !elem_of_union, Hkept,
        elem_of_published_candidate, elem_of_owned.
      split.
      * intros [[Hb|(a & Ha)] Hnot]; [left; exact Hb|].
        right. exists a. split; [|exact Ha]. intros ->. contradiction.
      * intros [Hb|(a & Hne & Ha)].
        -- split; [left; exact Hb|]. intros Hx.
           apply (Hdisj b); [apply elem_of_owned; eauto|exact Hb].
        -- split; [right; eauto|]. intros Hx. apply Hne. eapply Hinj; eauto.
    + intros b Hb Hw. apply elem_of_published_candidate in Hb as (a & _ & Ha).
      apply (Hdisj b); [apply elem_of_owned; eauto|exact Hw].
  - destruct Hbody as (Hall & done & Hs & Hl & Hdisj & _). rewrite Hall.
    split; [|discriminate]. intros _. split; [exact Hs|].
    rewrite Hl. revert Hdisj. generalize (owned (ptrs fr')) (live w). clear.
    intros X Y. set_solver.
Qed.

Lemma init_is_transactional_witness :
  (snapshot (cpuinfo_x86_linux_init
               (platform_two_cores
                  (fun a => negb (bool_decide (a = arr_packages))) true)
               world_uninitialized)
   = snapshot world_uninitialized
   /\ live (cpuinfo_x86_linux_init
              (platform_two_cores
                 (fun a => negb (bool_decide (a = arr_packages))) true)
              world_uninitialized)
      = live world_uninitialized)
  /\ (exists p : array_id -> option nat,
        snapshot (cpuinfo_x86_linux_init
                    (platform_two_cores (fun _ => true) true)
                    world_uninitialized)
        = candidate p
            (CPU_COUNT (processors_set (platform_two_cores (fun _ => true) true)))
            (cpuinfo_x86_count_objects
               (sorted_descriptors (platform_two_cores (fun _ => true) true)))
            (build (fun s => s)
               (sorted_descriptors (platform_two_cores (fun _ => true) true)))
        /\ (forall a,
              is_Some (p a)
              <-> a ∈ allocated
                    (cpuinfo_x86_count_objects
                       (sorted_descriptors
                          (platform_two_cores (fun _ => true) true))))
        /\ live (cpuinfo_x86_linux_init
                   (platform_two_cores (fun _ => true) true)
                   world_uninitialized)
           = live world_uninitialized
             ∪ published_blocks
                 (snapshot (cpuinfo_x86_linux_init
                              (platform_two_cores (fun _ => true) true)
                              world_uninitialized))
        /\ published_blocks
             (snapshot (cpuinfo_x86_linux_init
                          (platform_two_cores (fun _ => true) true)
                          world_uninitialized))
           ## live world_uninitialized).
Proof.
  split.
  - apply (init_is_transactional
             (platform_two_cores
                (fun a => negb (bool_decide (a = arr_packages))) true)
             world_uninitialized).
    vm_compute. reflexivity.
  - apply (init_is_transactional (platform_two_cores (fun _ => true) true)
             world_uninitialized).
    vm_compute. reflexivity.
Defined.

Section Affinity.

Lemma bind_trace {A B} (m : M A) (k : A -> M B) :
  (forall fr, exists evs,
      trace (fr_world (m fr).2) = trace (fr_world fr) ++ evs) ->
  (forall a fr, exists evs,
      trace (fr_world (k a fr).2) = trace (fr_world fr) ++ evs) ->
  forall fr, exists evs,
    trace (fr_world (bind m k fr).2) = trace (fr_world fr) ++ evs.
Proof.
  intros Hm Hk fr. unfold bind. destruct (Hm fr) as [evs1 H1].
  destruct (m fr) as [[a|] fr1]; cbn [snd] in *.
  - destruct (Hk a fr1) as [evs2 H2]. exists (evs1 ++ evs2).
    rewrite H2, H1, app_assoc. reflexivity.
  - exists evs1. exact H1.
Qed.

Lemma calloc_or_cleanup_trace (e : platform) (a : array_id) (fr : frame) :
  exists evs,
    trace (fr_world (calloc_or_cleanup e a fr).2) = trace (fr_world fr) ++ evs.
Proof.
  unfold calloc_or_cleanup. destruct (calloc_ok e a); cbn.
  - exists []. rewrite app_nil_r. reflexivity.
  - eexists. reflexivity.
Qed.

Lemma calloc_cache_trace (e : platform) (level : cpuinfo_cache_level) (n : Z)
    (fr : frame) :
  exists evs,
    trace (fr_world (calloc_cache e level n fr).2) = trace (fr_world fr) ++ evs.
Proof.
  unfold calloc_cache. destruct (n =? 0); [|apply calloc_or_cleanup_trace].
  exists []. cbn. rewrite app_nil_r. reflexivity.
Qed.

Lemma collect_trace (e : platform) (bits : list Z) (i : Z) (fr : frame) :
  exists evs,
    trace (fr_world (collect e i bits fr).2) = trace (fr_world fr) ++ evs.
Proof.
  revert i fr. induction bits as [|bit bits IH]; intros i fr.
  - exists []. cbn. rewrite app_nil_r. reflexivity.
  - cbn [collect]. apply bind_trace.
    + intros fr0. unfold pin. destruct (pin_ok e bit); cbn; eexists; reflexivity.
    + intros _ fr0. apply bind_trace; [apply IH|].
      intros xs fr1. exists []. cbn. rewrite app_nil_r. reflexivity.
Qed.

(** The body only appends to the trace. *)
Lemma init_body_trace (e : platform) (fr : frame) :
  exists evs,
    trace (fr_world (init_body e fr).2) = trace (fr_world fr) ++ evs.
Proof.
  unfold init_body. cbv zeta.
  repeat (apply bind_trace;
          [first [apply calloc_or_cleanup_trace | apply calloc_cache_trace
                 | apply collect_trace | idtac] | intros ? ?]).
  - unfold on_world; cbn. exists []. rewrite app_nil_r. reflexivity.
  - unfold commit; cbn. exists []. rewrite app_nil_r. reflexivity.
Qed.

Lemma collect_with_restore (ok : bool) (e : platform) (bits : list Z) (i : Z) :
  collect (with_restore ok e) i bits = collect e i bits.
Proof.
  revert i. induction bits as [|bit bits IH]; intros i; [reflexivity|].
  cbn [collect]. rewrite IH. reflexivity.
Qed.

(** The body does not consult the result of the restoring call. *)
Lemma init_body_with_restore (ok : bool) (e : platform) (fr : frame) :
  init_body (with_restore ok e) fr = init_body e fr.
Proof.
  unfold init_body. cbv zeta.
  change (processors_set (with_restore ok e)) with (processors_set e).
  rewrite collect_with_restore. reflexivity.
Qed.

End Affinity.

(** C9. Once the original affinity mask has been read, every run --
    whether it commits or jumps to [cleanup] from a failed allocation
    or a failed pinning -- ends its trace with a [sched_setaffinity]
    call on the original mask, followed only by the warning when that
    call fails.  When the call succeeds the mask in force is the
    original one; whether it succeeds or not, the snapshot, the heap and
    the recorded faults are the same. *)
Theorem original_affinity_restored (e : platform) (w : world) :
  getaffinity_ok e = true ->
  (exists evs,
      trace (cpuinfo_x86_linux_init e w)
      = trace w ++ evs ++ restore_events (affinity w) (restore_ok e))
  /\ (restore_ok e = true ->
      affinity (cpuinfo_x86_linux_init e w) = affinity w)
  /\ (restore_ok e = false ->
      In (ev_log warn_restore_affinity) (trace (cpuinfo_x86_linux_init e w)))
  /\ snapshot (cpuinfo_x86_linux_init (with_restore false e) w)
     = snapshot (cpuinfo_x86_linux_init (with_restore true e) w)
  /\ live (cpuinfo_x86_linux_init (with_restore false e) w)
     = live (cpuinfo_x86_linux_init (with_restore true e) w)
  /\ faults (cpuinfo_x86_linux_init (with_restore false e) w)
     = faults (cpuinfo_x86_linux_init (with_restore true e) w).
Proof.
  intros Hget. unfold cpuinfo_x86_linux_init.
  cbn [getaffinity_ok with_restore]. rewrite Hget.
  rewrite !init_body_with_restore.
  set (fr' := (init_body e _).2).
  destruct (init_body_trace e
              {| ptrs := fun _ => None;
                 fr_world := add_events [ev_sched_getaffinity true] w |})
    as [evs Hevs].
  fold fr' in Hevs. cbn [fr_world add_events trace] in Hevs.
  destruct (cleanup_spec e (affinity w) fr') as (_ & _ & _ & Ht & Ha).
  destruct (cleanup_spec (with_restore false e) (affinity w) fr')
    as (Hs0 & Hl0 & Hf0 & _).
  destruct (cleanup_spec (with_restore true e) (affinity w) fr')
    as (Hs1 & Hl1 & Hf1 & _).
  split; [|split; [exact Ha|split]].
  - exists (ev_sched_getaffinity true :: evs).
    rewrite Ht, Hevs, <- !app_assoc. reflexivity.
  - intros Hr. rewrite Ht, Hr. apply in_or_app. right. right. left.
    reflexivity.
  - rewrite Hs0, Hs1, Hl0, Hl1, Hf0, Hf1. repeat split.
Qed.

Lemma original_affinity_restored_witness :
  (exists evs,
      trace (cpuinfo_x86_linux_init
               (platform_two_cores (fun _ => false) false) world_uninitialized)
      = trace world_uninitialized ++ evs
        ++ restore_events (affinity world_uninitialized) false)
  /\ In (ev_log warn_restore_affinity)
       (trace (cpuinfo_x86_linux_init
                 (platform_two_cores (fun _ => false) false)
                 world_uninitialized))
  /\ affinity (cpuinfo_x86_linux_init
                 (platform_two_cores (fun _ => true) true) world_uninitialized)
     = affinity world_uninitialized.
Proof.
  pose proof (original_affinity_restored
                (platform_two_cores (fun _ => false) false)
                world_uninitialized eq_refl) as (H1 & _ & H3 & _).
  pose proof (original_affinity_restored
                (platform_two_cores (fun _ => true) true)
                world_uninitialized eq_refl) as (_ & H2 & _).
  split; [exact H1|split; [exact (H3 eq_refl)|exact (H2 eq_refl)]].
Defined.

(** * Further properties of the code *)

(** ** Comparator and cpulist callback *)

(** X1. [cmp_x86_processor_by_apic_id] is a three-way comparison of the
    two identifiers: negative, zero or positive exactly as the first is
    below, equal to or above the second, and swapping the arguments
    negates the result. *)
Theorem cmp_by_apic_id_three_way (a b : cpuinfo_x86_processor) :
  (cmp_x86_processor_by_apic_id a b = -1
   <-> apic_id (x_topology a) < apic_id (x_topology b))
  /\ (cmp_x86_processor_by_apic_id a b = 0
      <-> apic_id (x_topology a) = apic_id (x_topology b))
  /\ (cmp_x86_processor_by_apic_id a b = 1
      <-> apic_id (x_topology b) < apic_id (x_topology a))
  /\ cmp_x86_processor_by_apic_id b a = - cmp_x86_processor_by_apic_id a b.
Proof.
  unfold cmp_x86_processor_by_apic_id. cbv zeta.
  rewrite !Z.gtb_ltb.
  destruct (Z.ltb_spec (apic_id (x_topology a)) (apic_id (x_topology b)));
    destruct (Z.ltb_spec (apic_id (x_topology b)) (apic_id (x_topology a)));
    repeat split; intros; try lia; try discriminate.
Qed.

Section Cpulist.

Lemma CPU_SET_isset (cpu c : Z) (s : cpu_set_t) :
  CPU_ISSET cpu (CPU_SET c s)
  = ((cpu =? c) && (0 <=? c) && (c <? CPU_SETSIZE)) || CPU_ISSET cpu s.
Proof. reflexivity. Qed.

Lemma fold_CPU_SET_isset (cpu : Z) (l : list Z) (s : cpu_set_t) :
  CPU_ISSET cpu (fold_left (fun s c => CPU_SET c s) l s)
  = (bool_decide (cpu ∈ l) && (0 <=? cpu) && (cpu <? CPU_SETSIZE))
    || CPU_ISSET cpu s.
Proof.
  revert s. induction l as [|c l IH]; intros s.
  - cbn [fold_left]. rewrite bool_decide_false; [reflexivity|].
    apply not_elem_of_nil.
  - cbn [fold_left]. rewrite IH, CPU_SET_isset.
    destruct (Z.eqb_spec cpu c) as [->|Hne].
    + rewrite (bool_decide_true (c ∈ c :: l)) by (left).
      destruct (bool_decide (c ∈ l)), (0 <=? c), (c <? CPU_SETSIZE),
        (CPU_ISSET c s); reflexivity.
    + assert (bool_decide (cpu ∈ c :: l) = bool_decide (cpu ∈ l)) as ->.
      { apply bool_decide_ext. rewrite elem_of_cons. tauto. }
      cbn [andb orb]. reflexivity.
Qed.

Lemma callback_isset (cpulist_start cpulist_end cpu : Z) (cpuset : cpu_set_t) :
  CPU_ISSET cpu
    (cpuinfo_x86_linux_cpulist_callback cpulist_start cpulist_end cpuset)
  = (in_range cpulist_start cpulist_end cpu
     && (0 <=? cpu) && (cpu <? CPU_SETSIZE))
    || CPU_ISSET cpu cpuset.
Proof.
  unfold cpuinfo_x86_linux_cpulist_callback. rewrite fold_CPU_SET_isset.
  f_equal. f_equal. f_equal. unfold in_range.
  destruct (Z.leb_spec cpulist_start cpu), (Z.ltb_spec cpu cpulist_end);
    cbn [andb];
    [apply bool_decide_true|apply bool_decide_false..];
    rewrite elem_of_seqZ; lia.
Qed.

End Cpulist.

(** X2. After the cpulist callback has run on the range
    [cpulist_start, cpulist_end), a processor is in the set exactly when
    it was in it before or lies in the range and is a valid bit of a
    [cpu_set_t]; an empty or reversed range changes nothing. *)
Theorem cpulist_callback_isset (cpulist_start cpulist_end cpu : Z)
    (cpuset : cpu_set_t) :
  CPU_ISSET cpu
    (cpuinfo_x86_linux_cpulist_callback cpulist_start cpulist_end cpuset)
  = (in_range cpulist_start cpulist_end cpu
     && (0 <=? cpu) && (cpu <? CPU_SETSIZE))
    || CPU_ISSET cpu cpuset.
Proof. apply callback_isset. Qed.

(** ** Identifier decomposition, bit by bit *)

Section FieldBits.

Lemma uint32_bits_high (id k : Z) :
  is_uint32 id -> 32 <= k -> Z.testbit id k = false.
Proof.
  intros Hid Hk. destruct (Z.eq_dec id 0) as [->|Hne].
  - apply Z.bits_0.
  - apply Z.bits_above_log2; [unfold is_uint32 in Hid; lia|].
    apply Z.log2_lt_pow2; unfold is_uint32 in Hid; try lia.
    apply Z.lt_le_trans with (2 ^ 32); [lia|].
    apply Z.pow_le_mono_r; lia.
Qed.

Lemma wrap32_testbit (z k : Z) :
  0 <= k -> Z.testbit (wrap32 z) k = (k <? 32) && Z.testbit z k.
Proof.
  intros Hk. unfold wrap32. destruct (Z.ltb_spec k 32).
  - rewrite Z.mod_pow2_bits_low by lia. reflexivity.
  - rewrite Z.mod_pow2_bits_high by lia. reflexivity.
Qed.

Lemma bit_mask_testbit (len k : Z) :
  0 <= len <= 31 -> 0 <= k -> Z.testbit (bit_mask len) k = (k <? len).
Proof.
  intros Hlen Hk. rewrite bit_mask_ones by exact Hlen.
  destruct (Z.ltb_spec k len).
  - apply Z.ones_spec_low. lia.
  - apply Z.ones_spec_high. lia.
Qed.

(** The mask shifted to its field: the bits of the field below bit 32. *)
Lemma field_mask_testbit (off len k : Z) :
  0 <= off -> 0 <= len <= 31 -> 0 <= k ->
  Z.testbit (shl32 (bit_mask len) off) k = (k <? 32) && in_field off len k.
Proof.
  intros Hoff Hlen Hk. unfold shl32, in_field.
  rewrite wrap32_testbit by exact Hk. f_equal.
  rewrite Z.shiftl_spec by exact Hk.
  destruct (Z.leb_spec off k).
  - rewrite bit_mask_testbit by lia. cbn [andb].
    destruct (Z.ltb_spec (k - off) len), (Z.ltb_spec k (off + len));
      try reflexivity; lia.
  - rewrite Z.testbit_neg_r by lia. reflexivity.
Qed.

(** Bit [k] of a grouping id. *)
Lemma derive_group_id_testbit (id off len k : Z) :
  is_uint32 id -> 0 <= off -> 0 <= len <= 31 -> 0 <= k ->
  Z.testbit (derive_group_id id off len) k
  = Z.testbit id k && negb (in_field off len k).
Proof.
  intros Hid Hoff Hlen Hk. unfold derive_group_id.
  rewrite land_not32 by exact Hid.
  rewrite Z.ldiff_spec, field_mask_testbit by assumption.
  destruct (Z.ltb_spec k 32); [reflexivity|].
  rewrite uint32_bits_high by assumption. reflexivity.
Qed.

End FieldBits.

(** X3. For a field offset and a field length in 0..31, where both
    shifts are defined, the grouping id [id & ~(bit_mask(len) << off)]
    is the identifier with exactly the bits of the field cleared: bit
    [k] of the result is bit [k] of the identifier outside the field and
    0 inside it. *)
Theorem derive_group_id_clears_field (id off len k : Z) :
  is_uint32 id -> 0 <= off <= 31 -> 0 <= len <= 31 -> 0 <= k ->
  Z.testbit (derive_group_id id off len) k
  = Z.testbit id k && negb (in_field off len k).
Proof.
  intros Hid [Hoff _]. apply derive_group_id_testbit; assumption.
Qed.

Lemma derive_group_id_clears_field_witness :
  Z.testbit (derive_group_id 13 1 2) 2 = Z.testbit 13 2 && negb (in_field 1 2 2).
Proof.
  apply (derive_group_id_clears_field 13 1 2 2); unfold is_uint32; lia.
Defined.

(** X4. The core-grouping id and the SMT index together give back the
    identifier: putting the SMT index of init.c:287 into its field of
    the id with that field cleared restores the APIC id. *)
Theorem core_id_and_smt_id_recompose (x : cpuinfo_x86_processor) :
  is_uint32 (apic_id (x_topology x)) ->
  0 <= thread_bits_offset (x_topology x) ->
  0 <= thread_bits_length (x_topology x) <= 31 ->
  Z.lor (core_id_of x) (shl32 (smt_id_of x) (thread_bits_offset (x_topology x)))
  = apic_id (x_topology x).
Proof.
  intros Hid Hoff Hlen. apply Z.bits_inj'. intros k Hk.
  rewrite Z.lor_spec. unfold core_id_of.
  rewrite derive_group_id_testbit by assumption.
  unfold shl32, smt_id_of. rewrite wrap32_testbit by exact Hk.
  rewrite Z.shiftl_spec by exact Hk. unfold in_field.
  set (off := thread_bits_offset (x_topology x)) in *.
  set (len := thread_bits_length (x_topology x)) in *.
  set (id := apic_id (x_topology x)) in *.
  destruct (Z.leb_spec off k).
  - rewrite Z.land_spec, Z.shiftr_spec by lia.
    rewrite bit_mask_testbit by lia.
    replace (k - off + off) with k by lia.
    destruct (Z.ltb_spec k 32).
    + destruct (Z.ltb_spec (k - off) len), (Z.ltb_spec k (off + len));
        try lia; cbn [andb negb orb];
        destruct (Z.testbit id k); reflexivity.
    + rewrite uint32_bits_high by assumption. reflexivity.
  - rewrite (Z.testbit_neg_r _ (k - off)) by lia. cbn [andb negb].
    rewrite andb_true_r, andb_false_r, orb_false_r. reflexivity.
Qed.

Lemma core_id_and_smt_id_recompose_witness :
  Z.lor (core_id_of (descriptor 0 (layout 13 1 2 3 1) no_caches))
    (shl32 (smt_id_of (descriptor 0 (layout 13 1 2 3 1) no_caches)) 1)
  = 13.
Proof.
  apply (core_id_and_smt_id_recompose
           (descriptor 0 (layout 13 1 2 3 1) no_caches));
    cbn; unfold is_uint32; lia.
Defined.

(** ** Bounds of the counting pass *)

Section Trackers.

(** One of the seven trackers of the counting state: in every iteration
    its count stays or goes up by one. *)
Variable field : count_state -> tracker.
Hypothesis field_step :
  forall s x, count (field (count_step s x)) = count (field s)
              \/ count (field (count_step s x)) = wrap32 (count (field s) + 1).

Lemma count_fold_bounds (l : list cpuinfo_x86_processor) (s : count_state) :
  0 <= count (field s) ->
  count (field s) + Z.of_nat (length l) < 2 ^ 32 ->
  count (field s) <= count (field (fold_left count_step l s))
                  <= count (field s) + Z.of_nat (length l).
Proof.
  revert s. induction l as [|x l IH]; intros s H0 Hlen.
  - cbn [fold_left length]. lia.
  - cbn [fold_left]. cbn [length] in Hlen.
    assert (count (field s) <= count (field (count_step s x))
                            <= count (field s) + 1) as Hstep.
    { destruct (field_step s x) as [->| ->]; [lia|].
      rewrite wrap32_small by (unfold is_uint32; lia). lia. }
    specialize (IH (count_step s x) ltac:(lia) ltac:(lia)). cbn [length]. lia.
Qed.

Lemma counted_bounds (pre : list cpuinfo_x86_processor) :
  count (field count_state_init) = 0 ->
  Z.of_nat (length pre) < 2 ^ 32 ->
  0 <= count (field (counted pre)) <= Z.of_nat (length pre).
Proof.
  intros H0 Hlen. unfold counted.
  pose proof (count_fold_bounds pre count_state_init) as H.
  rewrite H0 in H. apply H; lia.
Qed.

(** The count after a prefix is at most the count after the whole
    array. *)
Lemma counted_prefix_le (pre post : list cpuinfo_x86_processor) :
  count (field count_state_init) = 0 ->
  Z.of_nat (length (pre ++ post)) < 2 ^ 32 ->
  count (field (counted pre)) <= count (field (counted (pre ++ post))).
Proof.
  intros H0 Hlen. unfold counted. rewrite fold_left_app.
  rewrite length_app, Nat2Z.inj_add in Hlen.
  pose proof (counted_bounds pre H0 ltac:(lia)) as Hpre. unfold counted in Hpre.
  apply count_fold_bounds; lia.
Qed.

End Trackers.

Section TrackerFields.

Lemma count_key_step (id : Z) (t : tracker) :
  count (count_key id t) = count t
  \/ count (count_key id t) = wrap32 (count t + 1).
Proof. unfold count_key. destruct (id =? last_id t); [left|right]; reflexivity. Qed.

Lemma count_cache_step (apic : Z) (c : cpuinfo_x86_cache) (t : tracker) :
  count (count_cache apic c t) = count t
  \/ count (count_cache apic c t) = wrap32 (count t + 1).
Proof.
  unfold count_cache. destruct (xc_size c =? 0); [left; reflexivity|].
  apply count_key_step.
Qed.

Lemma cs_core_step (s : count_state) (x : cpuinfo_x86_processor) :
  count (cs_core (count_step s x)) = count (cs_core s)
  \/ count (cs_core (count_step s x)) = wrap32 (count (cs_core s) + 1).
Proof. apply count_key_step. Qed.

Lemma cs_package_step (s : count_state) (x : cpuinfo_x86_processor) :
  count (cs_package (count_step s x)) = count (cs_package s)
  \/ count (cs_package (count_step s x)) = wrap32 (count (cs_package s) + 1).
Proof. apply count_key_step. Qed.

Lemma cs_cache_step (level : cpuinfo_cache_level) (s : count_state)
    (x : cpuinfo_x86_processor) :
  let field := fun s => match level with
                        | cpuinfo_cache_level_1i => cs_l1i s
                        | cpuinfo_cache_level_1d => cs_l1d s
                        | cpuinfo_cache_level_2 => cs_l2 s
                        | cpuinfo_cache_level_3 => cs_l3 s
                        | cpuinfo_cache_level_4 => cs_l4 s
                        end in
  count (field (count_step s x)) = count (field s)
  \/ count (field (count_step s x)) = wrap32 (count (field s) + 1).
Proof. destruct level; apply count_cache_step. Qed.

End TrackerFields.

(** X5. Each of the seven counts of [cpuinfo_x86_count_objects] lies
    between 0 and the number of descriptors: a counter goes up at most
    once per descriptor, so it never wraps and no array is sized beyond
    the processor count. *)
Theorem count_objects_bounded (xs : list cpuinfo_x86_processor) :
  Z.of_nat (length xs) < 2 ^ 32 ->
  Forall (fun n => 0 <= n <= Z.of_nat (length xs))
    [cores_count (cpuinfo_x86_count_objects xs);
     packages_count (cpuinfo_x86_count_objects xs);
     l1i_count (cpuinfo_x86_count_objects xs);
     l1d_count (cpuinfo_x86_count_objects xs);
     l2_count (cpuinfo_x86_count_objects xs);
     l3_count (cpuinfo_x86_count_objects xs);
     l4_count (cpuinfo_x86_count_objects xs)].
Proof.
  intros Hlen. unfold cpuinfo_x86_count_objects. cbv zeta.
  cbn [cores_count packages_count l1i_count l1d_count l2_count l3_count
       l4_count].
  fold (counted xs).
  repeat apply Forall_cons_2; [..|apply Forall_nil_2].
  - apply (counted_bounds cs_core cs_core_step); [reflexivity|exact Hlen].
  - apply (counted_bounds cs_package cs_package_step); [reflexivity|exact Hlen].
  - apply (counted_bounds _ (cs_cache_step cpuinfo_cache_level_1i));
      [reflexivity|exact Hlen].
  - apply (counted_bounds _ (cs_cache_step cpuinfo_cache_level_1d));
      [reflexivity|exact Hlen].
  - apply (counted_bounds _ (cs_cache_step cpuinfo_cache_level_2));
      [reflexivity|exact Hlen].
  - apply (counted_bounds _ (cs_cache_step cpuinfo_cache_level_3));
      [reflexivity|exact Hlen].
  - apply (counted_bounds _ (cs_cache_step cpuinfo_cache_level_4));
      [reflexivity|exact Hlen].
Qed.

Lemma count_objects_bounded_witness :
  Forall (fun n => 0 <= n <= Z.of_nat (length cache_gap))
    [cores_count (cpuinfo_x86_count_objects cache_gap);
     packages_count (cpuinfo_x86_count_objects cache_gap);
     l1i_count (cpuinfo_x86_count_objects cache_gap);
     l1d_count (cpuinfo_x86_count_objects cache_gap);
     l2_count (cpuinfo_x86_count_objects cache_gap);
     l3_count (cpuinfo_x86_count_objects cache_gap);
     l4_count (cpuinfo_x86_count_objects cache_gap)].
Proof. apply (count_objects_bounded cache_gap). vm_compute. reflexivity. Defined.

(** ** Grouping by adjacency *)

Section Partitions.

Lemma partitions_app (rs1 rs2 : list (Z * Z)) (a c : Z) :
  partitions (rs1 ++ rs2) a c
  <-> exists b, partitions rs1 a b /\ partitions rs2 b c.
Proof.
  revert a. induction rs1 as [|[s n] rs1 IH]; intros a; cbn [app partitions].
  - split.
    + intros H. exists a. split; [reflexivity|exact H].
    + intros (b & -> & H). exact H.
  - rewrite IH. split.
    + intros (Hs & Hn & b & H1 & H2). exists b. repeat split; assumption.
    + intros (b & (Hs & Hn & H1) & H2). repeat split; try assumption.
      exists b. split; assumption.
Qed.

Lemma partitions_le (rs : list (Z * Z)) (a b : Z) : partitions rs a b -> a <= b.
Proof.
  revert a. induction rs as [|[s n] rs IH]; intros a; cbn [partitions].
  - lia.
  - intros (_ & Hn & H). apply IH in H. lia.
Qed.

Lemma partitions_snoc (rs : list (Z * Z)) (a b : Z) :
  partitions rs a b -> partitions (rs ++ [(b, 1)]) a (b + 1).
Proof.
  intros H. apply partitions_app. exists b. split; [exact H|].
  cbn [partitions]. lia.
Qed.

Lemma partitions_last (rs : list (Z * Z)) (s n a b : Z) :
  partitions (rs ++ [(s, n)]) a b -> a <= s /\ 0 < n /\ s + n = b.
Proof.
  intros H. apply partitions_app in H as (m & H1 & Hs & Hn & Hb).
  cbn [partitions] in Hb. apply partitions_le in H1. lia.
Qed.

Lemma partitions_extend (rs : list (Z * Z)) (s n a b : Z) :
  partitions (rs ++ [(s, n)]) a b -> partitions (rs ++ [(s, n + 1)]) a (b + 1).
Proof.
  intros H. apply partitions_app in H as (m & H1 & Hs & Hn & Hb).
  cbn [partitions] in Hb. apply partitions_app. exists m.
  split; [exact H1|]. cbn [partitions]. lia.
Qed.

Lemma partitions_length (rs : list (Z * Z)) (a b : Z) :
  partitions rs a b -> Z.of_nat (length rs) <= b - a.
Proof.
  revert a. induction rs as [|[s n] rs IH]; intros a; cbn [partitions length].
  - lia.
  - intros (_ & Hn & H). apply IH in H. lia.
Qed.

End Partitions.

Section Stores.

Context {A : Type}.

Lemma store_in_bounds (a : array_id) (f : A -> A) (i : Z) (l : list A) :
  0 <= i < Z.of_nat (length l) ->
  store a f i l = (alter f (Z.to_nat i) l, []).
Proof.
  intros Hi. unfold store, in_bounds.
  destruct (Z.leb_spec 0 i); [|lia].
  destruct (Z.ltb_spec i (Z.of_nat (length l))); [reflexivity|lia].
Qed.

Lemma store_length (a : array_id) (f : A -> A) (i : Z) (l : list A) :
  length (store a f i l).1 = length l.
Proof.
  unfold store. destruct (in_bounds l i); cbn [fst]; [|reflexivity].
  apply length_alter.
Qed.

Lemma store_faults (a : array_id) (f : A -> A) (i : Z) (l : list A) :
  Forall (fun x => fault_array x = a) (store a f i l).2.
Proof.
  unfold store. destruct (in_bounds l i); cbn [snd]; repeat constructor.
Qed.

Lemma store_lookup_ne (a : array_id) (f : A -> A) (i : Z) (l : list A)
    (j : nat) :
  i <> Z.of_nat j -> (store a f i l).1 !! j = l !! j.
Proof.
  intros Hne. unfold store. destruct (in_bounds l i) eqn:E; [|reflexivity].
  cbn [fst]. apply list_lookup_alter_ne.
  unfold in_bounds in E. apply andb_true_iff in E as [E _].
  apply Z.leb_le in E. lia.
Qed.

Variable range : A -> Z * Z.

Lemma map_alter_same (g : A -> A) (k : nat) (l : list A) :
  (forall a, range (g a) = range a) -> map range (alter g k l) = map range l.
Proof.
  intros Hg. revert k. induction l as [|a l IH]; intros [|k]; cbn;
    rewrite ?Hg, ?IH; reflexivity.
Qed.

Lemma group_inv_length (arr : list A) (index last : Z) (t : tracker) (i : Z) :
  group_inv range arr index last t i ->
  0 <= index < Z.of_nat (length arr) /\ 0 <= i.
Proof.
  intros (done & cur & rest & -> & -> & _ & _ & Hp).
  rewrite length_app. cbn [length]. apply partitions_le in Hp. lia.
Qed.

(** Another processor in the current record. *)
Lemma group_extend (f : A -> A) (arr : list A) (index last : Z)
    (t : tracker) (i id : Z) :
  group_inv range arr index last t i ->
  (forall a, range (f a) = ((range a).1, wrap32 ((range a).2 + 1))) ->
  id = last -> i + 1 < 2 ^ 32 ->
  group_inv range (alter f (Z.to_nat index) arr) index id (count_key id t)
    (i + 1).
Proof.
  intros (done & cur & rest & -> & -> & Hc & -> & Hp) Hf -> Hi.
  exists done, (f cur), rest. rewrite Nat2Z.id.
  replace (length done) with (length done + 0)%nat at 1 by lia.
  rewrite alter_app_r. cbn [alter list_alter].
  unfold count_key. rewrite Z.eqb_refl.
  repeat split; try assumption.
  rewrite map_app in Hp |- *. cbn [map] in Hp |- *. rewrite Hf.
  destruct (range cur) as [s n]. cbn [fst snd].
  pose proof (partitions_last _ _ _ _ _ Hp) as (Hs & Hn & Hb).
  rewrite wrap32_small by (unfold is_uint32; lia).
  apply partitions_extend, Hp.
Qed.

(** A new record right after the current one. *)
Lemma group_new (f : A -> A) (arr : list A) (index last : Z)
    (t : tracker) (i id total : Z) :
  group_inv range arr index last t i ->
  (forall a, range (f a) = (i, 1)) ->
  id <> last -> Z.of_nat (length arr) = total ->
  count t + 1 <= total -> i + 1 < 2 ^ 32 ->
  0 <= wrap32 (index + 1) < Z.of_nat (length arr)
  /\ group_inv range (alter f (Z.to_nat (wrap32 (index + 1))) arr)
       (wrap32 (index + 1)) id (count_key id t) (i + 1).
Proof.
  intros (done & cur & rest & -> & -> & Hc & -> & Hp) Hf Hne Hlen Hcount Htot.
  pose proof (partitions_length _ _ _ Hp) as Hk.
  rewrite length_map, length_app in Hk. cbn [length] in Hk.
  rewrite length_app in Hlen |- *. cbn [length] in Hlen |- *.
  rewrite wrap32_small by (unfold is_uint32; lia).
  split; [lia|].
  destruct rest as [|z rest]; [cbn [length] in Hlen; lia|].
  exists (done ++ [cur]), (f z), rest.
  replace (Z.to_nat (Z.of_nat (length done) + 1))
    with (length (done ++ [cur]) + 0)%nat
    by (rewrite length_app; cbn [length]; lia).
  replace (done ++ cur :: z :: rest) with ((done ++ [cur]) ++ z :: rest)
    by (rewrite <- app_assoc; reflexivity).
  rewrite alter_app_r. cbn [alter list_alter].
  unfold count_key. destruct (Z.eqb_spec id (last_id t)); [contradiction|].
  cbn [count last_id]. rewrite length_app. cbn [length].
  rewrite wrap32_small by (unfold is_uint32; lia).
  repeat split; try lia.
  rewrite map_app. cbn [map]. rewrite Hf. apply partitions_snoc, Hp.
Qed.

(** The first record, from the state the loop starts in. *)
Lemma group_start (name : array_id) (f : A -> A) (arr : list A) (id total : Z) :
  (forall a, range (f a) = (0, 1)) ->
  id <> UINT32_MAX -> Z.of_nat (length arr) = total -> 1 <= total ->
  let r := store name f (wrap32 (UINT32_MAX + 1)) arr in
  r.2 = [] /\ length r.1 = length arr
  /\ group_inv range r.1 (wrap32 (UINT32_MAX + 1)) id
       (count_key id tracker_init) 1.
Proof.
  intros Hf Hne Hlen Htot. cbv zeta. change (wrap32 (UINT32_MAX + 1)) with 0.
  rewrite store_in_bounds by lia. cbn [fst snd Z.to_nat].
  split; [reflexivity|]. split; [apply length_alter|].
  destruct arr as [|z arr]; [cbn [length] in Hlen; lia|].
  cbn [alter list_alter].
  exists [], (f z), arr.
  unfold count_key, tracker_init. cbn [last_id count].
  destruct (Z.eqb_spec id UINT32_MAX); [contradiction|].
  cbn [count last_id app length map]. rewrite Hf.
  repeat split; cbn [partitions]; lia.
Qed.

(** One iteration of the "new record or another processor" branch. *)
Lemma group_step (name : array_id) (f_ext f_new : A -> A) (arr : list A)
    (index last : Z) (t : tracker) (i id total : Z) :
  group_inv range arr index last t i ->
  (forall a, range (f_ext a) = ((range a).1, wrap32 ((range a).2 + 1))) ->
  (forall a, range (f_new a) = (i, 1)) ->
  Z.of_nat (length arr) = total -> i + 1 < 2 ^ 32 ->
  count (count_key id t) <= total ->
  let r := if id =? last then store name f_ext index arr
           else store name f_new (wrap32 (index + 1)) arr in
  let index' := if id =? last then index else wrap32 (index + 1) in
  r.2 = [] /\ length r.1 = length arr
  /\ group_inv range r.1 index' id (count_key id t) (i + 1).
Proof.
  intros Hinv Hext Hnew Hlen Hi Hcount. cbv zeta.
  pose proof (group_inv_length _ _ _ _ _ Hinv) as [Hidx Hi0].
  destruct (Z.eqb_spec id last) as [Heq|Hne].
  - rewrite store_in_bounds by exact Hidx. cbn [fst snd].
    split; [reflexivity|]. split; [apply length_alter|].
    apply (group_extend f_ext arr index last); assumption.
  - assert (count t + 1 <= total) as Hc.
    { destruct Hinv as (done & cur & rest & -> & -> & Hc & -> & Hp).
      apply partitions_length in Hp.
      rewrite length_map, length_app in Hp. cbn [length] in Hp.
      unfold count_key in Hcount.
      destruct (Z.eqb_spec id (last_id t)); [contradiction|].
      cbn [count] in Hcount.
      rewrite wrap32_small in Hcount by (unfold is_uint32; lia).
      rewrite length_app in Hlen. cbn [length] in Hlen. lia. }
    destruct (group_new f_new arr index last t i id total)
      as [Hb Hg]; try assumption.
    rewrite store_in_bounds by exact Hb. cbn [fst snd].
    split; [reflexivity|]. split; [apply length_alter|exact Hg].
Qed.

(** A store that leaves the ranges alone, or that goes to a record not
    yet in use, does not disturb the grouping. *)
Lemma group_alter_range (g : A -> A) (k : nat) (arr : list A)
    (index last : Z) (t : tracker) (i : Z) :
  group_inv range arr index last t i ->
  (forall a, range (g a) = range a) \/ (index < Z.of_nat k) ->
  group_inv range (alter g k arr) index last t i.
Proof.
  intros (done & cur & rest & -> & -> & Hc & -> & Hp) Hg.
  destruct (Nat.lt_ge_cases k (length done)) as [Hk|Hk].
  - destruct Hg as [Hg|Hg]; [|lia].
    rewrite alter_app_l by exact Hk.
    exists (alter g k done), cur, rest. rewrite length_alter.
    repeat split; try assumption.
    rewrite map_app in Hp |- *.
    rewrite map_alter_same by exact Hg. exact Hp.
  - replace k with (length done + (k - length done))%nat by lia.
    rewrite alter_app_r.
    destruct (k - length done)%nat as [|m] eqn:E.
    + destruct Hg as [Hg|Hg]; [|lia]. cbn [alter list_alter].
      exists done, (g cur), rest. repeat split; try assumption.
      rewrite map_app in Hp |- *. cbn [map] in Hp |- *. rewrite Hg. exact Hp.
    + cbn [alter list_alter].
      exists done, cur, (alter g m rest). repeat split; assumption.
Qed.

End Stores.

(** ** Cores and packages of the build loop *)

Section TopologyStep.

Variable normalize : string -> string.

Lemma counted_snoc (pre : list cpuinfo_x86_processor) (x : cpuinfo_x86_processor) :
  counted (pre ++ [x]) = count_step (counted pre) x.
Proof. unfold counted. rewrite fold_left_app. reflexivity. Qed.

Lemma counted_all (xs : list cpuinfo_x86_processor) :
  cores_count (cpuinfo_x86_count_objects xs) = count (cs_core (counted xs))
  /\ packages_count (cpuinfo_x86_count_objects xs)
     = count (cs_package (counted xs)).
Proof. split; reflexivity. Qed.

(** The counts after [pre ++ [x]] do not exceed the final counts. *)
Lemma counted_step_le (xs pre post : list cpuinfo_x86_processor)
    (x : cpuinfo_x86_processor) :
  xs = pre ++ x :: post -> Z.of_nat (length xs) < 2 ^ 32 ->
  count (cs_core (count_step (counted pre) x))
  <= cores_count (cpuinfo_x86_count_objects xs)
  /\ count (cs_package (count_step (counted pre) x))
     <= packages_count (cpuinfo_x86_count_objects xs).
Proof.
  intros Hxs Hlen. destruct (counted_all xs) as [-> ->].
  rewrite <- counted_snoc.
  replace xs with ((pre ++ [x]) ++ post) in *
    by (rewrite <- app_assoc; symmetry; exact Hxs).
  split.
  - apply (counted_prefix_le cs_core cs_core_step); [reflexivity|exact Hlen].
  - apply (counted_prefix_le cs_package cs_package_step);
      [reflexivity|exact Hlen].
Qed.

Lemma topology_step_inv (xs pre post : list cpuinfo_x86_processor)
    (x : cpuinfo_x86_processor) (t : topology_state) :
  xs = pre ++ x :: post ->
  Z.of_nat (length xs) < 2 ^ 32 ->
  first_ids_regular xs ->
  topology_inv xs pre t ->
  (topology_step normalize (Z.of_nat (length pre)) x t).2 = []
  /\ topology_inv xs (pre ++ [x])
       (topology_step normalize (Z.of_nat (length pre)) x t).1.
Proof.
  intros Hxs Hlen Hreg (HlenC & HlenP & Hinv).
  destruct (counted_step_le xs pre post x Hxs Hlen) as [HC HP].
  assert (0 <= cores_count (cpuinfo_x86_count_objects xs)
          <= Z.of_nat (length xs)) as HC0
    by (apply (counted_bounds cs_core cs_core_step); [reflexivity|exact Hlen]).
  assert (0 <= packages_count (cpuinfo_x86_count_objects xs)
          <= Z.of_nat (length xs)) as HP0
    by (apply (counted_bounds cs_package cs_package_step);
        [reflexivity|exact Hlen]).
  assert (Z.of_nat (length pre) + 1 < 2 ^ 32) as Hi.
  { rewrite Hxs, length_app in Hlen. cbn [length] in Hlen. lia. }
  assert (Z.of_nat (length (ts_cores t))
          = cores_count (cpuinfo_x86_count_objects xs)) as HlenC'
    by (rewrite HlenC; lia).
  assert (Z.of_nat (length (ts_packages t))
          = packages_count (cpuinfo_x86_count_objects xs)) as HlenP'
    by (rewrite HlenP; lia).
  unfold topology_inv. cbv zeta.
  rewrite counted_snoc. cbn [count_step cs_core cs_package] in HC, HP |- *.
  replace (Z.of_nat (length (pre ++ [x]))) with (Z.of_nat (length pre) + 1)
    by (rewrite length_app; cbn [length]; lia).
  unfold topology_step. cbv zeta.
  set (i := Z.of_nat (length pre)) in *.
  destruct pre as [|p0 pre'].
  - (* the first descriptor *)
    subst t. cbn [build_init b_topology ts_cores ts_packages core_index
                  package_index last_core_id last_package_id] in *.
    destruct (Hreg x) as [Hcore Hpkg]; [rewrite Hxs; reflexivity|].
    destruct (Z.eqb_spec (core_id_of x) UINT32_MAX); [contradiction|].
    destruct (Z.eqb_spec (package_id_of x) UINT32_MAX); [contradiction|].
    unfold counted in HC, HP |- *.
    cbn [fold_left count_state_init cs_core cs_package] in HC, HP |- *.
    assert (1 <= cores_count (cpuinfo_x86_count_objects xs)) as HC1.
    { unfold count_key, tracker_init in HC. cbn [last_id count] in HC.
      destruct (Z.eqb_spec (core_id_of x) UINT32_MAX); [contradiction|].
      exact HC. }
    assert (1 <= packages_count (cpuinfo_x86_count_objects xs)) as HP1.
    { unfold count_key, tracker_init in HP. cbn [last_id count] in HP.
      destruct (Z.eqb_spec (package_id_of x) UINT32_MAX); [contradiction|].
      exact HP. }
    destruct (group_start core_range arr_cores
                (fun _ => new_core i (wrap32 (UINT32_MAX + 1)) x)
                (calloc_elems (cores_count (cpuinfo_x86_count_objects xs))
                   Core.zero)
                (core_id_of x) _ (fun _ => eq_refl) Hcore HlenC' HC1)
      as (Hf1 & Hl1 & Hg1).
    assert (0 <= wrap32 (UINT32_MAX + 1)
            < Z.of_nat
                (length
                   (calloc_elems
                      (packages_count (cpuinfo_x86_count_objects xs))
                      Package.zero))) as Hb2.
    { change (wrap32 (UINT32_MAX + 1)) with 0. lia. }
    rewrite (store_in_bounds arr_packages Package.add_core) by exact Hb2.
    cbn [fst snd].
    destruct (group_start package_range arr_packages
                (Package.start i (wrap32 (UINT32_MAX + 1))
                   (normalize (x_brand_string x)))
                (alter Package.add_core (Z.to_nat (wrap32 (UINT32_MAX + 1)))
                   (calloc_elems
                      (packages_count (cpuinfo_x86_count_objects xs))
                      Package.zero))
                (package_id_of x)
                (packages_count (cpuinfo_x86_count_objects xs))
                (fun _ => eq_refl) Hpkg
                ltac:(rewrite length_alter; exact HlenP') HP1)
      as (Hf3 & Hl3 & Hg3).
    rewrite length_alter in Hl3.
    cbn [fst snd ts_cores ts_packages core_index package_index last_core_id
         last_package_id].
    rewrite Hf1, Hf3, Hl1, Hl3.
    split; [reflexivity|].
    split; [exact HlenC|]. split; [exact HlenP|].
    cbn [app]. split; assumption.
  - (* a later descriptor *)
    destruct Hinv as [Gc Gp].
    cbn [app].
    pose proof (group_step core_range arr_cores Core.add_processor
                  (fun _ => new_core i
                              (if package_id_of x =? last_package_id t
                               then package_index t
                               else wrap32 (package_index t + 1)) x)
                  (ts_cores t) (core_index t) (last_core_id t)
                  (cs_core (counted (p0 :: pre'))) i (core_id_of x) _
                  Gc (fun _ => eq_refl) (fun _ => eq_refl) HlenC' Hi HC)
      as Hcores.
    pose proof (group_step package_range arr_packages Package.add_processor
                  (Package.start i
                     (if core_id_of x =? last_core_id t then core_index t
                      else wrap32 (core_index t + 1))
                     (normalize (x_brand_string x)))
                  (ts_packages t) (package_index t) (last_package_id t)
                  (cs_package (counted (p0 :: pre'))) i (package_id_of x) _
                  Gp (fun _ => eq_refl) (fun _ => eq_refl) HlenP' Hi HP)
      as Hpk.
    cbv zeta in Hcores, Hpk.
    destruct Hcores as (Hf1 & Hl1 & Hg1).
    (* the package index after the iteration is inside the array *)
    assert (0 <= (if package_id_of x =? last_package_id t
                  then package_index t
                  else wrap32 (package_index t + 1))
            < Z.of_nat (length (ts_packages t))) as Hpidx.
    { destruct Hpk as (_ & Hl & Hg).
      apply group_inv_length in Hg as [Hg _]. rewrite Hl in Hg. exact Hg. }
    destruct (core_id_of x =? last_core_id t) eqn:Ec.
    + (* same core: the package array is only extended or started *)
      destruct Hpk as (Hf3 & Hl3 & Hg3).
      cbn [fst snd ts_cores ts_packages core_index package_index
           last_core_id last_package_id].
      destruct (package_id_of x =? last_package_id t) eqn:Ep;
        rewrite Hf1, Hf3, Hl1, Hl3; repeat split; assumption.
    + (* new core: its package gets one more core first *)
      clear Hpk.
      rewrite (store_in_bounds arr_packages Package.add_core) by exact Hpidx.
      cbn [fst snd].
      pose proof (group_step package_range arr_packages Package.add_processor
                    (Package.start i (wrap32 (core_index t + 1))
                       (normalize (x_brand_string x)))
                    (alter Package.add_core
                       (Z.to_nat (if package_id_of x =? last_package_id t
                                  then package_index t
                                  else wrap32 (package_index t + 1)))
                       (ts_packages t))
                    (package_index t) (last_package_id t)
                    (cs_package (counted (p0 :: pre'))) i (package_id_of x)
                    (packages_count (cpuinfo_x86_count_objects xs))
                    (group_alter_range package_range Package.add_core _ _ _ _
                       _ _ Gp (or_introl (fun _ => eq_refl)))
                    (fun _ => eq_refl) (fun _ => eq_refl)
                    ltac:(rewrite length_alter; exact HlenP') Hi HP)
        as Hpk.
      cbv zeta in Hpk. destruct Hpk as (Hf3 & Hl3 & Hg3).
      rewrite length_alter in Hl3.
      cbn [fst snd ts_cores ts_packages core_index package_index
           last_core_id last_package_id].
      destruct (package_id_of x =? last_package_id t) eqn:Ep;
        rewrite Hf1, Hf3, Hl1, Hl3; repeat split; assumption.
Qed.

End TopologyStep.

(** ** Invariants of the whole build loop *)

Section BuildInvariants.

Variable normalize : string -> string.

(** Induction over the descriptors already processed. *)
Lemma build_loop_prefix_ind (xs : list cpuinfo_x86_processor)
    (P : list cpuinfo_x86_processor -> build_state -> Prop) (s0 : build_state) :
  P [] s0 ->
  (forall pre x post s,
      xs = pre ++ x :: post -> P pre s ->
      P (pre ++ [x]) (build_step normalize (Z.of_nat (length pre)) x s)) ->
  P xs (build_loop normalize 0 xs s0).
Proof.
  intros H0 Hstep.
  assert (forall post pre s,
             xs = pre ++ post -> P pre s ->
             P xs (build_loop normalize (Z.of_nat (length pre)) post s)) as H.
  { induction post as [|x post IH]; intros pre s Hxs Hs.
    - rewrite app_nil_r in Hxs. subst pre. exact Hs.
    - cbn [build_loop].
      replace (Z.of_nat (length pre) + 1)
        with (Z.of_nat (length (pre ++ [x])))
        by (rewrite length_app; cbn [length]; lia).
      apply IH.
      + rewrite <- app_assoc. exact Hxs.
      + eapply Hstep; eassumption. }
  apply (H xs [] s0); [reflexivity|exact H0].
Qed.

(** What one cache block does to the processor array: nothing when the
    level is absent, one store to element [i] otherwise. *)
Lemma cache_step_processors (level : cpuinfo_cache_level) (i apic : Z)
    (c : cpuinfo_x86_cache) (ps : list Processor.t * cache_state * list fault) :
  (cache_step level i apic c ps).1.1
  = if xc_size c =? 0 then ps.1.1
    else (store arr_processors
            (Processor.set_cache level (cache_index ps.1.2)) i ps.1.1).1.
Proof.
  unfold cache_step. cbv zeta. destruct (xc_size c =? 0); [reflexivity|].
  destruct (_ =? cache_last_id _); reflexivity.
Qed.

Lemma cache_step_length (level : cpuinfo_cache_level) (i apic : Z)
    (c : cpuinfo_x86_cache) (ps : list Processor.t * cache_state * list fault) :
  length (cache_step level i apic c ps).1.1 = length ps.1.1.
Proof.
  rewrite cache_step_processors. destruct (xc_size c =? 0); [reflexivity|].
  apply store_length.
Qed.

(** The faults of a cache block are those it found, and stores outside
    the level's own array; the store to the processor array is inside it
    whenever [i] is. *)
Lemma cache_step_faults (level : cpuinfo_cache_level) (i apic : Z)
    (c : cpuinfo_x86_cache) (ps : list Processor.t * cache_state * list fault) :
  0 <= i < Z.of_nat (length ps.1.1) ->
  Forall (fun f => topology_array (fault_array f) = false) ps.2 ->
  Forall (fun f => topology_array (fault_array f) = false)
    (cache_step level i apic c ps).2.
Proof.
  intros Hi Hps. unfold cache_step. cbv zeta.
  destruct (xc_size c =? 0); [exact Hps|].
  rewrite (store_in_bounds arr_processors) by exact Hi. cbn [fst snd app].
  destruct (_ =? cache_last_id _); cbn [snd]; apply Forall_app; split;
    try exact Hps;
    (eapply Forall_impl; [apply store_faults|]);
    intros f ->; reflexivity.
Qed.

Lemma build_step_topology (i : Z) (x : cpuinfo_x86_processor) (s : build_state) :
  b_topology (build_step normalize i x s)
  = (topology_step normalize i x (b_topology s)).1.
Proof. reflexivity. Qed.

Lemma build_step_length (i : Z) (x : cpuinfo_x86_processor) (s : build_state) :
  length (b_processors (build_step normalize i x s)) = length (b_processors s).
Proof.
  unfold build_step. cbv zeta. cbn [b_processors].
  repeat (rewrite cache_step_length; cbn [fst]). apply store_length.
Qed.

Lemma build_init_topology_inv (xs : list cpuinfo_x86_processor) :
  Z.of_nat (length xs) < 2 ^ 32 ->
  topology_inv xs []
    (b_topology (build_init (Z.of_nat (length xs))
                   (cpuinfo_x86_count_objects xs))).
Proof.
  intros Hlen. unfold topology_inv. cbv zeta.
  cbn [build_init b_topology ts_cores ts_packages].
  unfold calloc_elems. rewrite !length_replicate. repeat split.
Qed.

(** After the loop the topology invariant holds for the whole array. *)
Lemma build_topology_inv (xs : list cpuinfo_x86_processor) :
  Z.of_nat (length xs) < 2 ^ 32 -> first_ids_regular xs ->
  topology_inv xs xs (b_topology (build normalize xs)).
Proof.
  intros Hlen Hreg. unfold build.
  apply (build_loop_prefix_ind xs
           (fun pre s => topology_inv xs pre (b_topology s))).
  - apply build_init_topology_inv, Hlen.
  - intros pre x post s Hxs Hinv. rewrite build_step_topology.
    eapply topology_step_inv; eassumption.
Qed.

Lemma group_inv_full {A} (range : A -> Z * Z) (arr : list A)
    (index last : Z) (t : tracker) (i : Z) :
  group_inv range arr index last t i ->
  length arr = Z.to_nat (count t) ->
  partitions (map range arr) 0 i.
Proof.
  intros (done & cur & rest & -> & -> & Hc & _ & Hp) Hlen.
  rewrite length_app in Hlen. cbn [length] in Hlen.
  destruct rest as [|z rest]; [exact Hp|]. cbn [length] in Hlen. lia.
Qed.

End BuildInvariants.

(** The processor ranges of the cores, and of the packages, after the
    loop. *)
Lemma build_partitions (normalize : string -> string)
    (xs : list cpuinfo_x86_processor) :
  Z.of_nat (length xs) < 2 ^ 32 -> first_ids_regular xs ->
  partitions (map core_range (ts_cores (b_topology (build normalize xs))))
    0 (Z.of_nat (length xs))
  /\ partitions
       (map package_range (ts_packages (b_topology (build normalize xs))))
       0 (Z.of_nat (length xs)).
Proof.
  intros Hlen Hreg.
  destruct (build_topology_inv normalize xs Hlen Hreg) as (HlenC & HlenP & H).
  destruct (counted_all xs) as [HC HP]. rewrite HC in HlenC. rewrite HP in HlenP.
  destruct xs as [|x xs'].
  - rewrite H. split; reflexivity.
  - destruct H as [Gc Gp]. split; eapply group_inv_full; eassumption.
Qed.

(** The loop leaves the processors array with one record per
    descriptor. *)
Lemma build_processors_length (normalize : string -> string)
    (xs : list cpuinfo_x86_processor) :
  length (b_processors (build normalize xs)) = length xs.
Proof.
  unfold build.
  apply (build_loop_prefix_ind normalize xs
           (fun _ s => length (b_processors s) = length xs)).
  - cbn [build_init b_processors]. unfold calloc_elems.
    rewrite length_replicate. lia.
  - intros pre x post s _ Hs. rewrite build_step_length. exact Hs.
Qed.


(** ** Recorded faults *)

Section Faults.

Variable normalize : string -> string.

(** A cache block only adds to the faults it found. *)
Lemma cache_step_faults_app (level : cpuinfo_cache_level) (i apic : Z)
    (c : cpuinfo_x86_cache) (ps : list Processor.t * cache_state * list fault) :
  exists extra, (cache_step level i apic c ps).2 = ps.2 ++ extra.
Proof.
  unfold cache_step. cbv zeta.
  destruct (xc_size c =? 0); [exists []; rewrite app_nil_r; reflexivity|].
  destruct (_ =? cache_last_id _); cbn [snd]; eexists; reflexivity.
Qed.

(** The faults after one iteration: those before it, those of the core
    and package part, of the processor store and of the two lookup
    table stores, and those of the cache blocks. *)
Lemma build_step_faults_app (i : Z) (x : cpuinfo_x86_processor)
    (s : build_state) :
  exists extra,
    b_faults (build_step normalize i x s)
    = b_faults s
      ++ (topology_step normalize i x (b_topology s)).2
      ++ (store arr_processors
            (processor_topology x (topology_step normalize i x (b_topology s)).1)
            i (b_processors s)).2
      ++ (store arr_linux_cpu_to_processor_map (fun _ => Some i)
            (x_linux_id x) (b_linux_cpu_to_processor_map s)).2
      ++ (store arr_linux_cpu_to_core_map
            (fun _ => Some (core_index
                              (topology_step normalize i x (b_topology s)).1))
            (x_linux_id x) (b_linux_cpu_to_core_map s)).2
      ++ extra.
Proof.
  unfold build_step. cbv zeta. cbn [b_faults].
  repeat match goal with
         | |- context [ (cache_step ?l ?j ?a ?c ?ps).2 ] =>
             destruct (cache_step_faults_app l j a c ps) as [? ->];
             cbn [snd]
         end.
  eexists. rewrite <- !app_assoc. reflexivity.
Qed.

Lemma build_loop_faults_app (xs : list cpuinfo_x86_processor) (i : Z)
    (s : build_state) :
  exists extra, b_faults (build_loop normalize i xs s) = b_faults s ++ extra.
Proof.
  revert i s. induction xs as [|x xs IH]; intros i s.
  - exists []. rewrite app_nil_r. reflexivity.
  - cbn [build_loop]. destruct (IH (i + 1) (build_step normalize i x s))
      as [e1 ->].
    destruct (build_step_faults_app i x s) as [e2 ->].
    eexists. rewrite <- !app_assoc. reflexivity.
Qed.

(** Induction over the descriptors already processed, for a run that
    records no fault: no iteration records one. *)
Lemma build_loop_prefix_ind_defined (xs : list cpuinfo_x86_processor)
    (P : list cpuinfo_x86_processor -> build_state -> Prop) (s0 : build_state) :
  b_faults (build_loop normalize 0 xs s0) = [] ->
  P [] s0 ->
  (forall pre x post s,
      xs = pre ++ x :: post -> P pre s ->
      b_faults (build_step normalize (Z.of_nat (length pre)) x s) = [] ->
      P (pre ++ [x]) (build_step normalize (Z.of_nat (length pre)) x s)) ->
  P xs (build_loop normalize 0 xs s0).
Proof.
  intros Hnone H0 Hstep.
  assert (forall post pre s,
             xs = pre ++ post -> P pre s ->
             b_faults (build_loop normalize (Z.of_nat (length pre)) post s)
             = [] ->
             P xs (build_loop normalize (Z.of_nat (length pre)) post s)) as H.
  { induction post as [|x post IH]; intros pre s Hxs Hs Hf.
    - rewrite app_nil_r in Hxs. subst pre. exact Hs.
    - cbn [build_loop] in Hf |- *.
      replace (Z.of_nat (length pre) + 1)
        with (Z.of_nat (length (pre ++ [x]))) in Hf |- *
        by (rewrite length_app; cbn [length]; lia).
      apply IH.
      + rewrite <- app_assoc. exact Hxs.
      + eapply Hstep; [eassumption..|].
        destruct (build_loop_faults_app post
                    (Z.of_nat (length (pre ++ [x])))
                    (build_step normalize (Z.of_nat (length pre)) x s))
          as [e He].
        rewrite He in Hf. apply app_eq_nil in Hf as [Hf _]. exact Hf.
      + exact Hf. }
  apply (H xs [] s0); [reflexivity|exact H0|exact Hnone].
Qed.

(** A store that records no fault is inside its array. *)
Lemma store_no_fault {A} (a : array_id) (f : A -> A) (i : Z) (l : list A) :
  (store a f i l).2 = [] -> 0 <= i < Z.of_nat (length l).
Proof.
  unfold store, in_bounds.
  destruct (Z.leb_spec 0 i), (Z.ltb_spec i (Z.of_nat (length l)));
    cbn [andb snd]; intros Hf; try discriminate Hf; lia.
Qed.

Lemma store_fault {A} (a : array_id) (f : A -> A) (i : Z) (l : list A) :
  ~ 0 <= i < Z.of_nat (length l) ->
  (store a f i l).2 = [{| fault_array := a; fault_index := i |}].
Proof.
  intros Hout. unfold store, in_bounds.
  destruct (Z.leb_spec 0 i), (Z.ltb_spec i (Z.of_nat (length l)));
    cbn [andb snd]; try reflexivity; lia.
Qed.

(** A run that records no fault starts from a descriptor whose core and
    package ids are not the sentinel: with the sentinel the first
    iteration would count a processor into the record at index
    0xFFFFFFFF. *)
Lemma no_fault_first_ids_regular (xs : list cpuinfo_x86_processor) :
  Z.of_nat (length xs) < 2 ^ 32 ->
  b_faults (build normalize xs) = [] -> first_ids_regular xs.
Proof.
  intros Hlen Hnone x Hx. destruct xs as [|x0 xs']; [discriminate Hx|].
  injection Hx as ->. unfold build in Hnone. cbn [build_loop] in Hnone.
  destruct (build_loop_faults_app xs' (0 + 1)
              (build_step normalize 0 x
                 (build_init (Z.of_nat (length (x :: xs')))
                    (cpuinfo_x86_count_objects (x :: xs'))))) as [e1 He1].
  rewrite He1 in Hnone. apply app_eq_nil in Hnone as [Hnone _].
  destruct (build_step_faults_app 0 x
              (build_init (Z.of_nat (length (x :: xs')))
                 (cpuinfo_x86_count_objects (x :: xs')))) as [e2 He2].
  rewrite He2 in Hnone.
  apply app_eq_nil in Hnone as [_ Hnone].
  apply app_eq_nil in Hnone as [Htopo _].
  pose proof (counted_bounds cs_core cs_core_step (x :: xs') eq_refl Hlen)
    as HC.
  pose proof (counted_bounds cs_package cs_package_step (x :: xs') eq_refl
                Hlen) as HP.
  destruct (counted_all (x :: xs')) as [EC EP].
  revert Htopo. unfold topology_step. cbv zeta.
  cbn [build_init b_topology ts_cores ts_packages core_index package_index
       last_core_id last_package_id snd fst].
  unfold calloc_elems.
  intros Htopo. apply app_eq_nil in Htopo as [Hc Hp].
  apply app_eq_nil in Hp as [_ Hp].
  split.
  - intros Heq. rewrite Heq, Z.eqb_refl in Hc.
    apply store_no_fault in Hc. rewrite length_replicate in Hc.
    unfold UINT32_MAX in Hc. lia.
  - intros Heq. rewrite Heq, Z.eqb_refl in Hp.
    apply store_no_fault in Hp.
    destruct (core_id_of x =? UINT32_MAX);
      cbn [fst] in Hp; rewrite ?store_length, length_replicate in Hp;
      unfold UINT32_MAX in Hp; lia.
Qed.

Lemma run_defined_regular (xs : list cpuinfo_x86_processor) :
  Z.of_nat (length xs) < 2 ^ 32 -> run_defined normalize xs ->
  first_ids_regular xs.
Proof. intros Hlen [_ Hnone]. apply no_fault_first_ids_regular; assumption. Qed.

(** A store to a lookup table at an OS id outside the table leaves its
    fault in the run. *)
Lemma lookup_table_faults (xs : list cpuinfo_x86_processor) (j : nat)
    (x : cpuinfo_x86_processor) :
  xs !! j = Some x ->
  (~ 0 <= x_linux_id x < Z.of_nat (length xs) ->
   processor_map_fault x ∈ b_faults (build normalize xs))
  /\ (~ 0 <= x_linux_id x < cores_count (cpuinfo_x86_count_objects xs) ->
      core_map_fault x ∈ b_faults (build normalize xs)).
Proof.
  revert j x. unfold build.
  apply (build_loop_prefix_ind normalize xs
           (fun pre s =>
              length (b_linux_cpu_to_processor_map s) = length xs
              /\ length (b_linux_cpu_to_core_map s)
                 = Z.to_nat (cores_count (cpuinfo_x86_count_objects xs))
              /\ forall j x,
                  pre !! j = Some x ->
                  (~ 0 <= x_linux_id x < Z.of_nat (length xs) ->
                   processor_map_fault x ∈ b_faults s)
                  /\ (~ 0 <= x_linux_id x
                        < cores_count (cpuinfo_x86_count_objects xs) ->
                      core_map_fault x ∈ b_faults s))).
  - cbn [build_init b_linux_cpu_to_processor_map b_linux_cpu_to_core_map].
    unfold calloc_elems. rewrite !length_replicate, Nat2Z.id.
    split; [reflexivity|]. split; [reflexivity|].
    intros j x Hx. rewrite lookup_nil in Hx. discriminate.
  - intros pre x post s Hxs (Hlp & Hlc & Hdone).
    split; [cbn [build_step b_linux_cpu_to_processor_map];
            rewrite store_length; exact Hlp|].
    split; [cbn [build_step b_linux_cpu_to_core_map];
            rewrite store_length; exact Hlc|].
    destruct (build_step_faults_app (Z.of_nat (length pre)) x s) as [e ->].
    intros j y Hy.
    destruct (Nat.lt_ge_cases j (length pre)) as [Hlt|Hge].
    + rewrite lookup_app_l in Hy by exact Hlt.
      destruct (Hdone j y Hy) as [Hp Hc].
      split; intros Hout; apply elem_of_app; left; auto.
    + rewrite lookup_app_r in Hy by exact Hge.
      destruct (j - length pre)%nat as [|k] eqn:E;
        [|rewrite lookup_cons, lookup_nil in Hy; discriminate].
      injection Hy as <-.
      split; intros Hout.
      * rewrite (store_fault arr_linux_cpu_to_processor_map)
          by (rewrite Hlp; exact Hout).
        rewrite !elem_of_app, list_elem_of_singleton. auto 10.
      * rewrite (store_fault arr_linux_cpu_to_core_map)
          by (rewrite Hlc; lia).
        rewrite !elem_of_app, list_elem_of_singleton. auto 10.
Qed.

(** In a run that records no fault every OS id lies inside both lookup
    tables. *)
Lemma no_fault_linux_ids (xs : list cpuinfo_x86_processor) (j : nat)
    (x : cpuinfo_x86_processor) :
  b_faults (build normalize xs) = [] -> xs !! j = Some x ->
  0 <= x_linux_id x < Z.of_nat (length xs)
  /\ 0 <= x_linux_id x < cores_count (cpuinfo_x86_count_objects xs).
Proof.
  intros Hnone Hx. destruct (lookup_table_faults xs j x Hx) as [Hp Hc].
  rewrite Hnone in Hp, Hc.
  split.
  - destruct (decide (0 <= x_linux_id x < Z.of_nat (length xs)))
      as [H|H]; [exact H|].
    apply Hp, elem_of_nil in H. contradiction.
  - destruct (decide (0 <= x_linux_id x
                      < cores_count (cpuinfo_x86_count_objects xs)))
      as [H|H]; [exact H|].
    apply Hc, elem_of_nil in H. contradiction.
Qed.

End Faults.

(** ** The core lookup table on multithreaded cores *)




(** X6. For every run of the build loop in which every shift is defined
    and no store falls outside its array, the loop leaves in the cores
    array, and in the packages array, records whose processor ranges
    follow one another without gap or overlap from processor 0 to the
    last processor, each range holding at least one processor. *)
Theorem cores_and_packages_partition_processors
    (normalize : string -> string) (xs : list cpuinfo_x86_processor) :
  Z.of_nat (length xs) < 2 ^ 32 -> run_defined normalize xs ->
  partitions (map core_range (ts_cores (b_topology (build normalize xs))))
    0 (Z.of_nat (length xs))
  /\ partitions
       (map package_range (ts_packages (b_topology (build normalize xs))))
       0 (Z.of_nat (length xs)).
Proof.
  intros Hlen Hrun. apply build_partitions; [exact Hlen|].
  apply (run_defined_regular normalize); assumption.
Qed.

Lemma cores_and_packages_partition_processors_witness :
  partitions
    (map core_range
       (ts_cores (b_topology (build id four_cores_two_packages))))
    0 (Z.of_nat (length four_cores_two_packages))
  /\ partitions
       (map package_range
          (ts_packages (b_topology (build id four_cores_two_packages))))
       0 (Z.of_nat (length four_cores_two_packages)).
Proof.
  apply (cores_and_packages_partition_processors id four_cores_two_packages).
  - vm_compute. reflexivity.
  - split; vm_compute; reflexivity.
Defined.

(** X7. For every descriptor array whose first descriptor does not carry
    the sentinel as core or package id, the build loop never stores
    outside the processors, cores or packages arrays: every
    out-of-bounds store it can make goes to a lookup table or to a cache
    array. *)
Theorem topology_stores_in_bounds
    (normalize : string -> string) (xs : list cpuinfo_x86_processor) :
  Z.of_nat (length xs) < 2 ^ 32 -> first_ids_regular xs ->
  Forall (fun f => topology_array (fault_array f) = false)
    (b_faults (build normalize xs)).
Proof.
  intros Hlen Hreg. unfold build.
  apply (build_loop_prefix_ind normalize xs
           (fun pre s =>
              topology_inv xs pre (b_topology s)
              /\ length (b_processors s) = length xs
              /\ Forall (fun f => topology_array (fault_array f) = false)
                   (b_faults s))).
  - split; [apply build_init_topology_inv, Hlen|].
    cbn [build_init b_processors b_faults]. unfold calloc_elems.
    rewrite length_replicate. split; [lia|constructor].
  - intros pre x post s Hxs (Hinv & Hps & Hf).
    destruct (topology_step_inv normalize xs pre post x (b_topology s)
                Hxs Hlen Hreg Hinv) as [Ht Hinv'].
    split; [rewrite build_step_topology; exact Hinv'|].
    split; [rewrite build_step_length; exact Hps|].
    assert (0 <= Z.of_nat (length pre) < Z.of_nat (length (b_processors s)))
      as Hi.
    { rewrite Hps, Hxs, length_app. cbn [length]. lia. }
    unfold build_step. cbv zeta. cbn [b_faults].
    repeat (apply cache_step_faults;
            [cbn [fst snd]; repeat (rewrite cache_step_length; cbn [fst]);
             rewrite store_length; exact Hi|]).
    cbn [fst snd]. rewrite Ht.
    rewrite (store_in_bounds arr_processors) by exact Hi. cbn [fst snd app].
    repeat (apply Forall_app; split); try exact Hf;
      (eapply Forall_impl; [apply store_faults|]); intros f ->; reflexivity.
Qed.

Lemma topology_stores_in_bounds_witness :
  Forall (fun f => topology_array (fault_array f) = false)
    (b_faults (build id cache_gap)).
Proof.
  apply (topology_stores_in_bounds id cache_gap).
  - vm_compute. reflexivity.
  - intros x Hx. injection Hx as <-. vm_compute. split; discriminate.
Defined.

(** ** Processor records and lookup tables *)

Section ProcessorStores.

Variable normalize : string -> string.

Lemma cache_step_lookup_ne (level : cpuinfo_cache_level) (i apic : Z)
    (c : cpuinfo_x86_cache) (ps : list Processor.t * cache_state * list fault)
    (j : nat) :
  i <> Z.of_nat j -> (cache_step level i apic c ps).1.1 !! j = ps.1.1 !! j.
Proof.
  intros Hne. rewrite cache_step_processors.
  destruct (xc_size c =? 0); [reflexivity|]. apply store_lookup_ne, Hne.
Qed.

(** A cache block keeps the topology fields of processor [i] and the
    references of the other levels; when its level is absent it keeps
    the whole record. *)
Lemma cache_step_lookup_eq (level : cpuinfo_cache_level) (apic : Z)
    (c : cpuinfo_x86_cache) (ps : list Processor.t * cache_state * list fault)
    (j : nat) (q : Processor.t) :
  ps.1.1 !! j = Some q ->
  exists q',
    (cache_step level (Z.of_nat j) apic c ps).1.1 !! j = Some q'
    /\ processor_ids q' = processor_ids q
    /\ (forall l, l <> level -> Processor.cache l q' = Processor.cache l q)
    /\ (xc_size c = 0 -> q' = q).
Proof.
  intros Hq. rewrite cache_step_processors.
  destruct (Z.eqb_spec (xc_size c) 0) as [Hz|Hnz].
  - exists q. split; [exact Hq|]. repeat split.
  - rewrite store_in_bounds
      by (apply lookup_lt_Some in Hq; lia).
    cbn [fst]. rewrite Nat2Z.id, list_lookup_alter_eq, Hq. cbn [fmap option_fmap option_map].
    eexists. split; [reflexivity|]. split; [reflexivity|].
    split; [|intros Hz; contradiction].
    intros l Hl. destruct l, level; try reflexivity; contradiction.
Qed.

Lemma build_step_lookup_ne (i : Z) (x : cpuinfo_x86_processor)
    (s : build_state) (j : nat) :
  i <> Z.of_nat j ->
  b_processors (build_step normalize i x s) !! j = b_processors s !! j.
Proof.
  intros Hne. unfold build_step. cbv zeta. cbn [b_processors].
  repeat (rewrite cache_step_lookup_ne by exact Hne; cbn [fst]).
  apply store_lookup_ne, Hne.
Qed.

(** The record iteration [j] leaves at [processors[j]], for a record
    that was [q] before. *)
Lemma build_step_lookup_eq (j : nat) (x : cpuinfo_x86_processor)
    (s : build_state) (q : Processor.t) :
  b_processors s !! j = Some q ->
  exists p,
    b_processors (build_step normalize (Z.of_nat j) x s) !! j = Some p
    /\ processor_ids p
       = (smt_id_of x,
          Some (core_index (b_topology (build_step normalize (Z.of_nat j) x s))),
          Some (package_index
                  (b_topology (build_step normalize (Z.of_nat j) x s))),
          x_linux_id x, apic_id (x_topology x))
    /\ (forall level,
           xc_size (x_cache_level level x) = 0 ->
           Processor.cache level p = Processor.cache level q).
Proof.
  intros Hq. unfold build_step. cbv zeta. cbn [b_processors b_topology].
  set (topo := topology_step normalize (Z.of_nat j) x (b_topology s)).
  set (procs := store arr_processors (processor_topology x topo.1)
                  (Z.of_nat j) (b_processors s)).
  assert (procs.1 !! j = Some (processor_topology x topo.1 q)) as H0.
  { subst procs. rewrite store_in_bounds by (apply lookup_lt_Some in Hq; lia).
    cbn [fst]. rewrite Nat2Z.id, list_lookup_alter_eq, Hq. reflexivity. }
  match goal with
  | |- context [cache_step cpuinfo_cache_level_1i _ _ _
                  (cache_step cpuinfo_cache_level_1i _ ?a ?c ?ps)] =>
      destruct (cache_step_lookup_eq cpuinfo_cache_level_1i a c ps j _ H0)
        as (q1 & H1 & Hid1 & Ho1 & Hz1);
      set (c1 := cache_step cpuinfo_cache_level_1i (Z.of_nat j) a c ps) in *
  end.
  match goal with
  | |- context [cache_step cpuinfo_cache_level_1i _ ?a ?c c1] =>
      destruct (cache_step_lookup_eq cpuinfo_cache_level_1i a c c1 j _ H1)
        as (q2 & H2 & Hid2 & Ho2 & Hz2);
      set (c2 := cache_step cpuinfo_cache_level_1i (Z.of_nat j) a c c1) in *
  end.
  match goal with
  | |- context [cache_step cpuinfo_cache_level_1d _ ?a ?c ?ps] =>
      destruct (cache_step_lookup_eq cpuinfo_cache_level_1d a c ps j _ H2)
        as (q3 & H3 & Hid3 & Ho3 & Hz3);
      set (c3 := cache_step cpuinfo_cache_level_1d (Z.of_nat j) a c ps) in *
  end.
  match goal with
  | |- context [cache_step cpuinfo_cache_level_2 _ ?a ?c ?ps] =>
      destruct (cache_step_lookup_eq cpuinfo_cache_level_2 a c ps j _ H3)
        as (q4 & H4 & Hid4 & Ho4 & Hz4);
      set (c4 := cache_step cpuinfo_cache_level_2 (Z.of_nat j) a c ps) in *
  end.
  match goal with
  | |- context [cache_step cpuinfo_cache_level_3 _ ?a ?c ?ps] =>
      destruct (cache_step_lookup_eq cpuinfo_cache_level_3 a c ps j _ H4)
        as (q5 & H5 & Hid5 & Ho5 & Hz5);
      set (c5 := cache_step cpuinfo_cache_level_3 (Z.of_nat j) a c ps) in *
  end.
  match goal with
  | |- context [cache_step cpuinfo_cache_level_4 _ ?a ?c ?ps] =>
      destruct (cache_step_lookup_eq cpuinfo_cache_level_4 a c ps j _ H5)
        as (q6 & H6 & Hid6 & Ho6 & Hz6)
  end.
  exists q6. split; [exact H6|]. split.
  - rewrite Hid6, Hid5, Hid4, Hid3, Hid2, Hid1. reflexivity.
  - intros level Hz.
    assert (Processor.cache level (processor_topology x topo.1 q)
            = Processor.cache level q) as <- by (destruct level; reflexivity).
    destruct level; cbn [x_cache_level] in Hz.
    + rewrite (Ho6 cpuinfo_cache_level_1i), (Ho5 cpuinfo_cache_level_1i),
        (Ho4 cpuinfo_cache_level_1i), (Ho3 cpuinfo_cache_level_1i)
        by discriminate.
      rewrite (Hz2 Hz), (Hz1 Hz). reflexivity.
    + rewrite (Ho6 cpuinfo_cache_level_1d), (Ho5 cpuinfo_cache_level_1d),
        (Ho4 cpuinfo_cache_level_1d) by discriminate.
      rewrite (Hz3 Hz), (Ho2 cpuinfo_cache_level_1d),
        (Ho1 cpuinfo_cache_level_1d) by discriminate. reflexivity.
    + rewrite (Ho6 cpuinfo_cache_level_2), (Ho5 cpuinfo_cache_level_2)
        by discriminate.
      rewrite (Hz4 Hz), (Ho3 cpuinfo_cache_level_2),
        (Ho2 cpuinfo_cache_level_2), (Ho1 cpuinfo_cache_level_2)
        by discriminate. reflexivity.
    + rewrite (Ho6 cpuinfo_cache_level_3) by discriminate.
      rewrite (Hz5 Hz), (Ho4 cpuinfo_cache_level_3),
        (Ho3 cpuinfo_cache_level_3), (Ho2 cpuinfo_cache_level_3),
        (Ho1 cpuinfo_cache_level_3) by discriminate. reflexivity.
    + rewrite (Hz6 Hz), (Ho5 cpuinfo_cache_level_4),
        (Ho4 cpuinfo_cache_level_4), (Ho3 cpuinfo_cache_level_4),
        (Ho2 cpuinfo_cache_level_4), (Ho1 cpuinfo_cache_level_4)
        by discriminate. reflexivity.
Qed.

End ProcessorStores.

(** X8. For every run of the build loop in which every shift is defined
    and no store falls outside its array, the processor records are in
    the order of the sorted descriptors: record [j] carries the OS id
    and the hierarchical identifier of descriptor [j] and its SMT index,
    and its reference for every cache level whose size the descriptor
    reports as 0 is absent. *)
Theorem processor_records_follow_descriptors
    (normalize : string -> string) (xs : list cpuinfo_x86_processor)
    (j : nat) (x : cpuinfo_x86_processor) :
  run_defined normalize xs ->
  xs !! j = Some x ->
  exists p,
    b_processors (build normalize xs) !! j = Some p
    /\ Processor.linux_id p = x_linux_id x
    /\ Processor.apic_id p = apic_id (x_topology x)
    /\ Processor.smt_id p = smt_id_of x
    /\ (forall level,
           xc_size (x_cache_level level x) = 0 ->
           Processor.cache level p = None).
Proof.
  intros _. revert j x. unfold build.
  apply (build_loop_prefix_ind normalize xs
           (fun pre s =>
              length (b_processors s) = length xs
              /\ (forall j, (length pre <= j < length xs)%nat ->
                            b_processors s !! j = Some Processor.zero)
              /\ forall j x,
                  pre !! j = Some x ->
                  exists p,
                    b_processors s !! j = Some p
                    /\ Processor.linux_id p = x_linux_id x
                    /\ Processor.apic_id p = apic_id (x_topology x)
                    /\ Processor.smt_id p = smt_id_of x
                    /\ (forall level,
                           xc_size (x_cache_level level x) = 0 ->
                           Processor.cache level p = None))).
  - cbn [build_init b_processors]. unfold calloc_elems.
    rewrite length_replicate, Nat2Z.id. split; [reflexivity|]. split.
    + intros j Hj. apply lookup_replicate_2. lia.
    + intros j x Hx. rewrite lookup_nil in Hx. discriminate.
  - intros pre x post s Hxs (Hlen & Hzero & Hdone).
    split; [rewrite build_step_length; exact Hlen|]. split.
    + intros j Hj. rewrite length_app in Hj. cbn [length] in Hj.
      rewrite build_step_lookup_ne by lia. apply Hzero. lia.
    + intros j y Hy.
      destruct (Nat.lt_ge_cases j (length pre)) as [Hlt|Hge].
      * rewrite lookup_app_l in Hy by exact Hlt.
        rewrite build_step_lookup_ne by lia. apply Hdone, Hy.
      * rewrite lookup_app_r in Hy by exact Hge.
        destruct (j - length pre)%nat as [|k] eqn:E;
          [|rewrite lookup_cons, lookup_nil in Hy; discriminate].
        injection Hy as <-. assert (j = length pre) as -> by lia.
        destruct (build_step_lookup_eq normalize (length pre) x s
                    Processor.zero) as (p & Hp & Hid & Hc).
        { apply Hzero. rewrite Hxs, length_app. cbn [length]. lia. }
        exists p. split; [exact Hp|].
        unfold processor_ids in Hid. injection Hid as Hsmt _ _ Hlid Hapic.
        repeat split; try assumption.
        intros level Hz. rewrite (Hc level Hz). destruct level; reflexivity.
Qed.

Lemma processor_records_follow_descriptors_witness :
  exists p,
    b_processors (build id four_cores_two_packages) !! 3%nat = Some p
    /\ Processor.linux_id p = 3
    /\ Processor.apic_id p = 3
    /\ Processor.smt_id p = smt_id_of (single_threaded_core 3)
    /\ (forall level,
           xc_size (x_cache_level level (single_threaded_core 3)) = 0 ->
           Processor.cache level p = None).
Proof.
  apply (processor_records_follow_descriptors id four_cores_two_packages 3
           (single_threaded_core 3)).
  - split; vm_compute; reflexivity.
  - reflexivity.
Defined.

(** Each lookup table answers for every OS id that lies inside its
    allocation. *)
Lemma lookup_tables_inside_allocation
    (normalize : string -> string) (xs : list cpuinfo_x86_processor)
    (j : nat) (x : cpuinfo_x86_processor) :
  NoDup (map x_linux_id xs) ->
  xs !! j = Some x ->
  (0 <= x_linux_id x < Z.of_nat (length xs) ->
   b_linux_cpu_to_processor_map (build normalize xs)
     !! Z.to_nat (x_linux_id x) = Some (Some (Z.of_nat j)))
  /\ (0 <= x_linux_id x < cores_count (cpuinfo_x86_count_objects xs) ->
      exists p,
        b_processors (build normalize xs) !! j = Some p
        /\ b_linux_cpu_to_core_map (build normalize xs)
             !! Z.to_nat (x_linux_id x) = Some (Processor.core p)).
Proof.
  intros Hnd. revert j x. unfold build.
  apply (build_loop_prefix_ind normalize xs
           (fun pre s =>
              length (b_processors s) = length xs
              /\ length (b_linux_cpu_to_processor_map s) = length xs
              /\ length (b_linux_cpu_to_core_map s)
                 = Z.to_nat (cores_count (cpuinfo_x86_count_objects xs))
              /\ forall j x,
                  pre !! j = Some x ->
                  (0 <= x_linux_id x < Z.of_nat (length xs) ->
                   b_linux_cpu_to_processor_map s
                     !! Z.to_nat (x_linux_id x) = Some (Some (Z.of_nat j)))
                  /\ (0 <= x_linux_id x
                      < cores_count (cpuinfo_x86_count_objects xs) ->
                      exists p,
                        b_processors s !! j = Some p
                        /\ b_linux_cpu_to_core_map s
                             !! Z.to_nat (x_linux_id x)
                           = Some (Processor.core p)))).
  - cbn [build_init b_processors b_linux_cpu_to_processor_map
         b_linux_cpu_to_core_map]. unfold calloc_elems.
    rewrite !length_replicate, Nat2Z.id. repeat split; try reflexivity.
    all: rewrite lookup_nil in H; discriminate.
  - intros pre x post s Hxs (Hlen & Hlp & Hlc & Hdone).
    split; [rewrite build_step_length; exact Hlen|].
    split; [cbn [build_step b_linux_cpu_to_processor_map];
            rewrite store_length; exact Hlp|].
    split; [cbn [build_step b_linux_cpu_to_core_map];
            rewrite store_length; exact Hlc|].
    intros j y Hy.
    destruct (Nat.lt_ge_cases j (length pre)) as [Hlt|Hge].
    + (* an earlier processor: its entries are not overwritten *)
      rewrite lookup_app_l in Hy by exact Hlt.
      assert (x_linux_id x <> x_linux_id y) as Hne.
      { rewrite Hxs, map_app in Hnd. cbn [map] in Hnd.
        apply NoDup_app in Hnd as (_ & Hnd & _).
        intros Heq. apply (Hnd (x_linux_id y)).
        - apply list_elem_of_In, in_map, list_elem_of_In.
          eapply list_elem_of_lookup_2, Hy.
        - rewrite Heq. left. }
      destruct (Hdone j y Hy) as [Hp Hc].
      cbn [build_step b_linux_cpu_to_processor_map b_linux_cpu_to_core_map].
      split.
      * intros Hb. rewrite store_lookup_ne by lia. apply Hp, Hb.
      * intros Hb. destruct (Hc Hb) as (p & Hpj & Hcj). exists p.
        rewrite build_step_lookup_ne by lia. split; [exact Hpj|].
        rewrite store_lookup_ne by lia. exact Hcj.
    + (* the processor of this iteration *)
      rewrite lookup_app_r in Hy by exact Hge.
      destruct (j - length pre)%nat as [|k] eqn:E;
        [|rewrite lookup_cons, lookup_nil in Hy; discriminate].
      injection Hy as <-. assert (j = length pre) as -> by lia.
      split.
      * intros Hb. cbn [build_step b_linux_cpu_to_processor_map].
        rewrite store_in_bounds by (rewrite Hlp; exact Hb). cbn [fst].
        rewrite list_lookup_alter_eq.
        destruct (lookup_lt_is_Some_2 (b_linux_cpu_to_processor_map s)
                    (Z.to_nat (x_linux_id x))) as [v ->]; [lia|].
        reflexivity.
      * intros Hb.
        destruct (lookup_lt_is_Some_2 (b_processors s) (length pre))
          as [q Hq].
        { rewrite Hlen, Hxs, length_app. cbn [length]. lia. }
        destruct (build_step_lookup_eq normalize (length pre) x s q Hq)
          as (p & Hp & Hid & _).
        exists p. split; [exact Hp|].
        unfold processor_ids in Hid. injection Hid as _ Hcore _ _ _.
        rewrite Hcore.
        cbn [build_step b_linux_cpu_to_core_map b_topology].
        rewrite store_in_bounds by (rewrite Hlc; lia). cbn [fst].
        rewrite list_lookup_alter_eq.
        destruct (lookup_lt_is_Some_2 (b_linux_cpu_to_core_map s)
                    (Z.to_nat (x_linux_id x))) as [v ->]; [lia|].
        reflexivity.
Qed.


(** X9. For every run of the build loop in which every shift is defined
    and no store falls outside its array, and whose descriptors carry
    pairwise distinct OS ids, both lookup tables answer for the OS id
    of every processor: [linux_cpu_to_processor_map] holds the index of
    the processor with that OS id, and [linux_cpu_to_core_map] holds
    the core that this processor's record references. *)
Theorem lookup_tables_answer_inside_allocation
    (normalize : string -> string) (xs : list cpuinfo_x86_processor)
    (j : nat) (x : cpuinfo_x86_processor) :
  run_defined normalize xs ->
  NoDup (map x_linux_id xs) ->
  xs !! j = Some x ->
  b_linux_cpu_to_processor_map (build normalize xs)
    !! Z.to_nat (x_linux_id x) = Some (Some (Z.of_nat j))
  /\ exists p,
       b_processors (build normalize xs) !! j = Some p
       /\ b_linux_cpu_to_core_map (build normalize xs)
            !! Z.to_nat (x_linux_id x) = Some (Processor.core p).
Proof.
  intros [_ Hnone] Hnd Hx.
  destruct (no_fault_linux_ids normalize xs j x Hnone Hx) as [Hp Hc].
  destruct (lookup_tables_inside_allocation normalize xs j x Hnd Hx)
    as [H1 H2].
  split; [exact (H1 Hp)|exact (H2 Hc)].
Qed.

Lemma lookup_tables_answer_inside_allocation_witness :
  b_linux_cpu_to_processor_map (build id four_cores_two_packages)
    !! Z.to_nat (x_linux_id (single_threaded_core 2))
  = Some (Some (Z.of_nat 2))
  /\ exists p,
       b_processors (build id four_cores_two_packages) !! 2%nat = Some p
       /\ b_linux_cpu_to_core_map (build id four_cores_two_packages)
            !! Z.to_nat (x_linux_id (single_threaded_core 2))
          = Some (Processor.core p).
Proof.
  apply (lookup_tables_answer_inside_allocation id four_cores_two_packages 2
           (single_threaded_core 2)).
  - split; vm_compute; reflexivity.
  - cbn [four_cores_two_packages map single_threaded_core descriptor
         x_linux_id].
    repeat constructor; rewrite ?elem_of_cons, ?elem_of_nil;
      intuition discriminate.
  - reflexivity.
Defined.

(** ** Back-references of the processor records *)

Section References.

Context {A : Type}.
Variable range : A -> Z * Z.

Lemma ref_ok_store_same (name : array_id) (g : A -> A) (k : Z)
    (arr : list A) (index : Z) (ref : option Z) (j : Z) :
  (forall a, range (g a) = range a) ->
  ref_ok range arr index ref j ->
  ref_ok range (store name g k arr).1 index ref j.
Proof.
  intros Hg (k0 & c & -> & Hk & Hc & Hj). unfold store.
  destruct (in_bounds arr k);
    [|exists k0, c; split; [reflexivity|]; split; [exact Hk|];
      split; assumption].
  cbn [fst]. destruct (decide (Z.to_nat k = k0)) as [<-|Hne].
  - exists (Z.to_nat k), (g c). rewrite list_lookup_alter_eq, Hc, Hg.
    split; [reflexivity|]. split; [exact Hk|]. split; [reflexivity|exact Hj].
  - exists k0, c. rewrite list_lookup_alter_ne by exact Hne.
    split; [reflexivity|]. split; [exact Hk|]. split; assumption.
Qed.

Lemma group_inv_store_same (name : array_id) (g : A -> A) (k : Z)
    (arr : list A) (index last : Z) (t : tracker) (i : Z) :
  (forall a, range (g a) = range a) ->
  group_inv range arr index last t i ->
  group_inv range (store name g k arr).1 index last t i.
Proof.
  intros Hg Hinv. unfold store. destruct (in_bounds arr k); [|exact Hinv].
  cbn [fst]. apply group_alter_range; [exact Hinv|left; exact Hg].
Qed.

(** The record in use after an iteration holds the processor of that
    iteration. *)
Lemma ref_ok_current (arr : list A) (index last : Z) (t : tracker) (i : Z) :
  group_inv range arr index last t (i + 1) ->
  ref_ok range arr index (Some index) i.
Proof.
  intros (done & cur & rest & -> & -> & _ & _ & Hp).
  exists (length done), cur.
  rewrite map_app in Hp. cbn [map] in Hp.
  destruct (range cur) as [s n] eqn:E.
  apply partitions_last in Hp as (Hs & Hn & Hb).
  split; [reflexivity|]. split; [lia|]. split.
  - rewrite lookup_app_r by lia. rewrite Nat.sub_diag. reflexivity.
  - unfold in_processor_range. cbn [fst snd]. lia.
Qed.

(** An iteration keeps every earlier reference good: the record it
    points to is untouched or has grown. *)
Lemma ref_ok_step (name : array_id) (f_ext f_new : A -> A) (arr : list A)
    (index last : Z) (t : tracker) (i id : Z) (ref : option Z) (j : Z) :
  group_inv range arr index last t i ->
  (forall a, range (f_ext a) = ((range a).1, wrap32 ((range a).2 + 1))) ->
  i + 1 < 2 ^ 32 ->
  ref_ok range arr index ref j ->
  ref_ok range
    (if id =? last then store name f_ext index arr
     else store name f_new (wrap32 (index + 1)) arr).1
    (if id =? last then index else wrap32 (index + 1)) ref j.
Proof.
  intros Hinv Hext Hi (k & c & -> & Hk & Hc & Hj).
  pose proof (group_inv_length _ _ _ _ _ _ Hinv) as [Hidx Hi0].
  destruct Hinv as (done & cur & rest & -> & -> & Hcnt & -> & Hp).
  pose proof (partitions_length _ _ _ Hp) as Hlen.
  rewrite length_map, length_app in Hlen. cbn [length] in Hlen.
  destruct (id =? last_id t).
  - rewrite store_in_bounds by exact Hidx. cbn [fst]. rewrite Nat2Z.id.
    destruct (decide (k = length done)) as [->|Hne].
    + rewrite lookup_app_r in Hc by lia. rewrite Nat.sub_diag in Hc.
      injection Hc as <-.
      exists (length done), (f_ext cur).
      rewrite list_lookup_alter_eq, lookup_app_r by lia.
      rewrite Nat.sub_diag. cbn [lookup list_lookup fmap option_fmap option_map].
      split; [reflexivity|]. split; [lia|]. split; [reflexivity|].
      unfold in_processor_range in *. rewrite Hext. cbn [fst snd].
      rewrite map_app in Hp. cbn [map] in Hp.
      destruct (range cur) as [s n]. cbn [fst snd] in *.
      apply partitions_last in Hp as (Hs & Hn & Hb).
      rewrite wrap32_small by (unfold is_uint32; lia). lia.
    + exists k, c. rewrite list_lookup_alter_ne by lia.
      split; [reflexivity|]. split; [exact Hk|]. split; assumption.
  - rewrite wrap32_small by (unfold is_uint32; lia).
    exists k, c. rewrite store_lookup_ne by lia.
    split; [reflexivity|]. split; [lia|]. split; assumption.
Qed.

End References.

Section TopologyReferences.

Variable normalize : string -> string.

(** One iteration keeps the core and package references of the earlier
    processors good. *)
Lemma topology_step_refs (xs pre post : list cpuinfo_x86_processor)
    (x : cpuinfo_x86_processor) (t : topology_state)
    (rc rp : option Z) (j : Z) :
  xs = pre ++ x :: post -> Z.of_nat (length xs) < 2 ^ 32 ->
  pre <> [] -> topology_inv xs pre t ->
  ref_ok core_range (ts_cores t) (core_index t) rc j ->
  ref_ok package_range (ts_packages t) (package_index t) rp j ->
  ref_ok core_range
    (ts_cores (topology_step normalize (Z.of_nat (length pre)) x t).1)
    (core_index (topology_step normalize (Z.of_nat (length pre)) x t).1) rc j
  /\ ref_ok package_range
       (ts_packages (topology_step normalize (Z.of_nat (length pre)) x t).1)
       (package_index (topology_step normalize (Z.of_nat (length pre)) x t).1)
       rp j.
Proof.
  intros Hxs Hlen Hpre (_ & _ & Hinv) Hrc Hrp.
  destruct pre as [|p0 pre']; [contradiction|]. destruct Hinv as [Gc Gp].
  assert (Z.of_nat (length (p0 :: pre')) + 1 < 2 ^ 32) as Hi.
  { rewrite Hxs, length_app in Hlen. cbn [length] in Hlen |- *. lia. }
  set (i := Z.of_nat (length (p0 :: pre'))) in *.
  unfold topology_step. cbv zeta.
  cbn [fst ts_cores ts_packages core_index package_index].
  split.
  - pose proof (ref_ok_step core_range arr_cores Core.add_processor
                  (fun _ => new_core i
                              (if package_id_of x =? last_package_id t
                               then package_index t
                               else wrap32 (package_index t + 1)) x)
                  (ts_cores t) (core_index t) (last_core_id t) _ i
                  (core_id_of x) rc j Gc (fun _ => eq_refl) Hi Hrc) as H.
    destruct (core_id_of x =? last_core_id t); exact H.
  - destruct (core_id_of x =? last_core_id t); cbn [fst].
    + pose proof (ref_ok_step package_range arr_packages
                    Package.add_processor
                    (Package.start i (core_index t)
                       (normalize (x_brand_string x)))
                    (ts_packages t) (package_index t) (last_package_id t) _ i
                    (package_id_of x) rp j Gp (fun _ => eq_refl) Hi Hrp) as H.
      destruct (package_id_of x =? last_package_id t); exact H.
    + pose proof (ref_ok_step package_range arr_packages
                    Package.add_processor
                    (Package.start i (wrap32 (core_index t + 1))
                       (normalize (x_brand_string x)))
                    (store arr_packages Package.add_core
                       (if package_id_of x =? last_package_id t
                        then package_index t
                        else wrap32 (package_index t + 1))
                       (ts_packages t)).1
                    (package_index t) (last_package_id t) _ i
                    (package_id_of x) rp j
                    (group_inv_store_same package_range arr_packages
                       Package.add_core _ _ _ _ _ _ (fun _ => eq_refl) Gp)
                    (fun _ => eq_refl) Hi
                    (ref_ok_store_same package_range arr_packages
                       Package.add_core _ _ _ _ _ (fun _ => eq_refl) Hrp))
        as H.
      destruct (package_id_of x =? last_package_id t); exact H.
Qed.

(** The references written in an iteration are good after it. *)
Lemma topology_inv_current (xs pre : list cpuinfo_x86_processor)
    (x : cpuinfo_x86_processor) (t : topology_state) :
  topology_inv xs (pre ++ [x]) t ->
  ref_ok core_range (ts_cores t) (core_index t) (Some (core_index t))
    (Z.of_nat (length pre))
  /\ ref_ok package_range (ts_packages t) (package_index t)
       (Some (package_index t)) (Z.of_nat (length pre)).
Proof.
  intros (_ & _ & Hinv).
  replace (Z.of_nat (length (pre ++ [x]))) with (Z.of_nat (length pre) + 1)
    in Hinv by (rewrite length_app; cbn [length]; lia).
  destruct pre as [|p0 pre']; cbn [app] in Hinv; destruct Hinv as [Gc Gp];
    split; eapply ref_ok_current; eassumption.
Qed.

End TopologyReferences.

(** X10. For every run of the build loop in which every shift is
    defined and no store falls outside its array, the core reference
    and the package reference of every processor record point to
    records in use whose processor ranges hold that processor. *)
Theorem processor_references_hold_processor
    (normalize : string -> string) (xs : list cpuinfo_x86_processor)
    (j : nat) (p : Processor.t) :
  Z.of_nat (length xs) < 2 ^ 32 -> run_defined normalize xs ->
  b_processors (build normalize xs) !! j = Some p ->
  ref_ok core_range (ts_cores (b_topology (build normalize xs)))
    (core_index (b_topology (build normalize xs)))
    (Processor.core p) (Z.of_nat j)
  /\ ref_ok package_range (ts_packages (b_topology (build normalize xs)))
       (package_index (b_topology (build normalize xs)))
       (Processor.package p) (Z.of_nat j).
Proof.
  intros Hlen Hrun.
  pose proof (run_defined_regular normalize xs Hlen Hrun) as Hreg.
  assert (length (b_processors (build normalize xs)) = length xs
          /\ forall j p,
              (j < length xs)%nat ->
              b_processors (build normalize xs) !! j = Some p ->
              ref_ok core_range (ts_cores (b_topology (build normalize xs)))
                (core_index (b_topology (build normalize xs)))
                (Processor.core p) (Z.of_nat j)
              /\ ref_ok package_range
                   (ts_packages (b_topology (build normalize xs)))
                   (package_index (b_topology (build normalize xs)))
                   (Processor.package p) (Z.of_nat j)) as [Hl H].
  2: { intros Hp. apply H; [|exact Hp].
       apply lookup_lt_Some in Hp. rewrite Hl in Hp. exact Hp. }
  unfold build.
  pose proof (build_loop_prefix_ind normalize xs
           (fun pre s =>
              topology_inv xs pre (b_topology s)
              /\ length (b_processors s) = length xs
              /\ forall j p,
                  (j < length pre)%nat ->
                  b_processors s !! j = Some p ->
                  ref_ok core_range (ts_cores (b_topology s))
                    (core_index (b_topology s)) (Processor.core p)
                    (Z.of_nat j)
                  /\ ref_ok package_range (ts_packages (b_topology s))
                       (package_index (b_topology s)) (Processor.package p)
                       (Z.of_nat j))) as Hind.
  cbv beta in Hind. refine (proj2 (Hind _ _ _)).
  - split; [apply build_init_topology_inv, Hlen|].
    cbn [build_init b_processors]. unfold calloc_elems.
    rewrite length_replicate, Nat2Z.id. split; [reflexivity|].
    intros j0 p0 Hj. cbn [length] in Hj. lia.
  - clear j p. intros pre x post s Hxs (Hinv & Hps & Hrefs).
    destruct (topology_step_inv normalize xs pre post x (b_topology s)
                Hxs Hlen Hreg Hinv) as [_ Hinv'].
    split; [rewrite build_step_topology; exact Hinv'|].
    split; [rewrite build_step_length; exact Hps|].
    intros j p Hj Hp. rewrite length_app in Hj. cbn [length] in Hj.
    rewrite build_step_topology.
    destruct (Nat.lt_ge_cases j (length pre)) as [Hlt|Hge].
    + rewrite build_step_lookup_ne in Hp by lia.
      destruct (Hrefs j p Hlt Hp) as [Hc Hk].
      eapply topology_step_refs; try eassumption.
      intros ->. cbn [length] in Hlt. lia.
    + assert (j = length pre) as -> by lia.
      destruct (lookup_lt_is_Some_2 (b_processors s) (length pre))
        as [q Hq].
      { rewrite Hps, Hxs, length_app. cbn [length]. lia. }
      destruct (build_step_lookup_eq normalize (length pre) x s q Hq)
        as (p' & Hp' & Hid & _).
      rewrite Hp' in Hp. injection Hp as <-.
      unfold processor_ids in Hid. injection Hid as _ Hcore Hpkg _ _.
      rewrite Hcore, Hpkg, ?build_step_topology.
      eapply topology_inv_current. exact Hinv'.
Qed.

Lemma processor_references_hold_processor_witness :
  ref_ok core_range
    (ts_cores (b_topology (build id four_cores_two_packages)))
    (core_index (b_topology (build id four_cores_two_packages)))
    (Some 2) (Z.of_nat 2)
  /\ ref_ok package_range
       (ts_packages (b_topology (build id four_cores_two_packages)))
       (package_index (b_topology (build id four_cores_two_packages)))
       (Some 1) (Z.of_nat 2).
Proof.
  assert (exists p,
             b_processors (build id four_cores_two_packages) !! 2%nat = Some p
             /\ Processor.core p = Some 2
             /\ Processor.package p = Some 1) as (p & Hp & <- & <-).
  { eexists. split; [vm_compute; reflexivity|]. split; reflexivity. }
  apply (processor_references_hold_processor id four_cores_two_packages 2 p).
  - vm_compute. reflexivity.
  - split; vm_compute; reflexivity.
  - exact Hp.
Defined.

(** ** Cache levels that every processor has *)

Section CacheLevels.

Variable normalize : string -> string.

(** With a non-zero size, the bookkeeping of a cache block is the "new
    record or another processor" step on the level's array. *)
Lemma cache_step_state (level : cpuinfo_cache_level) (i apic : Z)
    (c : cpuinfo_x86_cache) (procs : list Processor.t) (cs : cache_state)
    (fs : list fault) :
  xc_size c <> 0 ->
  let id := derive_cache_id apic (xc_apic_bits c) in
  let r := if id =? cache_last_id cs
           then store (arr_cache level) Cache.add_processor (cache_index cs)
                  (cache_array cs)
           else store (arr_cache level) (fun _ => new_cache i c)
                  (wrap32 (cache_index cs + 1)) (cache_array cs) in
  cache_array (cache_step level i apic c (procs, cs, fs)).1.2 = r.1
  /\ cache_index (cache_step level i apic c (procs, cs, fs)).1.2
     = (if id =? cache_last_id cs then cache_index cs
        else wrap32 (cache_index cs + 1))
  /\ cache_last_id (cache_step level i apic c (procs, cs, fs)).1.2 = id
  /\ (cache_step level i apic c (procs, cs, fs)).2
     = fs ++ (store arr_processors
                (Processor.set_cache level (cache_index cs)) i procs).2
          ++ r.2.
Proof.
  intros Hnz. cbv zeta. unfold cache_step. cbv zeta. cbn [fst snd].
  destruct (Z.eqb_spec (xc_size c) 0); [contradiction|].
  destruct (Z.eqb_spec (derive_cache_id apic (xc_apic_bits c))
              (cache_last_id cs)) as [Heq|Hne];
    cbn [fst snd cache_array cache_index cache_last_id];
    repeat split; try reflexivity. symmetry. exact Heq.
Qed.

(** The faults of any cache block are on the processors array or on
    the block's own array. *)
Lemma cache_step_fault_arrays (level : cpuinfo_cache_level) (i apic : Z)
    (c : cpuinfo_x86_cache) (ps : list Processor.t * cache_state * list fault)
    (P : fault -> Prop) :
  (forall f, fault_array f = arr_processors \/ fault_array f = arr_cache level
             -> P f) ->
  Forall P ps.2 -> Forall P (cache_step level i apic c ps).2.
Proof.
  intros HP Hps. unfold cache_step. cbv zeta.
  destruct (xc_size c =? 0); [exact Hps|].
  destruct (_ =? cache_last_id _); cbn [snd];
    repeat (apply Forall_app; split); try exact Hps;
    (eapply Forall_impl; [apply store_faults|]); intros f Hf; apply HP;
    rewrite Hf; auto.
Qed.

Lemma topology_step_fault_arrays (i : Z) (x : cpuinfo_x86_processor)
    (t : topology_state) :
  Forall (fun f => fault_array f = arr_cores \/ fault_array f = arr_packages)
    (topology_step normalize i x t).2.
Proof.
  unfold topology_step. cbv zeta. cbn [snd].
  repeat (apply Forall_app; split);
    repeat match goal with
           | |- context [if ?b then _ else _] => destruct b
           end;
    cbn [snd]; try (apply Forall_nil_2);
    (eapply Forall_impl; [apply store_faults|]); intros f ->; auto.
Qed.

Lemma cs_cache_count_step (level : cpuinfo_cache_level) (s : count_state)
    (x : cpuinfo_x86_processor) :
  count (cs_cache level (count_step s x)) = count (cs_cache level s)
  \/ count (cs_cache level (count_step s x))
     = wrap32 (count (cs_cache level s) + 1).
Proof. destruct level; apply count_cache_step. Qed.

Lemma cs_cache_present (level : cpuinfo_cache_level) (s : count_state)
    (x : cpuinfo_x86_processor) :
  xc_size (x_cache_level level x) <> 0 ->
  cs_cache level (count_step s x)
  = count_key (cache_id_of level x) (cs_cache level s).
Proof.
  intros Hnz.
  assert (forall c t, xc_size c <> 0 ->
            count_cache (apic_id (x_topology x)) c t
            = count_key (derive_cache_id (apic_id (x_topology x))
                           (xc_apic_bits c)) t) as H.
  { intros c t Hc. unfold count_cache.
    destruct (Z.eqb_spec (xc_size c) 0); [contradiction|reflexivity]. }
  destruct level; cbn [cs_cache count_step cs_l1i cs_l1d cs_l2 cs_l3 cs_l4];
    apply H, Hnz.
Qed.

Lemma cache_count_counted (level : cpuinfo_cache_level)
    (xs : list cpuinfo_x86_processor) :
  cache_count level (cpuinfo_x86_count_objects xs)
  = count (cs_cache level (counted xs)).
Proof. destruct level; reflexivity. Qed.

(** One cache block of a level that every descriptor has. *)
Lemma cache_level_step_inv (level : cpuinfo_cache_level)
    (xs pre post : list cpuinfo_x86_processor) (x : cpuinfo_x86_processor)
    (procs : list Processor.t) (cs : cache_state) (fs : list fault) :
  xs = pre ++ x :: post -> Z.of_nat (length xs) < 2 ^ 32 ->
  level_present level xs -> cache_inv level xs pre cs ->
  cache_inv level xs (pre ++ [x])
    (cache_step level (Z.of_nat (length pre)) (apic_id (x_topology x))
       (x_cache_level level x) (procs, cs, fs)).1.2
  /\ (0 <= Z.of_nat (length pre) < Z.of_nat (length procs) ->
      (cache_step level (Z.of_nat (length pre)) (apic_id (x_topology x))
         (x_cache_level level x) (procs, cs, fs)).2 = fs).
Proof.
  intros Hxs Hlen [Hall Hhead] (Hl & Hinv).
  assert (xc_size (x_cache_level level x) <> 0) as Hnz.
  { rewrite Forall_forall in Hall. apply Hall. rewrite Hxs.
    apply elem_of_app. right. left. }
  set (total := cache_count level (cpuinfo_x86_count_objects xs)) in *.
  assert (count (cs_cache level (count_step (counted pre) x)) <= total) as HC.
  { subst total. rewrite cache_count_counted, <- counted_snoc.
    replace xs with ((pre ++ [x]) ++ post)
      by (rewrite <- app_assoc; symmetry; exact Hxs).
    apply (counted_prefix_le (cs_cache level) (cs_cache_count_step level));
      [destruct level; reflexivity|].
    replace ((pre ++ [x]) ++ post) with xs
      by (rewrite <- app_assoc; exact Hxs). exact Hlen. }
  assert (0 <= total) as H0.
  { subst total. rewrite cache_count_counted.
    apply (counted_bounds (cs_cache level) (cs_cache_count_step level));
      [destruct level; reflexivity|exact Hlen]. }
  assert (Z.of_nat (length (cache_array cs)) = total) as Hl' by lia.
  assert (Z.of_nat (length pre) + 1 < 2 ^ 32) as Hi.
  { rewrite Hxs, length_app in Hlen. cbn [length] in Hlen. lia. }
  rewrite cs_cache_present in HC by exact Hnz.
  destruct (cache_step_state level (Z.of_nat (length pre))
              (apic_id (x_topology x)) (x_cache_level level x) procs cs fs Hnz)
    as (Harr & Hidx & Hlast & Hfaults).
  fold (cache_id_of level x) in Harr, Hidx, Hlast, Hfaults.
  unfold cache_inv. cbv zeta. fold total.
  rewrite counted_snoc, cs_cache_present by exact Hnz.
  replace (Z.of_nat (length (pre ++ [x]))) with (Z.of_nat (length pre) + 1)
    by (rewrite length_app; cbn [length]; lia).
  rewrite Harr, Hidx, Hlast, Hfaults.
  destruct pre as [|p0 pre'].
  - subst cs. cbn [cache_state_init cache_array cache_index cache_last_id] in *.
    assert (cache_id_of level x <> UINT32_MAX) as Hid
      by (apply Hhead; rewrite Hxs; reflexivity).
    assert (1 <= total) as H1.
    { unfold counted in HC. cbn [fold_left] in HC.
      unfold count_key in HC.
      replace (last_id (cs_cache level count_state_init)) with UINT32_MAX
        in HC by (destruct level; reflexivity).
      destruct (Z.eqb_spec (cache_id_of level x) UINT32_MAX);
        [contradiction|].
      cbn [count] in HC.
      replace (count (cs_cache level count_state_init)) with 0 in HC
        by (destruct level; reflexivity).
      exact HC. }
    destruct (Z.eqb_spec (cache_id_of level x) UINT32_MAX); [contradiction|].
    destruct (group_start cache_range (arr_cache level)
                (fun _ => new_cache (Z.of_nat (length (@nil cpuinfo_x86_processor)))
                            (x_cache_level level x))
                (calloc_elems total Cache.zero) (cache_id_of level x) total
                (fun _ => eq_refl) Hid Hl' H1) as (Hf & Hlen' & Hg).
    rewrite Hf, Hlen'. cbn [app].
    replace (cs_cache level (counted [])) with tracker_init
      by (destruct level; reflexivity).
    split; [split; [exact Hl|exact Hg]|].
    intros Hb. rewrite store_in_bounds by exact Hb. cbn [snd].
    rewrite !app_nil_r. reflexivity.
  - destruct (group_step cache_range (arr_cache level) Cache.add_processor
                (fun _ => new_cache (Z.of_nat (length (p0 :: pre')))
                            (x_cache_level level x))
                (cache_array cs) (cache_index cs) (cache_last_id cs)
                (cs_cache level (counted (p0 :: pre')))
                (Z.of_nat (length (p0 :: pre'))) (cache_id_of level x) total
                Hinv (fun _ => eq_refl) (fun _ => eq_refl) Hl' Hi HC)
      as (Hf & Hlen' & Hg).
    rewrite Hf, Hlen'. cbn [app].
    split; [split; [exact Hl|exact Hg]|].
    intros Hb. rewrite store_in_bounds by exact Hb. cbn [snd].
    rewrite !app_nil_r. reflexivity.
Qed.

End CacheLevels.

(** X11. For a cache level other than L1I that every descriptor reports
    with a non-zero size (the first sharing id not being the sentinel),
    the counting pass sizes the level's array exactly: the build loop
    never stores outside it; and in a run in which every shift is
    defined and no store falls outside any array, the processor ranges
    of the level's records follow one another without gap or overlap
    from processor 0 to the last processor. *)
Theorem present_cache_level_partitions_processors
    (normalize : string -> string) (level : cpuinfo_cache_level)
    (xs : list cpuinfo_x86_processor) :
  level <> cpuinfo_cache_level_1i ->
  Z.of_nat (length xs) < 2 ^ 32 ->
  level_present level xs ->
  Forall (fun f => fault_array f <> arr_cache level)
    (b_faults (build normalize xs))
  /\ (run_defined normalize xs ->
      partitions
        (map cache_range (cache_array (b_cache level (build normalize xs))))
        0 (Z.of_nat (length xs))).
Proof.
  intros Hlevel Hlen Hpres.
  assert (cache_inv level xs xs (b_cache level (build normalize xs))
          /\ length (b_processors (build normalize xs)) = length xs
          /\ Forall (fun f => fault_array f <> arr_cache level)
               (b_faults (build normalize xs))) as (Hinv & _ & Hfaults).
  { unfold build.
    apply (build_loop_prefix_ind normalize xs
             (fun pre s =>
                cache_inv level xs pre (b_cache level s)
                /\ length (b_processors s) = length xs
                /\ Forall (fun f => fault_array f <> arr_cache level)
                     (b_faults s))).
    - split; [|split].
      + unfold cache_inv. cbv zeta.
        destruct level; cbn [build_init b_cache b_l1i b_l1d b_l2 b_l3 b_l4
                             cache_count cache_state_init cache_array];
          unfold calloc_elems; rewrite length_replicate; split; reflexivity.
      + cbn [build_init b_processors]. unfold calloc_elems.
        rewrite length_replicate. lia.
      + constructor.
    - intros pre x post s Hxs (Hinv & Hps & Hf).
      assert (0 <= Z.of_nat (length pre) < Z.of_nat (length (b_processors s)))
        as Hi.
      { rewrite Hps, Hxs, length_app. cbn [length]. lia. }
      pose proof (fun procs fs =>
                    cache_level_step_inv level xs pre post x procs
                      (b_cache level s) fs Hxs Hlen Hpres Hinv) as Hstep.
      split; [|split; [rewrite build_step_length; exact Hps|]].
      + destruct level; try contradiction;
          cbn [b_cache build_step b_l1d b_l2 b_l3 b_l4] in Hstep |- *;
          apply Hstep.
      + unfold build_step. cbv zeta. cbn [b_faults].
        assert (Forall (fun f => fault_array f <> arr_cache level)
                  (b_faults s
                   ++ (topology_step normalize (Z.of_nat (length pre)) x
                         (b_topology s)).2
                   ++ (store arr_processors
                         (processor_topology x
                            (topology_step normalize (Z.of_nat (length pre))
                               x (b_topology s)).1)
                         (Z.of_nat (length pre)) (b_processors s)).2
                   ++ (store arr_linux_cpu_to_processor_map
                         (fun _ => Some (Z.of_nat (length pre)))
                         (x_linux_id x) (b_linux_cpu_to_processor_map s)).2
                   ++ (store arr_linux_cpu_to_core_map
                         (fun _ =>
                            Some (core_index
                                    (topology_step normalize
                                       (Z.of_nat (length pre)) x
                                       (b_topology s)).1))
                         (x_linux_id x) (b_linux_cpu_to_core_map s)).2))
          as Hbase.
        { apply Forall_app; split; [exact Hf|].
          apply Forall_app; split.
          { eapply Forall_impl; [apply topology_step_fault_arrays|].
            intros f [-> | ->]; discriminate. }
          apply Forall_app; split.
          { eapply Forall_impl; [apply store_faults|].
            intros f ->; discriminate. }
          apply Forall_app; split.
          { eapply Forall_impl; [apply store_faults|].
            intros f ->; discriminate. }
          eapply Forall_impl; [apply store_faults|].
          intros f ->; discriminate. }
        destruct level; try contradiction;
          cbn [b_cache x_cache_level] in Hstep;
          repeat first
            [ rewrite (proj2 (Hstep _ _))
                by (repeat (rewrite cache_step_length; cbn [fst]);
                    rewrite store_length; exact Hi)
            | apply cache_step_fault_arrays;
              [intros f [Hfa|Hfa]; rewrite Hfa; discriminate|cbn [fst snd]] ];
          exact Hbase. }
  split; [exact Hfaults|]. intros _.
  destruct Hinv as [Hl Hinv].
  rewrite cache_count_counted in Hl.
  destruct xs as [|x xs'].
  - rewrite Hinv. destruct level; reflexivity.
  - eapply group_inv_full; eassumption.
Qed.

Lemma present_cache_level_partitions_processors_witness :
  Forall (fun f => fault_array f <> arr_cache cpuinfo_cache_level_2)
    (b_faults (build id four_cores_two_packages))
  /\ partitions
       (map cache_range
          (cache_array (b_cache cpuinfo_cache_level_2
                          (build id four_cores_two_packages))))
       0 (Z.of_nat (length four_cores_two_packages)).
Proof.
  destruct (present_cache_level_partitions_processors id
              cpuinfo_cache_level_2 four_cores_two_packages)
    as [Hfaults Hranges].
  - discriminate.
  - vm_compute. reflexivity.
  - split.
    + repeat constructor; vm_compute; discriminate.
    + intros x Hx. injection Hx as <-. vm_compute. discriminate.
  - split; [exact Hfaults|]. apply Hranges. split; vm_compute; reflexivity.
Defined.

(** ** The core record of a processor carries its core-grouping id *)

Section CoreIds.

Variable normalize : string -> string.

(** The cores array after one iteration, as one store. *)
Lemma topology_step_cores (i : Z) (x : cpuinfo_x86_processor)
    (t : topology_state) :
  ts_cores (topology_step normalize i x t).1
  = (if core_id_of x =? last_core_id t
     then store arr_cores Core.add_processor (core_index t) (ts_cores t)
     else store arr_cores
            (fun _ => new_core i (package_index (topology_step normalize i x t).1) x)
            (wrap32 (core_index t + 1)) (ts_cores t)).1
  /\ core_index (topology_step normalize i x t).1
     = (if core_id_of x =? last_core_id t then core_index t
        else wrap32 (core_index t + 1))
  /\ last_core_id (topology_step normalize i x t).1 = core_id_of x.
Proof.
  unfold topology_step. cbv zeta.
  cbn [fst ts_cores core_index package_index last_core_id].
  destruct (core_id_of x =? last_core_id t); repeat split.
Qed.

(** Earlier references keep pointing to a record with the same
    core id. *)
Lemma core_id_ref_step (xs pre post : list cpuinfo_x86_processor)
    (x : cpuinfo_x86_processor) (t : topology_state) (ref : option Z)
    (v : Z) :
  xs = pre ++ x :: post -> Z.of_nat (length xs) < 2 ^ 32 ->
  pre <> [] -> topology_inv xs pre t ->
  ref_holds (fun c => Core.core_id c = v) (ts_cores t) (core_index t) ref ->
  ref_holds (fun c => Core.core_id c = v)
    (ts_cores (topology_step normalize (Z.of_nat (length pre)) x t).1)
    (core_index (topology_step normalize (Z.of_nat (length pre)) x t).1) ref.
Proof.
  intros Hxs Hlen Hpre (_ & _ & Hinv) (k & c & -> & Hk & Hc & Hv).
  destruct pre as [|p0 pre']; [contradiction|]. destruct Hinv as [Gc _].
  destruct (topology_step_cores (Z.of_nat (length (p0 :: pre'))) x t)
    as (-> & -> & _).
  pose proof (group_inv_length _ _ _ _ _ _ Gc) as [Hidx _].
  assert (core_index t + 1 < 2 ^ 32) as Hsmall.
  { destruct Gc as (done & cur & rest & _ & -> & _ & _ & Hp).
    apply partitions_length in Hp.
    rewrite length_map, length_app in Hp. cbn [length] in Hp.
    rewrite Hxs, length_app in Hlen. cbn [length] in Hlen. lia. }
  destruct (core_id_of x =? last_core_id t).
  - rewrite store_in_bounds by exact Hidx. cbn [fst].
    destruct (decide (k = Z.to_nat (core_index t))) as [->|Hne].
    + exists (Z.to_nat (core_index t)), (Core.add_processor c).
      rewrite list_lookup_alter_eq, Hc.
      split; [reflexivity|]. split; [exact Hk|]. split; [reflexivity|exact Hv].
    + exists k, c. rewrite list_lookup_alter_ne by lia.
      split; [reflexivity|]. split; [exact Hk|]. split; assumption.
  - rewrite wrap32_small by (unfold is_uint32; lia).
    exists k, c. rewrite store_lookup_ne by lia.
    split; [reflexivity|]. split; [lia|]. split; assumption.
Qed.

(** After an iteration the record in use carries the core id of the
    descriptor just processed. *)
Lemma core_id_ref_current (xs pre post : list cpuinfo_x86_processor)
    (x : cpuinfo_x86_processor) (t : topology_state) :
  xs = pre ++ x :: post -> Z.of_nat (length xs) < 2 ^ 32 ->
  first_ids_regular xs -> topology_inv xs pre t ->
  (pre <> [] ->
   ref_holds (fun c => Core.core_id c = last_core_id t) (ts_cores t)
     (core_index t) (Some (core_index t))) ->
  ref_holds (fun c => Core.core_id c = core_id_of x)
    (ts_cores (topology_step normalize (Z.of_nat (length pre)) x t).1)
    (core_index (topology_step normalize (Z.of_nat (length pre)) x t).1)
    (Some (core_index (topology_step normalize (Z.of_nat (length pre)) x t).1)).
Proof.
  intros Hxs Hlen Hreg Hinv Hcur.
  destruct (topology_step_inv normalize xs pre post x t Hxs Hlen Hreg Hinv)
    as (_ & HlenC & _ & Hinv').
  assert (0 <= core_index
                 (topology_step normalize (Z.of_nat (length pre)) x t).1
          < Z.of_nat
              (length (ts_cores
                         (topology_step normalize (Z.of_nat (length pre))
                            x t).1))) as Hb.
  { destruct pre; cbn [app] in Hinv'; destruct Hinv' as [Gc _];
      apply (group_inv_length _ _ _ _ _ _ Gc). }
  destruct (topology_step_cores (Z.of_nat (length pre)) x t)
    as (Harr & Hidx & _).
  rewrite Hidx in Hb |- *. rewrite Harr in Hb |- *. clear Harr Hidx.
  destruct (Z.eqb_spec (core_id_of x) (last_core_id t)) as [Heq|Hne].
  - rewrite store_length in Hb.
    rewrite store_in_bounds by exact Hb. cbn [fst].
    assert (pre <> []) as Hpre.
    { intros ->. destruct Hinv as (_ & _ & ->).
      cbn [build_init b_topology last_core_id] in Heq.
      destruct (Hreg x) as [Hc _]; [rewrite Hxs; reflexivity|]. contradiction. }
    destruct (Hcur Hpre) as (k & c & Hk & _ & Hc & Hv).
    injection Hk as Hk. assert (k = Z.to_nat (core_index t)) as -> by lia.
    exists (Z.to_nat (core_index t)), (Core.add_processor c).
    rewrite list_lookup_alter_eq, Hc.
    split; [f_equal; lia|]. split; [lia|]. split; [reflexivity|].
    cbn [Core.add_processor Core.core_id]. rewrite Hv, Heq. reflexivity.
  - rewrite store_length in Hb.
    rewrite store_in_bounds by exact Hb. cbn [fst].
    destruct (lookup_lt_is_Some_2 (ts_cores t)
                (Z.to_nat (wrap32 (core_index t + 1)))) as [z Hz]; [lia|].
    exists (Z.to_nat (wrap32 (core_index t + 1))), 
      (new_core (Z.of_nat (length pre))
         (package_index (topology_step normalize (Z.of_nat (length pre)) x t).1)
         x).
    rewrite list_lookup_alter_eq, Hz.
    split; [f_equal; lia|]. split; [lia|]. split; reflexivity.
Qed.

End CoreIds.

(** X12. For every run of the build loop in which every shift is
    defined and no store falls outside its array, the core record that
    a processor record references carries the core-grouping id of that
    processor's descriptor; processors with different core-grouping ids
    therefore never share a core record. *)
Theorem processor_core_carries_core_id
    (normalize : string -> string) (xs : list cpuinfo_x86_processor)
    (j : nat) (x : cpuinfo_x86_processor) (p : Processor.t) :
  Z.of_nat (length xs) < 2 ^ 32 -> run_defined normalize xs ->
  xs !! j = Some x ->
  b_processors (build normalize xs) !! j = Some p ->
  ref_holds (fun c => Core.core_id c = core_id_of x)
    (ts_cores (b_topology (build normalize xs)))
    (core_index (b_topology (build normalize xs))) (Processor.core p).
Proof.
  intros Hlen Hrun.
  pose proof (run_defined_regular normalize xs Hlen Hrun) as Hreg.
  revert j x p. unfold build.
  pose proof (build_loop_prefix_ind normalize xs
           (fun pre s =>
              topology_inv xs pre (b_topology s)
              /\ length (b_processors s) = length xs
              /\ (pre <> [] ->
                  ref_holds
                    (fun c => Core.core_id c = last_core_id (b_topology s))
                    (ts_cores (b_topology s)) (core_index (b_topology s))
                    (Some (core_index (b_topology s))))
              /\ forall j x p,
                  pre !! j = Some x ->
                  b_processors s !! j = Some p ->
                  ref_holds (fun c => Core.core_id c = core_id_of x)
                    (ts_cores (b_topology s)) (core_index (b_topology s))
                    (Processor.core p))) as Hind.
  cbv beta in Hind. refine (proj2 (proj2 (proj2 (Hind _ _ _)))).
  - split; [apply build_init_topology_inv, Hlen|].
    cbn [build_init b_processors]. unfold calloc_elems.
    rewrite length_replicate, Nat2Z.id. split; [reflexivity|].
    split; [intros H; contradiction|].
    intros j x p Hx. rewrite lookup_nil in Hx. discriminate.
  - intros pre x post s Hxs (Hinv & Hps & Hcur & Hrefs).
    destruct (topology_step_inv normalize xs pre post x (b_topology s)
                Hxs Hlen Hreg Hinv) as [_ Hinv'].
    pose proof (core_id_ref_current normalize xs pre post x (b_topology s)
                  Hxs Hlen Hreg Hinv Hcur) as Hnow.
    rewrite build_step_topology.
    split; [exact Hinv'|]. split; [rewrite build_step_length; exact Hps|].
    split.
    + intros _.
      destruct (topology_step_cores normalize (Z.of_nat (length pre)) x (b_topology s))
        as (_ & _ & ->). exact Hnow.
    + intros j y p Hy Hp.
      destruct (Nat.lt_ge_cases j (length pre)) as [Hlt|Hge].
      * rewrite lookup_app_l in Hy by exact Hlt.
        rewrite build_step_lookup_ne in Hp by lia.
        eapply core_id_ref_step; try eassumption.
        -- intros ->. cbn [length] in Hlt. lia.
        -- eapply Hrefs; eassumption.
      * rewrite lookup_app_r in Hy by exact Hge.
        destruct (j - length pre)%nat as [|k] eqn:E;
          [|rewrite lookup_cons, lookup_nil in Hy; discriminate].
        injection Hy as <-. assert (j = length pre) as -> by lia.
        destruct (lookup_lt_is_Some_2 (b_processors s) (length pre))
          as [q Hq].
        { rewrite Hps, Hxs, length_app. cbn [length]. lia. }
        destruct (build_step_lookup_eq normalize (length pre) x s q Hq)
          as (p' & Hp' & Hid & _).
        rewrite Hp' in Hp. injection Hp as <-.
        unfold processor_ids in Hid. injection Hid as _ Hcore _ _ _.
        rewrite Hcore, ?build_step_topology. exact Hnow.
Qed.

Lemma processor_core_carries_core_id_witness :
  exists x p,
    four_cores_two_packages !! 2%nat = Some x
    /\ b_processors (build id four_cores_two_packages) !! 2%nat = Some p
    /\ ref_holds (fun c => Core.core_id c = core_id_of x)
         (ts_cores (b_topology (build id four_cores_two_packages)))
         (core_index (b_topology (build id four_cores_two_packages)))
         (Processor.core p).
Proof.
  eexists _, _. split; [reflexivity|]. split; [vm_compute; reflexivity|].
  apply (processor_core_carries_core_id id four_cores_two_packages 2).
  - vm_compute. reflexivity.
  - split; vm_compute; reflexivity.
  - reflexivity.
  - vm_compute. reflexivity.
Defined.

(** ** The core and package records describe their first processor *)

(** A property of the records in use survives a store to the record at
    [j], the only one that may come into use. *)
Lemma described_alter {A} (D D' : nat -> A -> Prop) (arr : list A)
    (n n' : Z) (f : A -> A) (j : nat) :
  (forall k c, Z.of_nat k < n -> arr !! k = Some c -> D k c) ->
  (forall k c, D k c -> D' k c) ->
  (forall k, Z.of_nat k < n' -> k <> j -> Z.of_nat k < n) ->
  (forall c, arr !! j = Some c -> (Z.of_nat j < n -> D' j c) -> D' j (f c)) ->
  forall k c, Z.of_nat k < n' -> alter f j arr !! k = Some c -> D' k c.
Proof.
  intros HD Hmono Hold Hnew k c Hk Hc.
  destruct (decide (k = j)) as [->|Hne].
  - rewrite list_lookup_alter_eq in Hc.
    destruct (arr !! j) as [c0|] eqn:E; [|discriminate].
    injection Hc as <-. apply Hnew; [reflexivity|].
    intros Hj. apply Hmono, HD; assumption.
  - rewrite list_lookup_alter_ne in Hc by congruence.
    apply Hmono, HD; [apply Hold; assumption|exact Hc].
Qed.

Section Arrays.

Variable normalize : string -> string.

(** The packages array after one iteration, as two stores. *)
Lemma topology_step_packages (i : Z) (x : cpuinfo_x86_processor)
    (t : topology_state) :
  let t' := (topology_step normalize i x t).1 in
  ts_packages t'
  = (store arr_packages
       (if package_id_of x =? last_package_id t then Package.add_processor
        else Package.start i (core_index t') (normalize (x_brand_string x)))
       (package_index t')
       (if core_id_of x =? last_core_id t then ts_packages t
        else (store arr_packages Package.add_core (package_index t')
                (ts_packages t)).1)).1
  /\ package_index t'
     = (if package_id_of x =? last_package_id t then package_index t
        else wrap32 (package_index t + 1)).
Proof.
  unfold topology_step. cbv zeta.
  cbn [fst ts_packages core_index package_index].
  destruct (core_id_of x =? last_core_id t),
    (package_id_of x =? last_package_id t); split; reflexivity.
Qed.

(** One iteration as stores inside the arrays: the records in use go up
    by one where the grouping id changes, and the record written is the
    last one in use. *)
Lemma topology_step_arrays (xs pre post : list cpuinfo_x86_processor)
    (x : cpuinfo_x86_processor) (t : topology_state) :
  xs = pre ++ x :: post -> Z.of_nat (length xs) < 2 ^ 32 ->
  first_ids_regular xs -> topology_inv xs pre t ->
  let i := Z.of_nat (length pre) in
  let t' := (topology_step normalize i x t).1 in
  (in_use (core_index t')
   = in_use (core_index t)
     + (if core_id_of x =? last_core_id t then 0 else 1)
   /\ core_index t' = in_use (core_index t') - 1
   /\ 0 <= in_use (core_index t)
   /\ 0 < in_use (core_index t') <= Z.of_nat (length (ts_cores t))
   /\ ts_cores t'
      = alter (if core_id_of x =? last_core_id t then Core.add_processor
               else fun _ => new_core i (package_index t') x)
          (Z.to_nat (core_index t')) (ts_cores t))
  /\ (in_use (package_index t')
      = in_use (package_index t)
        + (if package_id_of x =? last_package_id t then 0 else 1)
      /\ package_index t' = in_use (package_index t') - 1
      /\ 0 <= in_use (package_index t)
      /\ 0 < in_use (package_index t')
         <= Z.of_nat (length (ts_packages t))
      /\ ts_packages t'
         = alter
             ((if package_id_of x =? last_package_id t
               then Package.add_processor
               else Package.start i (core_index t')
                      (normalize (x_brand_string x)))
              ∘ (if core_id_of x =? last_core_id t then id
                 else Package.add_core))
             (Z.to_nat (package_index t')) (ts_packages t)).
Proof.
  intros Hxs Hlen Hreg Hinv. cbv zeta.
  destruct (topology_step_inv normalize xs pre post x t Hxs Hlen Hreg Hinv)
    as (_ & HlenC' & HlenP' & Hinv').
  destruct Hinv as (HlenC & HlenP & _).
  destruct (topology_step_cores normalize (Z.of_nat (length pre)) x t)
    as (Hcores & Hci & _).
  destruct (topology_step_packages (Z.of_nat (length pre)) x t)
    as (Hpackages & Hpi).
  set (t' := (topology_step normalize (Z.of_nat (length pre)) x t).1) in *.
  assert (Z.of_nat (length pre) + 1 < 2 ^ 32) as Hi.
  { rewrite Hxs, length_app in Hlen. cbn [length] in Hlen. lia. }
  assert ((0 <= core_index t' < Z.of_nat (length (ts_cores t))
           /\ core_index t' + 1 < 2 ^ 32)
          /\ (0 <= package_index t' < Z.of_nat (length (ts_packages t))
              /\ package_index t' + 1 < 2 ^ 32)) as [[HbC HsC] [HbP HsP]].
  { destruct pre; cbn [app] in Hinv'; destruct Hinv' as [Gc Gp].
    all: pose proof (group_inv_length _ _ _ _ _ _ Gc) as [Hc _].
    all: pose proof (group_inv_length _ _ _ _ _ _ Gp) as [Hp _].
    all: destruct Gc as (dc & cc & rc & _ & Hic & _ & _ & Hpc).
    all: destruct Gp as (dp & cp & rp & _ & Hip & _ & _ & Hpp).
    all: apply partitions_length in Hpc, Hpp.
    all: rewrite length_map, length_app in Hpc, Hpp.
    all: cbn [length] in Hpc, Hpp, Hi.
    all: rewrite ?length_app in Hpc, Hpp; cbn [length] in Hpc, Hpp.
    all: rewrite HlenC' in Hc; rewrite HlenP' in Hp.
    all: rewrite HlenC, HlenP.
    all: repeat split; lia. }
  assert (in_use (core_index t') = core_index t' + 1) as HuC
    by (unfold in_use; apply wrap32_small; unfold is_uint32; lia).
  assert (in_use (package_index t') = package_index t' + 1) as HuP
    by (unfold in_use; apply wrap32_small; unfold is_uint32; lia).
  pose proof (wrap32_range (core_index t + 1)) as HrC.
  pose proof (wrap32_range (package_index t + 1)) as HrP.
  unfold is_uint32 in HrC, HrP.
  fold (in_use (core_index t)) in HrC, Hci, Hcores.
  fold (in_use (package_index t)) in HrP, Hpi.
  split.
  - revert Hci Hcores.
    destruct (core_id_of x =? last_core_id t); intros Hci Hcores.
    + split; [rewrite Hci; lia|]. split; [lia|]. split; [lia|].
      split; [lia|]. rewrite Hcores, Hci.
      rewrite store_in_bounds by lia. reflexivity.
    + split; [lia|]. split; [lia|]. split; [lia|]. split; [lia|].
      rewrite Hcores, <- Hci. rewrite store_in_bounds by lia. reflexivity.
  - revert Hpi Hpackages.
    destruct (package_id_of x =? last_package_id t); intros Hpi Hpackages.
    all: split; [first [rewrite Hpi; lia|lia]|].
    all: split; [lia|]. all: split; [lia|]. all: split; [lia|].
    all: rewrite Hpackages, <- list_alter_alter_eq.
    all: destruct (core_id_of x =? last_core_id t).
    all: rewrite ?(store_in_bounds _ Package.add_core) by lia; cbn [fst].
    all: rewrite store_in_bounds by (rewrite ?length_alter; lia); cbn [fst].
    all: rewrite ?(list_alter_id id) by reflexivity; reflexivity.
Qed.

End Arrays.

Section Described.

Variable normalize : string -> string.

(** The processor record the iteration for descriptor [x] writes. *)
Lemma build_step_current (xs pre post : list cpuinfo_x86_processor)
    (x : cpuinfo_x86_processor) (s : build_state) :
  xs = pre ++ x :: post -> length (b_processors s) = length xs ->
  let s' := build_step normalize (Z.of_nat (length pre)) x s in
  (pre ++ [x]) !! Z.to_nat (Z.of_nat (length pre)) = Some x
  /\ exists p,
       b_processors s' !! Z.to_nat (Z.of_nat (length pre)) = Some p
       /\ Processor.core p = Some (core_index (b_topology s'))
       /\ Processor.package p = Some (package_index (b_topology s')).
Proof.
  intros Hxs Hps. cbv zeta. rewrite Nat2Z.id. split.
  - rewrite lookup_app_r, Nat.sub_diag by lia. reflexivity.
  - destruct (lookup_lt_is_Some_2 (b_processors s) (length pre)) as [q Hq].
    { rewrite Hps, Hxs, length_app. cbn [length]. lia. }
    destruct (build_step_lookup_eq normalize (length pre) x s q Hq)
      as (p & Hp & Hid & _).
    exists p. unfold processor_ids in Hid. injection Hid as _ Hc Hk _ _.
    split; [exact Hp|]. split; assumption.
Qed.

(** The records in use keep describing their first processor when the
    loop goes on to the next descriptor. *)
Lemma core_described_mono (pre : list cpuinfo_x86_processor)
    (x : cpuinfo_x86_processor) (s : build_state) (k : nat) (c : Core.t) :
  core_described pre (b_processors s) k c ->
  core_described (pre ++ [x])
    (b_processors (build_step normalize (Z.of_nat (length pre)) x s)) k c.
Proof.
  intros (y & p & Hy & Hp & H). exists y, p.
  pose proof (lookup_lt_Some _ _ _ Hy) as Hlt.
  split; [apply lookup_app_l_Some, Hy|].
  split; [|exact H]. rewrite build_step_lookup_ne by lia. exact Hp.
Qed.

Lemma package_described_mono (pre : list cpuinfo_x86_processor)
    (x : cpuinfo_x86_processor) (s : build_state) (k : nat)
    (pk : Package.t) :
  package_described normalize pre (b_processors s) k pk ->
  package_described normalize (pre ++ [x])
    (b_processors (build_step normalize (Z.of_nat (length pre)) x s)) k pk.
Proof.
  intros (y & p & Hy & Hp & H). exists y, p.
  pose proof (lookup_lt_Some _ _ _ Hy) as Hlt.
  split; [apply lookup_app_l_Some, Hy|].
  split; [|exact H]. rewrite build_step_lookup_ne by lia. exact Hp.
Qed.

(** After the loop, every core record and every package record in use
    describes the first processor of its range. *)
Lemma build_records_described (xs : list cpuinfo_x86_processor) :
  Z.of_nat (length xs) < 2 ^ 32 -> first_ids_regular xs ->
  let s := build normalize xs in
  (forall k c,
      Z.of_nat k < in_use (core_index (b_topology s)) ->
      ts_cores (b_topology s) !! k = Some c ->
      core_described xs (b_processors s) k c)
  /\ (forall k pk,
         Z.of_nat k < in_use (package_index (b_topology s)) ->
         ts_packages (b_topology s) !! k = Some pk ->
         package_described normalize xs (b_processors s) k pk).
Proof.
  intros Hlen Hreg. cbv zeta. unfold build.
  pose proof (build_loop_prefix_ind normalize xs
           (fun pre s =>
              topology_inv xs pre (b_topology s)
              /\ length (b_processors s) = length xs
              /\ (forall k c,
                     Z.of_nat k < in_use (core_index (b_topology s)) ->
                     ts_cores (b_topology s) !! k = Some c ->
                     core_described pre (b_processors s) k c)
              /\ (forall k pk,
                     Z.of_nat k < in_use (package_index (b_topology s)) ->
                     ts_packages (b_topology s) !! k = Some pk ->
                     package_described normalize pre (b_processors s) k pk)))
    as Hind.
  cbv beta in Hind. refine (proj2 (proj2 (Hind _ _ _))).
  - split; [apply build_init_topology_inv, Hlen|].
    cbn [build_init b_processors]. unfold calloc_elems.
    rewrite length_replicate, Nat2Z.id. split; [reflexivity|].
    split; intros k c Hk; exfalso; revert Hk;
      cbn [b_topology core_index package_index]; vm_compute; destruct k;
      discriminate.
  - intros pre x post s Hxs (Hinv & Hps & Hcores & Hpackages).
    destruct (topology_step_inv normalize xs pre post x (b_topology s)
                Hxs Hlen Hreg Hinv) as [_ Hinv'].
    destruct (topology_step_arrays normalize xs pre post x (b_topology s)
                Hxs Hlen Hreg Hinv)
      as ((HuC & HiC & HnC & HnC' & HC) & (HuP & HiP & HnP & HnP' & HP)).
    destruct (build_step_current xs pre post x s Hxs Hps)
      as (Hx & p & Hp & Hpc & Hpp).
    rewrite build_step_topology in Hpc, Hpp |- *.
    set (t' := (topology_step normalize (Z.of_nat (length pre)) x
                  (b_topology s)).1) in *.
    split; [exact Hinv'|]. split; [rewrite build_step_length; exact Hps|].
    split.
    + rewrite HC. revert HuC.
      destruct (core_id_of x =? last_core_id (b_topology s)); intros HuC;
        apply (described_alter _ _ _ _ _ _ _ Hcores
                 (core_described_mono pre x s)); try (intros; lia);
        intros c Hc Hold.
      * destruct Hold as (y & q & H); [lia|]. exists y, q. exact H.
      * exists x, p. cbn [new_core Core.processor_start Core.core_id
                          Core.vendor Core.uarch Core.cpuid Core.package].
        split; [exact Hx|]. split; [exact Hp|].
        do 4 (split; [reflexivity|]).
        split; [symmetry; exact Hpp|]. rewrite Hpc. f_equal. lia.
    + rewrite HP. revert HuP.
      destruct (package_id_of x =? last_package_id (b_topology s));
        intros HuP;
        apply (described_alter _ _ _ _ _ _ _ Hpackages
                 (package_described_mono pre x s)); try (intros; lia);
        intros pk Hpk Hold.
      * destruct Hold as (y & q & H); [lia|]. exists y, q.
        destruct (core_id_of x =? last_core_id (b_topology s)); exact H.
      * exists x, p.
        cbn [compose Package.start Package.processor_start Package.name
             Package.core_start].
        split; [exact Hx|]. split; [exact Hp|]. split; [reflexivity|].
        split; [exact Hpc|]. rewrite Hpp. f_equal. lia.
Qed.

(** At the end of the loop the records in use are the whole array. *)
Lemma build_all_in_use (xs : list cpuinfo_x86_processor) :
  Z.of_nat (length xs) < 2 ^ 32 -> first_ids_regular xs ->
  let t := b_topology (build normalize xs) in
  Z.of_nat (length (ts_cores t)) = in_use (core_index t)
  /\ Z.of_nat (length (ts_packages t)) = in_use (package_index t).
Proof.
  intros Hlen Hreg. cbv zeta.
  destruct (build_topology_inv normalize xs Hlen Hreg) as (HC & HP & Hinv).
  destruct (counted_all xs) as [EC EP].
  destruct xs as [|x0 xs'].
  - rewrite HC, HP. split; reflexivity.
  - destruct Hinv as [Gc Gp].
    destruct Gc as (dc & cc & rc & _ & Hic & Hcc & _ & Hpc).
    destruct Gp as (dp & cp & rp & _ & Hip & Hcp & _ & Hpp).
    apply partitions_length in Hpc, Hpp.
    rewrite length_map, length_app in Hpc, Hpp. cbn [length] in *.
    unfold in_use. rewrite !wrap32_small by (unfold is_uint32; lia).
    rewrite HC, HP, EC, EP. lia.
Qed.

End Described.

(** X13. For every run of the build loop in which every shift is
    defined and no store falls outside its array, every record of the
    cores array describes the first processor of its range: it carries the
    core-grouping id, vendor, microarchitecture and CPUID of that
    processor's descriptor, its package reference is the one of that
    processor, and that processor references the record as its core. *)
Theorem core_records_describe_first_processor
    (normalize : string -> string) (xs : list cpuinfo_x86_processor)
    (k : nat) (c : Core.t) :
  Z.of_nat (length xs) < 2 ^ 32 -> run_defined normalize xs ->
  ts_cores (b_topology (build normalize xs)) !! k = Some c ->
  core_described xs (b_processors (build normalize xs)) k c.
Proof.
  intros Hlen Hrun Hc.
  pose proof (run_defined_regular normalize xs Hlen Hrun) as Hreg.
  apply (build_records_described normalize xs Hlen Hreg); [|exact Hc].
  pose proof (build_all_in_use normalize xs Hlen Hreg) as [H _].
  apply lookup_lt_Some in Hc. cbv zeta in H. lia.
Qed.

Lemma core_records_describe_first_processor_witness :
  exists c,
    ts_cores (b_topology (build id four_cores_two_packages)) !! 2%nat = Some c
    /\ core_described four_cores_two_packages
         (b_processors (build id four_cores_two_packages)) 2 c.
Proof.
  eexists. split; [vm_compute; reflexivity|].
  apply (core_records_describe_first_processor id four_cores_two_packages 2).
  - vm_compute. reflexivity.
  - split; vm_compute; reflexivity.
  - vm_compute. reflexivity.
Defined.

(** X14. For every run of the build loop in which every shift is
    defined and no store falls outside its array, every record of the
    packages array describes the first processor of its range: its name
    is the
    normalized brand string of that processor's descriptor, its first
    core is the core that processor references, and that processor
    references the record as its package. *)
Theorem package_records_describe_first_processor
    (normalize : string -> string) (xs : list cpuinfo_x86_processor)
    (k : nat) (pk : Package.t) :
  Z.of_nat (length xs) < 2 ^ 32 -> run_defined normalize xs ->
  ts_packages (b_topology (build normalize xs)) !! k = Some pk ->
  package_described normalize xs (b_processors (build normalize xs)) k pk.
Proof.
  intros Hlen Hrun Hpk.
  pose proof (run_defined_regular normalize xs Hlen Hrun) as Hreg.
  apply (build_records_described normalize xs Hlen Hreg); [|exact Hpk].
  pose proof (build_all_in_use normalize xs Hlen Hreg) as [_ H].
  apply lookup_lt_Some in Hpk. cbv zeta in H. lia.
Qed.

Lemma package_records_describe_first_processor_witness :
  exists pk,
    ts_packages (b_topology (build id four_cores_two_packages)) !! 1%nat
    = Some pk
    /\ package_described id four_cores_two_packages
         (b_processors (build id four_cores_two_packages)) 1 pk.
Proof.
  eexists. split; [vm_compute; reflexivity|].
  apply (package_records_describe_first_processor id
           four_cores_two_packages 1).
  - vm_compute. reflexivity.
  - split; vm_compute; reflexivity.
  - vm_compute. reflexivity.
Defined.

(** ** The core ranges of the packages *)

Lemma cores_nest_adjacent (pre post : list cpuinfo_x86_processor)
    (y x : cpuinfo_x86_processor) :
  cores_nest_in_packages (pre ++ y :: x :: post) ->
  core_id_of x = core_id_of y -> package_id_of x = package_id_of y.
Proof.
  induction pre as [|p pre IH]; cbn [app cores_nest_in_packages].
  - intros [H _]. apply H. reflexivity.
  - intros [_ H]. apply IH, H.
Qed.

Section CoreRanges.

Variable normalize : string -> string.

Lemma topology_step_last_ids (pre : list cpuinfo_x86_processor) (i : Z)
    (x : cpuinfo_x86_processor) (t : topology_state) :
  last_ids (pre ++ [x]) (topology_step normalize i x t).1.
Proof.
  unfold last_ids. rewrite last_snoc. unfold topology_step. cbv zeta.
  cbn [fst last_core_id last_package_id]. split; reflexivity.
Qed.

(** A core that continues is not the start of a new package. *)
Lemma same_core_same_package (xs pre post : list cpuinfo_x86_processor)
    (x : cpuinfo_x86_processor) (t : topology_state) :
  xs = pre ++ x :: post -> first_ids_regular xs ->
  cores_nest_in_packages xs -> last_ids pre t ->
  core_id_of x = last_core_id t -> package_id_of x = last_package_id t.
Proof.
  intros Hxs Hreg Hnest Hlast Hsame. unfold last_ids in Hlast.
  destruct (last pre) as [y|] eqn:E.
  - destruct Hlast as [Hc Hp]. rewrite Hp. rewrite Hc in Hsame.
    apply last_Some in E as [pre' ->].
    rewrite Hxs, <- app_assoc in Hnest. cbn [app] in Hnest.
    eapply cores_nest_adjacent; eassumption.
  - apply last_None in E. subst pre. destruct Hlast as [Hc _].
    destruct (Hreg x) as [Hx _]; [rewrite Hxs; reflexivity|].
    congruence.
Qed.

Lemma core_ranges_step (xs pre post : list cpuinfo_x86_processor)
    (x : cpuinfo_x86_processor) (t : topology_state) :
  xs = pre ++ x :: post -> Z.of_nat (length xs) < 2 ^ 32 ->
  first_ids_regular xs -> topology_inv xs pre t ->
  (core_id_of x = last_core_id t -> package_id_of x = last_package_id t) ->
  core_ranges_inv t ->
  core_ranges_inv (topology_step normalize (Z.of_nat (length pre)) x t).1.
Proof.
  intros Hxs Hlen Hreg Hinv Hnest (used & rest & Harr & Hused & Hpart & Hrest).
  destruct (topology_step_arrays normalize xs pre post x t Hxs Hlen Hreg Hinv)
    as ((HuC & HiC & HnC & HnC' & _) & (HuP & HiP & HnP & HnP' & HP)).
  set (t' := (topology_step normalize (Z.of_nat (length pre)) x t).1) in *.
  pose proof (wrap32_range (core_index t' + 1)) as Hr.
  unfold is_uint32 in Hr. fold (in_use (core_index t')) in Hr.
  unfold core_ranges_inv. rewrite HP, Harr.
  rewrite Harr, length_app in HnP'.
  revert HuC HuP Hnest.
  destruct (Z.eqb_spec (package_id_of x) (last_package_id t)) as [Hp|Hp].
  - (* the package continues *)
    intros HuC HuP _.
    destruct used as [|u used' _] using rev_ind; [cbn [length] in Hused; lia|].
    rewrite length_app in Hused. cbn [length] in Hused.
    replace (Z.to_nat (package_index t')) with (length used' + 0)%nat by lia.
    rewrite <- app_assoc, alter_app_r. cbn [app alter list_alter].
    match goal with
    | |- context [ (?g ∘ ?h) u ] => exists (used' ++ [(g ∘ h) u]), rest
    end.
    split; [rewrite <- app_assoc; reflexivity|].
    split; [rewrite length_app; cbn [length]; lia|].
    split; [|exact Hrest].
    rewrite map_app in Hpart |- *. cbn [map] in Hpart |- *.
    destruct (core_id_of x =? last_core_id t).
    + rewrite HuC, Z.add_0_r. exact Hpart.
    + rewrite HuC. unfold package_cores in Hpart |- *.
      cbn [compose Package.add_processor Package.add_core Package.core_start
           Package.core_count].
      destruct (partitions_last _ _ _ _ _ Hpart) as (Hs & Hn & Hsum).
      rewrite wrap32_small by (unfold is_uint32; lia).
      apply partitions_extend, Hpart.
  - (* a new package *)
    intros HuC HuP Hnest.
    destruct (Z.eqb_spec (core_id_of x) (last_core_id t)) as [Hc|Hc];
      [destruct (Hp (Hnest Hc))|].
    destruct rest as [|z rest']; [cbn [length] in HnP'; lia|].
    apply Forall_cons in Hrest as [Hz Hrest].
    replace (Z.to_nat (package_index t')) with (length used + 0)%nat by lia.
    rewrite alter_app_r. cbn [alter list_alter].
    match goal with
    | |- context [ (?g ∘ ?h) z ] => exists (used ++ [(g ∘ h) z]), rest'
    end.
    split; [rewrite <- app_assoc; reflexivity|].
    split; [rewrite length_app; cbn [length]; lia|].
    split; [|exact Hrest].
    rewrite map_app. cbn [map]. unfold package_cores at 2.
    cbn [compose Package.start Package.add_core Package.core_start
         Package.core_count].
    rewrite Hz, HuC. change (wrap32 (0 + 1)) with 1.
    replace (core_index t') with (in_use (core_index t)) by lia.
    apply partitions_snoc, Hpart.
Qed.

End CoreRanges.

(** X15. For every run of the build loop in which every shift is
    defined and no store falls outside its array, and in which
    consecutive descriptors with the same core-grouping id also have
    the same package-grouping id, the core ranges of the package records
    follow one another without gap or overlap from core 0 to the last
    core, each package holding at least one core. *)
Theorem package_core_ranges_partition_cores
    (normalize : string -> string) (xs : list cpuinfo_x86_processor) :
  Z.of_nat (length xs) < 2 ^ 32 -> run_defined normalize xs ->
  cores_nest_in_packages xs ->
  partitions
    (map package_cores (ts_packages (b_topology (build normalize xs))))
    0 (Z.of_nat (length (ts_cores (b_topology (build normalize xs))))).
Proof.
  intros Hlen Hrun Hnest.
  pose proof (run_defined_regular normalize xs Hlen Hrun) as Hreg.
  assert (core_ranges_inv (b_topology (build normalize xs))) as Hfinal.
  { unfold build.
    pose proof (build_loop_prefix_ind normalize xs
             (fun pre s =>
                topology_inv xs pre (b_topology s)
                /\ last_ids pre (b_topology s)
                /\ core_ranges_inv (b_topology s))) as Hind.
    cbv beta in Hind. refine (proj2 (proj2 (Hind _ _ _))).
    - split; [apply build_init_topology_inv, Hlen|].
      split; [split; reflexivity|].
      exists [], (ts_packages
                    (b_topology (build_init (Z.of_nat (length xs))
                                   (cpuinfo_x86_count_objects xs)))).
      split; [reflexivity|]. split; [reflexivity|]. split; [reflexivity|].
      cbn [build_init b_topology ts_packages]. unfold calloc_elems.
      apply Forall_forall. intros pk Hpk.
      apply elem_of_replicate in Hpk as [-> _]. reflexivity.
    - intros pre x post s Hxs (Hinv & Hlast & Hranges).
      rewrite build_step_topology.
      destruct (topology_step_inv normalize xs pre post x (b_topology s)
                  Hxs Hlen Hreg Hinv) as [_ Hinv'].
      split; [exact Hinv'|]. split; [apply topology_step_last_ids|].
      eapply core_ranges_step; try eassumption.
      eapply same_core_same_package; eassumption. }
  destruct (build_all_in_use normalize xs Hlen Hreg) as [HC HP].
  cbv zeta in HC, HP.
  destruct Hfinal as (used & rest & Harr & Hused & Hpart & _).
  rewrite HC. rewrite Harr, length_app in HP.
  assert (rest = []) as -> by (apply length_zero_iff_nil; lia).
  rewrite Harr, app_nil_r. exact Hpart.
Qed.

Lemma package_core_ranges_partition_cores_witness :
  partitions
    (map package_cores
       (ts_packages (b_topology (build id four_cores_two_packages))))
    0 (Z.of_nat
         (length (ts_cores (b_topology (build id four_cores_two_packages))))).
Proof.
  apply (package_core_ranges_partition_cores id four_cores_two_packages).
  - vm_compute. reflexivity.
  - split; vm_compute; reflexivity.
  - cbn [four_cores_two_packages map cores_nest_in_packages head].
    repeat split; intros x Hx; try discriminate Hx; injection Hx as <-;
      vm_compute; intros H; first [reflexivity|discriminate H].
Defined.

(** ** The cache records carry the parameters of their first processor *)

Section CacheRecords.

Variable normalize : string -> string.

(** The cache blocks after the duplicated L1I block run once each. *)
Lemma build_step_cache (level : cpuinfo_cache_level) (i : Z)
    (x : cpuinfo_x86_processor) (s : build_state) :
  level <> cpuinfo_cache_level_1i ->
  exists procs fs,
    b_cache level (build_step normalize i x s)
    = (cache_step level i (apic_id (x_topology x)) (x_cache_level level x)
         (procs, b_cache level s, fs)).1.2.
Proof.
  intros Hlevel. destruct level; try contradiction;
    eexists _, _; reflexivity.
Qed.

(** One cache block as a store inside the level's array. *)
Lemma cache_step_arrays (level : cpuinfo_cache_level)
    (xs pre post : list cpuinfo_x86_processor) (x : cpuinfo_x86_processor)
    (procs : list Processor.t) (cs : cache_state) (fs : list fault) :
  xs = pre ++ x :: post -> Z.of_nat (length xs) < 2 ^ 32 ->
  level_present level xs -> cache_inv level xs pre cs ->
  let i := Z.of_nat (length pre) in
  let cs' := (cache_step level i (apic_id (x_topology x))
                (x_cache_level level x) (procs, cs, fs)).1.2 in
  in_use (cache_index cs')
  = in_use (cache_index cs)
    + (if cache_id_of level x =? cache_last_id cs then 0 else 1)
  /\ cache_index cs' = in_use (cache_index cs') - 1
  /\ 0 <= in_use (cache_index cs)
  /\ 0 < in_use (cache_index cs')
  /\ cache_array cs'
     = alter (if cache_id_of level x =? cache_last_id cs
              then Cache.add_processor
              else fun _ => new_cache i (x_cache_level level x))
         (Z.to_nat (cache_index cs')) (cache_array cs).
Proof.
  intros Hxs Hlen Hpres Hinv. cbv zeta.
  destruct (cache_level_step_inv level xs pre post x procs cs fs
              Hxs Hlen Hpres Hinv) as [[HlenA' Hinv'] _].
  destruct Hinv as [HlenA _].
  assert (xc_size (x_cache_level level x) <> 0) as Hsize.
  { destruct Hpres as [Hall _]. rewrite Forall_forall in Hall.
    apply Hall. rewrite Hxs, elem_of_app, elem_of_cons. auto. }
  destruct (cache_step_state level (Z.of_nat (length pre))
              (apic_id (x_topology x)) (x_cache_level level x) procs cs fs
              Hsize) as (Harr & Hidx & _).
  cbv zeta in Harr, Hidx. fold (cache_id_of level x) in Harr, Hidx.
  fold (in_use (cache_index cs)) in Harr, Hidx.
  set (cs' := (cache_step level (Z.of_nat (length pre))
                 (apic_id (x_topology x)) (x_cache_level level x)
                 (procs, cs, fs)).1.2) in *.
  assert (Z.of_nat (length pre) + 1 < 2 ^ 32) as Hi.
  { rewrite Hxs, length_app in Hlen. cbn [length] in Hlen. lia. }
  assert (0 <= cache_index cs' < Z.of_nat (length (cache_array cs))
          /\ cache_index cs' + 1 < 2 ^ 32) as [Hb Hs].
  { destruct pre; cbn [app] in Hinv'.
    all: pose proof (group_inv_length _ _ _ _ _ _ Hinv') as [Hc _].
    all: destruct Hinv' as (dc & cc & rc & _ & Hic & _ & _ & Hpc).
    all: apply partitions_length in Hpc.
    all: rewrite length_map, length_app in Hpc.
    all: cbn [length] in Hpc, Hi.
    all: rewrite ?length_app in Hpc; cbn [length] in Hpc.
    all: rewrite HlenA' in Hc; rewrite HlenA.
    all: split; lia. }
  assert (in_use (cache_index cs') = cache_index cs' + 1) as Hu
    by (unfold in_use; apply wrap32_small; unfold is_uint32; lia).
  pose proof (wrap32_range (cache_index cs + 1)) as Hr.
  unfold is_uint32 in Hr. fold (in_use (cache_index cs)) in Hr.
  revert Hidx Harr.
  destruct (cache_id_of level x =? cache_last_id cs); intros Hidx Harr.
  - split; [rewrite Hidx; lia|]. split; [lia|]. split; [lia|].
    split; [lia|]. rewrite Harr, Hidx.
    rewrite store_in_bounds by lia. reflexivity.
  - split; [lia|]. split; [lia|]. split; [lia|]. split; [lia|].
    rewrite Harr, <- Hidx. rewrite store_in_bounds by lia. reflexivity.
Qed.

End CacheRecords.

(** X16. For a cache level other than L1I that every descriptor reports
    with a non-zero size (the first sharing id not being the sentinel),
    and a run of the build loop in which every shift is defined and no
    store falls outside its array, every record of the level's array
    has the size, associativity,
    sets, partitions, line size and flags that the descriptor of the
    first processor of its range reports for that level. *)
Theorem cache_records_describe_first_processor
    (normalize : string -> string) (level : cpuinfo_cache_level)
    (xs : list cpuinfo_x86_processor) (k : nat) (c : Cache.t) :
  level <> cpuinfo_cache_level_1i ->
  Z.of_nat (length xs) < 2 ^ 32 ->
  level_present level xs ->
  run_defined normalize xs ->
  cache_array (b_cache level (build normalize xs)) !! k = Some c ->
  cache_described level xs c.
Proof.
  intros Hlevel Hlen Hpres. revert k c.
  assert (cache_inv level xs xs (b_cache level (build normalize xs))
          /\ forall k c,
               Z.of_nat k
               < in_use (cache_index (b_cache level (build normalize xs))) ->
               cache_array (b_cache level (build normalize xs)) !! k = Some c ->
               cache_described level xs c) as [Hinv Hall].
  { unfold build.
    apply (build_loop_prefix_ind normalize xs
             (fun pre s =>
                cache_inv level xs pre (b_cache level s)
                /\ forall k c,
                     Z.of_nat k < in_use (cache_index (b_cache level s)) ->
                     cache_array (b_cache level s) !! k = Some c ->
                     cache_described level pre c)).
    - split.
      + unfold cache_inv. cbv zeta.
        destruct level; cbn [build_init b_cache b_l1i b_l1d b_l2 b_l3 b_l4
                             cache_count cache_state_init cache_array];
          unfold calloc_elems; rewrite length_replicate; split; reflexivity.
      + intros j c Hj. exfalso. revert Hj.
        destruct level; cbn [build_init b_cache b_l1i b_l1d b_l2 b_l3 b_l4
                             cache_state_init cache_index];
          vm_compute; destruct j; discriminate.
    - intros pre x post s Hxs (Hinv & Hrecs).
      destruct (build_step_cache normalize level (Z.of_nat (length pre)) x s
                  Hlevel) as (procs & fs & ->).
      destruct (cache_level_step_inv level xs pre post x procs
                  (b_cache level s) fs Hxs Hlen Hpres Hinv) as [Hinv' _].
      split; [exact Hinv'|].
      destruct (cache_step_arrays level xs pre post x procs
                  (b_cache level s) fs Hxs Hlen Hpres Hinv)
        as (Hu & Hi & Hn & Hn' & ->).
      revert Hu.
      destruct (cache_id_of level x =? cache_last_id (b_cache level s));
        intros Hu;
        apply (described_alter (fun _ => cache_described level pre)
                 (fun _ => cache_described level (pre ++ [x])) _ _ _ _ _
                 Hrecs); try (intros; lia).
      + intros _ c0 (y & Hy & Hpar). exists y.
        split; [apply lookup_app_l_Some, Hy|exact Hpar].
      + intros c0 _ Hold. destruct Hold as (y & Hy & Hpar); [lia|].
        exists y. split; [exact Hy|exact Hpar].
      + intros _ c0 (y & Hy & Hpar). exists y.
        split; [apply lookup_app_l_Some, Hy|exact Hpar].
      + intros c0 _ _. exists x.
        cbn [new_cache Cache.processor_start]. rewrite Nat2Z.id.
        split; [|reflexivity].
        rewrite lookup_app_r, Nat.sub_diag by lia. reflexivity. }
  intros k c _ Hc. apply (Hall k c); [|exact Hc].
  apply lookup_lt_Some in Hc.
  destruct Hinv as [Hl Hinv]. rewrite cache_count_counted in Hl.
  destruct xs as [|x0 xs'].
  - rewrite Hinv in Hc. exfalso. revert Hc. unfold cache_state_init.
    cbn [cache_array]. unfold calloc_elems. rewrite length_replicate.
    rewrite cache_count_counted. destruct level; vm_compute; lia.
  - destruct Hinv as (dc & cc & rc & _ & Hic & Hcc & _ & Hpc).
    apply partitions_length in Hpc.
    rewrite length_map, length_app in Hpc. cbn [length] in *.
    unfold in_use. rewrite wrap32_small by (unfold is_uint32; lia). lia.
Qed.

Lemma cache_records_describe_first_processor_witness :
  exists c,
    cache_array (b_cache cpuinfo_cache_level_2
                   (build id four_cores_two_packages)) !! 1%nat = Some c
    /\ cache_described cpuinfo_cache_level_2 four_cores_two_packages c.
Proof.
  eexists. split; [vm_compute; reflexivity|].
  apply (cache_records_describe_first_processor id cpuinfo_cache_level_2
           four_cores_two_packages 1).
  - discriminate.
  - vm_compute. reflexivity.
  - split.
    + repeat constructor; vm_compute; discriminate.
    + intros x Hx. injection Hx as <-. vm_compute. discriminate.
  - split; vm_compute; reflexivity.
  - vm_compute. reflexivity.
Defined.

(** ** The descriptors handed to the two passes *)

Section Descriptors.

Lemma parse_cpulist_isset (ranges : list (Z * Z)) (cpu : Z) (s : cpu_set_t) :
  CPU_ISSET cpu (parse_cpulist ranges s)
  = (in_cpulist ranges cpu && (0 <=? cpu) && (cpu <? CPU_SETSIZE))
    || CPU_ISSET cpu s.
Proof.
  unfold parse_cpulist, in_cpulist. revert s.
  induction ranges as [|r ranges IH]; intros s; [reflexivity|].
  cbn [fold_left existsb]. rewrite IH, callback_isset.
  destruct (in_range r.1 r.2 cpu), (existsb _ ranges), (0 <=? cpu),
    (cpu <? CPU_SETSIZE), (CPU_ISSET cpu s); reflexivity.
Qed.

Lemma elem_of_cpu_bits (s : cpu_set_t) (cpu : Z) :
  cpu ∈ cpu_bits s <-> 0 <= cpu < CPU_SETSIZE /\ CPU_ISSET cpu s = true.
Proof.
  unfold cpu_bits. rewrite list_elem_of_In, filter_In, <- list_elem_of_In.
  rewrite elem_of_seqZ. unfold CPU_SETSIZE. split; intros [H1 H2];
    (split; [lia|exact H2]).
Qed.

Lemma NoDup_cpu_bits (s : cpu_set_t) : NoDup (cpu_bits s).
Proof.
  unfold cpu_bits.
  apply NoDup_ListNoDup, List.NoDup_filter, NoDup_ListNoDup, NoDup_seqZ.
Qed.

Lemma linux_ids_described (e : platform) (bits : list Z) :
  map x_linux_id (map (describe e) bits) = bits.
Proof.
  rewrite map_map. induction bits as [|b bits IH]; [reflexivity|].
  cbn [map]. rewrite IH. reflexivity.
Qed.

Lemma sorted_descriptors_Permutation (e : platform) :
  sorted_descriptors e ≡ₚ map (describe e) (cpu_bits (processors_set e)).
Proof. unfold sorted_descriptors, qsort. apply merge_sort_Permutation. Qed.

End Descriptors.

(** X17. The descriptors handed to the counting pass and the build loop
    are sorted by identifier, there are [CPU_COUNT] of them, and their
    OS ids are, each exactly once, the valid [cpu_set_t] bits that lie
    in a range of the present list and in a range of the possible list;
    each descriptor is the one obtained while pinned to its OS id. *)
Theorem descriptors_cover_processors_set (e : platform) :
  sorted_by_apic_id (sorted_descriptors e)
  /\ Z.of_nat (length (sorted_descriptors e)) = CPU_COUNT (processors_set e)
  /\ NoDup (map x_linux_id (sorted_descriptors e))
  /\ (forall cpu,
         cpu ∈ map x_linux_id (sorted_descriptors e)
         <-> 0 <= cpu < CPU_SETSIZE
             /\ in_cpulist (present e) cpu = true
             /\ in_cpulist (possible e) cpu = true)
  /\ Forall (fun x => x = describe e (x_linux_id x)) (sorted_descriptors e).
Proof.
  pose proof (sorted_descriptors_Permutation e) as Hperm.
  pose proof (Permutation_map x_linux_id Hperm) as Hids.
  rewrite linux_ids_described in Hids.
  split; [apply qsort_sorted|]. split.
  { unfold CPU_COUNT. rewrite (Permutation_length Hperm), length_map.
    reflexivity. }
  split.
  { rewrite Hids. apply NoDup_cpu_bits. }
  split.
  { intros cpu. rewrite Hids, elem_of_cpu_bits.
    unfold processors_set, CPU_AND, CPU_ISSET.
    pose proof (parse_cpulist_isset (present e) cpu CPU_ZERO) as H1.
    pose proof (parse_cpulist_isset (possible e) cpu CPU_ZERO) as H2.
    unfold CPU_ISSET in H1, H2. change (CPU_ZERO cpu) with false in H1, H2.
    rewrite H1, H2, !orb_false_r.
    destruct (in_cpulist (present e) cpu), (in_cpulist (possible e) cpu),
      (Z.leb_spec 0 cpu), (Z.ltb_spec cpu CPU_SETSIZE); cbn [andb];
      intuition (try lia; try discriminate). }
  rewrite Hperm. apply Forall_forall. intros x Hx.
  apply list_elem_of_In, in_map_iff in Hx as (b & <- & _). reflexivity.
Qed.

(** ** A pinning call that fails *)

(** The scan stops at the first processor it cannot pin. *)
Lemma collect_failure (e : platform) (bits : list Z) (k : nat) (bit : Z)
    (i : Z) (fr : frame) :
  bits !! k = Some bit -> pin_ok e bit = false ->
  forallb (pin_ok e) (take k bits) = true ->
  exists fr',
    collect e i bits fr = (None, fr')
    /\ trace (fr_world fr')
       = trace (fr_world fr) ++ map pinned (take k bits)
         ++ [ev_sched_setaffinity (CPU_SET bit CPU_ZERO) false;
             ev_log (err_setaffinity (i + Z.of_nat k) bit)].
Proof.
  revert k i fr. induction bits as [|b bits IH]; intros k i fr Hk Hpin Hok;
    [rewrite lookup_nil in Hk; discriminate|].
  destruct k as [|k].
  - injection Hk as ->. cbn [collect take map app]. unfold bind, pin.
    rewrite Hpin. eexists. split; [reflexivity|].
    cbn [fr_world add_events trace]. rewrite Z.add_0_r. reflexivity.
  - cbn [lookup list_lookup] in Hk. cbn [take forallb] in Hok.
    apply andb_prop in Hok as [Hb Hok].
    cbn [collect take map]. unfold bind at 1. unfold pin at 1. rewrite Hb.
    cbv beta iota. unfold bind.
    match goal with
    | |- context [ collect e (i + 1) bits ?f ] =>
        destruct (IH k (i + 1) f Hk Hpin Hok) as (fr' & -> & Htrace)
    end.
    exists fr'. split; [reflexivity|]. rewrite Htrace.
    cbn [fr_world set_affinity add_events trace].
    rewrite <- app_assoc. cbn [app]. unfold pinned at 2.
    replace (i + Z.of_nat (S k)) with (i + 1 + Z.of_nat k) by lia.
    reflexivity.
Qed.

(** X18. When the original affinity has been read and the descriptor
    array allocated, and the pinning call fails for a processor of the
    set, the loop stops there: the run pins the processors before it in
    ascending order, makes the failing call, logs one error that names
    the loop index and the bit of that processor, and goes on to the
    restoring call; no later processor is pinned. *)
Theorem pin_failure_stops_the_scan (e : platform) (w : world) (k : nat)
    (bit : Z) :
  getaffinity_ok e = true -> calloc_ok e arr_x86_processors = true ->
  cpu_bits (processors_set e) !! k = Some bit ->
  pin_ok e bit = false ->
  forallb (pin_ok e) (take k (cpu_bits (processors_set e))) = true ->
  trace (cpuinfo_x86_linux_init e w)
  = trace w ++ [ev_sched_getaffinity true]
    ++ map pinned (take k (cpu_bits (processors_set e)))
    ++ [ev_sched_setaffinity (CPU_SET bit CPU_ZERO) false;
        ev_log (err_setaffinity (Z.of_nat k) bit)]
    ++ restore_events (affinity w) (restore_ok e).
Proof.
  intros Hget Hcalloc Hk Hpin Hok. unfold cpuinfo_x86_linux_init.
  rewrite Hget.
  destruct (cleanup_spec e (affinity w)
              (init_body e
                 {| ptrs := fun _ => None;
                    fr_world := add_events [ev_sched_getaffinity true] w |}).2)
    as (_ & _ & _ & -> & _).
  unfold init_body. cbv zeta.
  set (bits := cpu_bits (processors_set e)) in *.
  unfold bind at 1. unfold calloc_or_cleanup at 1. rewrite Hcalloc.
  cbv beta iota. unfold bind at 1.
  match goal with
  | |- context [ collect e 0 bits ?f ] =>
      destruct (collect_failure e bits k bit 0 f Hk Hpin Hok)
        as (fr' & -> & Htrace)
  end.
  cbn [fst snd]. rewrite Htrace. cbn [fr_world set_live add_events trace].
  rewrite <- !app_assoc. reflexivity.
Qed.

Lemma pin_failure_stops_the_scan_witness :
  trace (cpuinfo_x86_linux_init
           (with_pin (fun bit => bit =? 0)
              (platform_two_cores (fun _ => true) true))
           world_uninitialized)
  = trace world_uninitialized ++ [ev_sched_getaffinity true]
    ++ map pinned [0]
    ++ [ev_sched_setaffinity (CPU_SET 1 CPU_ZERO) false;
        ev_log (err_setaffinity 1 1)]
    ++ restore_events (affinity world_uninitialized) true.
Proof.
  exact (pin_failure_stops_the_scan
           (with_pin (fun bit => bit =? 0)
              (platform_two_cores (fun _ => true) true))
           world_uninitialized 1 1 eq_refl eq_refl
           ltac:(vm_compute; reflexivity) eq_refl
           ltac:(vm_compute; reflexivity)).
Defined.

(** ** What a successful run publishes *)

Section Published.

Lemma cpu_count_bound (s : cpu_set_t) : 0 <= CPU_COUNT s <= CPU_SETSIZE.
Proof.
  unfold CPU_COUNT, cpu_bits.
  pose proof (List.filter_length_le (fun b => CPU_ISSET b s)
                (seqZ 0 CPU_SETSIZE)) as H.
  rewrite length_seqZ in H. unfold CPU_SETSIZE in *. lia.
Qed.

Lemma sorted_descriptors_length (e : platform) :
  Z.of_nat (length (sorted_descriptors e)) = CPU_COUNT (processors_set e).
Proof.
  unfold CPU_COUNT.
  rewrite (Permutation_length (sorted_descriptors_Permutation e)), length_map.
  reflexivity.
Qed.

(** The published state after a run in which every step succeeds. *)
Lemma init_success_snapshot (e : platform) (w : world) :
  all_steps_succeed e = true ->
  exists p,
    snapshot (cpuinfo_x86_linux_init e w)
    = candidate p (CPU_COUNT (processors_set e))
        (cpuinfo_x86_count_objects (sorted_descriptors e))
        (build (cpuinfo_x86_normalize_brand_string e) (sorted_descriptors e)).
Proof.
  intros Hall. unfold cpuinfo_x86_linux_init.
  destruct (getaffinity_ok e) eqn:Hget;
    [|unfold all_steps_succeed in Hall; rewrite Hget in Hall; discriminate].
  pose proof (init_body_spec e w [ev_sched_getaffinity true] Hget) as Hbody.
  unfold wp in Hbody.
  destruct (init_body e _) as [r fr'] eqn:Hrun. cbn [fst snd] in Hbody |- *.
  destruct (cleanup_spec e (affinity w) fr') as (-> & _).
  destruct r as [[]|].
  - destruct Hbody as (_ & fr & _ & ->). exists (ptrs fr). reflexivity.
  - destruct Hbody as (Hfalse & _). congruence.
Qed.

End Published.

(** X19. After a run in which every step succeeds and in whose build
    loop every shift is defined and no store falls outside its array,
    the published processor count is the number of processors of the
    set, the published processor, core and package counts are the sizes
    of the published arrays, and the processor ranges of the published
    cores, and of the published packages, follow one another without
    gap or overlap from processor 0 to the published processor count. *)
Theorem successful_run_publishes_consistent_topology
    (e : platform) (w : world) :
  all_steps_succeed e = true ->
  run_defined (cpuinfo_x86_normalize_brand_string e) (sorted_descriptors e) ->
  cpuinfo_processors_count (snapshot (cpuinfo_x86_linux_init e w))
  = CPU_COUNT (processors_set e)
  /\ counts_match_arrays (snapshot (cpuinfo_x86_linux_init e w))
  /\ topology_partitions (snapshot (cpuinfo_x86_linux_init e w)).
Proof.
  intros Hall Hrun.
  destruct (init_success_snapshot e w Hall) as [p ->].
  pose proof (sorted_descriptors_length e) as Hn.
  pose proof (cpu_count_bound (processors_set e)) as Hb.
  assert (Z.of_nat (length (sorted_descriptors e)) < 2 ^ 32) as Hlen
    by (unfold CPU_SETSIZE in Hb; lia).
  set (xs := sorted_descriptors e) in *.
  set (normalize := cpuinfo_x86_normalize_brand_string e) in *.
  pose proof (run_defined_regular normalize xs Hlen Hrun) as Hreg.
  destruct (build_topology_inv normalize xs Hlen Hreg) as (HlenC & HlenP & _).
  pose proof (counted_bounds cs_core cs_core_step xs eq_refl Hlen) as HC.
  pose proof (counted_bounds cs_package cs_package_step xs eq_refl Hlen) as HP.
  destruct (counted_all xs) as [EC EP].
  unfold counts_match_arrays, topology_partitions.
  cbn [candidate cpuinfo_processors cpuinfo_cores cpuinfo_packages elems
       cpuinfo_processors_count cpuinfo_cores_count cpuinfo_packages_count].
  split; [reflexivity|]. split.
  - rewrite build_processors_length, HlenC, HlenP. lia.
  - rewrite <- Hn. apply build_partitions; assumption.
Qed.

Lemma successful_run_publishes_consistent_topology_witness :
  cpuinfo_processors_count
    (snapshot (cpuinfo_x86_linux_init platform_four_cores world_uninitialized))
  = CPU_COUNT (processors_set platform_four_cores)
  /\ counts_match_arrays
       (snapshot (cpuinfo_x86_linux_init platform_four_cores
                    world_uninitialized))
  /\ topology_partitions
       (snapshot (cpuinfo_x86_linux_init platform_four_cores
                    world_uninitialized)).
Proof.
  apply (successful_run_publishes_consistent_topology platform_four_cores
           world_uninitialized).
  - vm_compute. reflexivity.
  - split; vm_compute; reflexivity.
Defined.

(** ** The calls of a successful run *)

Section SuccessTrace.

Lemma bind_success {A B} (m : M A) (k : A -> M B) (fr fr'' : frame) (b : B) :
  bind m k fr = (Some b, fr'') ->
  exists a fr', m fr = (Some a, fr') /\ k a fr' = (Some b, fr'').
Proof.
  unfold bind. destruct (m fr) as [[a|] fr']; [|discriminate].
  intros H. exists a, fr'. split; [reflexivity|exact H].
Qed.

Lemma calloc_or_cleanup_quiet (e : platform) (a : array_id) (fr fr' : frame)
    (r : unit) :
  calloc_or_cleanup e a fr = (Some r, fr') ->
  trace (fr_world fr') = trace (fr_world fr).
Proof.
  unfold calloc_or_cleanup. destruct (calloc_ok e a); [|discriminate].
  intros H. injection H as _ <-. reflexivity.
Qed.

Lemma calloc_cache_quiet (e : platform) (level : cpuinfo_cache_level) (n : Z)
    (fr fr' : frame) (r : unit) :
  calloc_cache e level n fr = (Some r, fr') ->
  trace (fr_world fr') = trace (fr_world fr).
Proof.
  unfold calloc_cache. destruct (n =? 0).
  - intros H. injection H as _ <-. reflexivity.
  - apply calloc_or_cleanup_quiet.
Qed.

Lemma collect_success_trace (e : platform) (bits : list Z) (i : Z)
    (fr fr' : frame) (xs : list cpuinfo_x86_processor) :
  collect e i bits fr = (Some xs, fr') ->
  trace (fr_world fr') = trace (fr_world fr) ++ map pinned bits.
Proof.
  revert i fr fr' xs. induction bits as [|b bits IH]; intros i fr fr' xs H.
  - injection H as _ <-. cbn [map]. rewrite app_nil_r. reflexivity.
  - cbn [collect] in H.
    apply bind_success in H as ([] & fr1 & Hpin & H).
    apply bind_success in H as (ys & fr2 & Hrest & H).
    injection H as _ <-. apply IH in Hrest. rewrite Hrest.
    unfold pin in Hpin. destruct (pin_ok e b); [|discriminate].
    injection Hpin as <-. cbn [fr_world set_affinity add_events trace map].
    rewrite <- app_assoc. reflexivity.
Qed.

Lemma init_body_success_trace (e : platform) (fr fr' : frame) (r : unit) :
  init_body e fr = (Some r, fr') ->
  trace (fr_world fr')
  = trace (fr_world fr) ++ map pinned (cpu_bits (processors_set e)).
Proof.
  unfold init_body. cbv zeta. intros H.
  apply bind_success in H as (? & f1 & H1 & H).
  apply bind_success in H as (xs & f2 & H2 & H).
  apply bind_success in H as (? & f3 & H3 & H).
  apply bind_success in H as (? & f4 & H4 & H).
  apply bind_success in H as (? & f5 & H5 & H).
  apply bind_success in H as (? & f6 & H6 & H).
  apply bind_success in H as (? & f7 & H7 & H).
  apply bind_success in H as (? & f8 & H8 & H).
  apply bind_success in H as (? & f9 & H9 & H).
  apply bind_success in H as (? & f10 & H10 & H).
  apply bind_success in H as (? & f11 & H11 & H).
  apply bind_success in H as (? & f12 & H12 & H).
  apply bind_success in H as (? & f13 & H13 & H).
  unfold commit in H. injection H as _ <-.
  unfold on_world in H13. injection H13 as _ <-.
  cbn [fr_world set_snapshot add_faults trace].
  apply calloc_or_cleanup_quiet in H1, H3, H4, H5, H6, H7.
  apply calloc_cache_quiet in H8, H9, H10, H11, H12.
  apply collect_success_trace in H2.
  congruence.
Qed.

End SuccessTrace.

(** X20. A run in which every step succeeds makes exactly these calls,
    in this order: it reads the affinity, pins the thread to each
    processor of the set in ascending order, and restores the affinity;
    it logs no error, and a warning only when restoring fails. *)
Theorem successful_run_calls (e : platform) (w : world) :
  all_steps_succeed e = true ->
  trace (cpuinfo_x86_linux_init e w)
  = trace w ++ [ev_sched_getaffinity true]
    ++ map pinned (cpu_bits (processors_set e))
    ++ restore_events (affinity w) (restore_ok e).
Proof.
  intros Hall. unfold cpuinfo_x86_linux_init.
  destruct (getaffinity_ok e) eqn:Hget;
    [|unfold all_steps_succeed in Hall; rewrite Hget in Hall; discriminate].
  pose proof (init_body_spec e w [ev_sched_getaffinity true] Hget) as Hbody.
  unfold wp in Hbody.
  destruct (init_body e _) as [r fr'] eqn:Hrun. cbn [fst snd] in Hbody |- *.
  destruct (cleanup_spec e (affinity w) fr') as (_ & _ & _ & -> & _).
  destruct r as [r|]; [|destruct Hbody as (Hfalse & _); congruence].
  apply init_body_success_trace in Hrun. rewrite Hrun.
  cbn [fr_world add_events trace]. rewrite <- !app_assoc. reflexivity.
Qed.

Lemma successful_run_calls_witness :
  trace (cpuinfo_x86_linux_init (platform_two_cores (fun _ => true) false)
           world_uninitialized)
  = trace world_uninitialized ++ [ev_sched_getaffinity true]
    ++ map pinned [0; 1]
    ++ restore_events (affinity world_uninitialized) false.
Proof.
  exact (successful_run_calls (platform_two_cores (fun _ => true) false)
           world_uninitialized ltac:(vm_compute; reflexivity)).
Defined.

(** ** The messages of a failing run *)

Section Reports.

Lemma reports_bind {A B} (m : M A) (k : A -> M B) :
  reports m -> (forall a, reports (k a)) -> reports (bind m k).
Proof.
  intros Hm Hk fr. unfold bind. destruct (Hm fr) as (c1 & Hc1 & H1).
  destruct (m fr) as [[a|] fr1]; cbn [fst snd] in H1 |- *.
  - destruct (Hk a fr1) as (c2 & Hc2 & H2). exists (c1 ++ c2).
    split; [apply Forall_app; split; assumption|].
    destruct (k a fr1) as [[b|] fr2]; cbn [fst snd] in H2 |- *.
    + rewrite H2, H1, app_assoc. reflexivity.
    + destruct H2 as (msg & Hmsg & H2). exists msg. split; [exact Hmsg|].
      rewrite H2, H1, <- !app_assoc. reflexivity.
  - exists c1. split; [exact Hc1|exact H1].
Qed.

Lemma reports_ret {A} (a : A) : reports (ret a).
Proof.
  intros fr. exists []. split; [constructor|].
  cbn [ret fst snd]. rewrite app_nil_r. reflexivity.
Qed.

Lemma reports_calloc_or_cleanup (e : platform) (a : array_id) :
  reports (calloc_or_cleanup e a).
Proof.
  intros fr. exists []. split; [constructor|].
  unfold calloc_or_cleanup. destruct (calloc_ok e a); cbn [fst snd].
  - cbn [fr_world set_live trace]. rewrite app_nil_r. reflexivity.
  - exists (err_calloc a). split; [exact I|reflexivity].
Qed.

Lemma reports_calloc_cache (e : platform) (level : cpuinfo_cache_level)
    (n : Z) :
  reports (calloc_cache e level n).
Proof.
  unfold calloc_cache. destruct (n =? 0);
    [apply reports_ret|apply reports_calloc_or_cleanup].
Qed.

Lemma reports_pin (e : platform) (i bit : Z) : reports (pin e i bit).
Proof.
  intros fr. unfold pin. destruct (pin_ok e bit); cbn [fst snd].
  - eexists [_]. split; [|reflexivity]. repeat constructor.
  - eexists [_].
    split; [|exists (err_setaffinity i bit); split; [exact I|reflexivity]].
    repeat constructor.
Qed.

Lemma reports_collect (e : platform) (bits : list Z) (i : Z) :
  reports (collect e i bits).
Proof.
  revert i. induction bits as [|b bits IH]; intros i; cbn [collect].
  - apply reports_ret.
  - apply reports_bind; [apply reports_pin|]. intros _.
    apply reports_bind; [apply IH|]. intros xs. apply reports_ret.
Qed.

Lemma reports_init_body (e : platform) : reports (init_body e).
Proof.
  unfold init_body. cbv zeta.
  repeat first
    [ apply reports_bind; [|intros ?]
    | apply reports_calloc_or_cleanup
    | apply reports_calloc_cache
    | apply reports_collect ].
  - intros fr. exists []. split; [constructor|].
    cbn [on_world fst snd fr_world add_faults trace].
    rewrite app_nil_r. reflexivity.
  - intros fr. exists []. split; [constructor|].
    cbn [commit fst snd fr_world set_snapshot trace].
    rewrite app_nil_r. reflexivity.
Qed.

End Reports.

(** X21. A run in which some step fails logs exactly one error: its
    trace is system calls, then the one error message, then -- unless
    the failing step was the reading of the affinity -- the restoring
    call with its possible warning. *)
Theorem failed_run_logs_one_error (e : platform) (w : world) :
  all_steps_succeed e = false ->
  exists calls msg,
    Forall is_call calls /\ is_error msg
    /\ trace (cpuinfo_x86_linux_init e w)
       = trace w ++ calls ++ [ev_log msg]
         ++ (if getaffinity_ok e
             then restore_events (affinity w) (restore_ok e) else []).
Proof.
  intros Hall. unfold cpuinfo_x86_linux_init.
  destruct (getaffinity_ok e) eqn:Hget.
  - pose proof (init_body_spec e w [ev_sched_getaffinity true] Hget) as Hbody.
    unfold wp in Hbody.
    destruct (reports_init_body e
                {| ptrs := fun _ => None;
                   fr_world := add_events [ev_sched_getaffinity true] w |})
      as (calls & Hcalls & Htrace).
    destruct (init_body e _) as [r fr'] eqn:Hrun.
    cbn [fst snd] in Hbody, Htrace |- *.
    destruct (cleanup_spec e (affinity w) fr') as (_ & _ & _ & -> & _).
    destruct r as [r|]; [destruct Hbody as (Htrue & _); congruence|].
    destruct Htrace as (msg & Hmsg & ->).
    exists (ev_sched_getaffinity true :: calls), msg.
    split; [constructor; [exact I|exact Hcalls]|]. split; [exact Hmsg|].
    cbn [fr_world add_events trace]. rewrite <- !app_assoc. reflexivity.
  - exists [ev_sched_getaffinity false], err_getaffinity.
    split; [repeat constructor|]. split; [exact I|].
    cbn [add_events trace]. rewrite app_nil_r. reflexivity.
Qed.

Lemma failed_run_logs_one_error_witness :
  exists calls msg,
    Forall is_call calls /\ is_error msg
    /\ trace (cpuinfo_x86_linux_init
                (platform_two_cores
                   (fun a => negb (bool_decide (a = arr_packages))) true)
                world_uninitialized)
       = trace world_uninitialized ++ calls ++ [ev_log msg]
         ++ restore_events (affinity world_uninitialized) true.
Proof.
  refine (failed_run_logs_one_error
            (platform_two_cores
               (fun a => negb (bool_decide (a = arr_packages))) true)
            world_uninitialized _).
  vm_compute. reflexivity.
Defined.
